(** * fastapi-keycloak: the token, guard and login-policy core of [api.py]

    A shallow embedding of [src/fastapi_keycloak/api.py].  Python values
    that travel as JSON are kept as a [json] tree, exceptions are a sum
    type, and every method that talks to Keycloak is a computation in a
    small state-and-error monad whose state carries the cached admin
    token, the number of clock readings and the log of requests sent. *)

From Stdlib Require Import ZArith List String Ascii Bool Lia.
From stdpp Require Import base option list strings gmap.
From stdpp Require Import pretty.
Import ListNotations.

Set Warnings "-register-all".
Local Open Scope string_scope.
Local Open Scope list_scope.
Local Open Scope Z_scope.

(** ** Python values *)

(** What [json.loads] / [Response.json()] can return.  Numbers are the
    integral ones; an object keeps its items in document order. *)
Inductive json : Type :=
| JNull
| JBool (b : bool)
| JNum (n : Z)
| JStr (s : string)
| JArr (items : list json)
| JObj (fields : list (string * json)).

(** Python truthiness ([if x:], [not x]). *)
Definition truthy (j : json) : bool :=
  match j with
  | JNull => false
  | JBool b => b
  | JNum n => negb (n =? 0)
  | JStr s => negb (String.eqb s EmptyString)
  | JArr l => match l with [] => false | _ => true end
  | JObj l => match l with [] => false | _ => true end
  end.

(** Lookup in an item list, as [dict.__getitem__] does. *)
Fixpoint assoc {A : Type} (k : string) (l : list (string * A)) : option A :=
  match l with
  | [] => None
  | (k', v) :: rest => if String.eqb k k' then Some v else assoc k rest
  end.

(** ** Exceptions raised or propagated by the modelled methods *)

Inductive exn : Type :=
| KeycloakError (status_code : Z) (why : reason)
| UserNotFound (status_code : Z) (msg : string)
| HTTPException (status_code : Z) (detail : string)
| MandatoryActionException (detail : string)
| UpdateUserLocaleException
| ConfigureTOTPException
| VerifyEmailException
| UpdatePasswordException
| UpdateProfileException
| ExpiredSignatureError
| JWTError
| JWTClaimsError
| JSONDecodeError
| ValidationError
| ValueError (msg : string)
| KeyError (key : string)
| TypeError
| AttributeError
| IndexError
| AssertionError
| RecursionError
| RequestException (msg : string)
(** The [reason=] argument of a [KeycloakError]: a JSON body, a text, or
    an f-string made of a fixed prefix followed by a value or by [str(e)]. *)
with reason : Type :=
| RJson (j : json)
| RText (s : string)
| RTextJson (prefix : string) (j : json)
| RTextExn (prefix : string) (cause : exn).

Inductive result (A : Type) : Type :=
| Ok (a : A)
| Raise (e : exn).
Arguments Ok {A} a.
Arguments Raise {A} e.

(** ** Built-in operations on Python values *)

(** [d.get(k, default)]: only a dict has [.get]. *)
Definition py_get (j : json) (k : string) (dflt : json) : result json :=
  match j with
  | JObj fields => Ok (default dflt (assoc k fields))
  | _ => Raise AttributeError
  end.

(** [x[k]] for a string key. *)
Definition py_getitem (j : json) (k : string) : result json :=
  match j with
  | JObj fields =>
      match assoc k fields with
      | Some v => Ok v
      | None => Raise (KeyError k)
      end
  | _ => Raise TypeError
  end.

(** [x[0]] *)
Definition py_getitem0 (j : json) : result json :=
  match j with
  | JArr (x :: _) => Ok x
  | JArr [] => Raise IndexError
  | JStr (String c _) => Ok (JStr (String c EmptyString))
  | JStr EmptyString => Raise IndexError
  | JObj _ => Raise (KeyError "0")
  | _ => Raise TypeError
  end.

(** The items a [for] loop walks through. *)
Definition py_iter (j : json) : result (list json) :=
  match j with
  | JArr items => Ok items
  | JObj fields => Ok (map (fun kv => JStr (fst kv)) fields)
  | JStr s => Ok (map (fun c => JStr (String c EmptyString)) (list_ascii_of_string s))
  | _ => Raise TypeError
  end.

(** [len(x)] *)
Definition py_len (j : json) : result Z :=
  match j with
  | JArr items => Ok (Z.of_nat (length items))
  | JObj fields => Ok (Z.of_nat (length fields))
  | JStr s => Ok (Z.of_nat (String.length s))
  | _ => Raise TypeError
  end.

(** [x == "text"] *)
Definition py_eq_str (j : json) (text : string) : bool :=
  match j with
  | JStr s => String.eqb s text
  | _ => false
  end.

(** [s.split(sep)] for a one-character separator. *)
Fixpoint str_split (sep : ascii) (s : string) : list string :=
  match s with
  | EmptyString => [EmptyString]
  | String c rest =>
      if Ascii.eqb c sep then EmptyString :: str_split sep rest
      else match str_split sep rest with
           | [] => [String c EmptyString]
           | w :: ws => String c w :: ws
           end
  end.

(** [s.partition(sep)]: the text before the first separator, the
    separator if it was found, and the text after it. *)
Fixpoint str_partition (sep : ascii) (s : string) : string * string * string :=
  match s with
  | EmptyString => (EmptyString, EmptyString, EmptyString)
  | String c rest =>
      if Ascii.eqb c sep then (EmptyString, String sep EmptyString, rest)
      else let '(before, found, after) := str_partition sep rest in
           (String c before, found, after)
  end.

(** [s.rstrip(c)]: every trailing occurrence of [c] is removed. *)
Fixpoint str_rstrip (c : ascii) (s : string) : string :=
  match s with
  | EmptyString => EmptyString
  | String a rest =>
      match str_rstrip c rest with
      | EmptyString => if Ascii.eqb a c then EmptyString else String a EmptyString
      | kept => String a kept
      end
  end.

(** A [datetime]: its wall-clock fields as a time counted from the
    epoch, and its UTC offset when it is an aware one. *)
Record datetime := mkDatetime {
  wall_clock : Z;
  tzinfo : option Z
}.

(** [d < datetime.utcnow()]: [utcnow] is naive, and Python refuses to
    order a naive and an aware datetime. *)
Definition datetime_lt_naive (d : datetime) (now : Z) : result bool :=
  match tzinfo d with
  | None => Ok (wall_clock d <? now)
  | Some _ => Raise TypeError
  end.

(** ** Models of [fastapi_keycloak.model] used by the code *)

Record KeycloakUser := mkKeycloakUser {
  id : string;
  requiredActions : list string;
  attributes : json
}.

(** Modelled from the spec: the class [OIDCUser] of [model.py], whose
    declaration is not among the sources.  It is the spec's
    authenticated-user view with a subject, roles and extension claims.
    [roles] is a property of the model, evaluated when the guard reads
    [user.roles]: it collects the role names of the token's realm and
    resource role mappings and raises a [KeycloakError] with status 404
    for a token that carries none.  The field holds the outcome of that
    reading, which does not depend on [extra_fields]. *)
Record OIDCUser := mkOIDCUser {
  sub : string;
  roles : result (list string);
  extra_fields : gmap string json
}.

(** The options dictionary handed to [jwt.decode]. *)
Record JwtOptions := mkJwtOptions {
  verify_signature : bool;
  verify_aud : bool;
  verify_exp : bool
}.

(** What the code takes from outside the repository: [jose.jwt.decode]
    (run at a given time), [datetime.fromisoformat] and [int] on a text
    ([None] when they raise [ValueError]), and the two pydantic models of
    [model.py], whose constructors validate a dictionary ([None] when
    they raise [ValidationError]). *)
Record Library := mkLibrary {
  jwt_decode : Z -> json -> string -> JwtOptions -> option string ->
               result (list (string * json));
  fromisoformat : string -> option datetime;
  int_of_str : string -> option Z;
  KeycloakUser_init : list (string * json) -> option KeycloakUser;
  OIDCUser_init : list (string * json) -> option OIDCUser
}.

(** ** HTTP *)

Inductive HTTPMethod := GET | POST | PUT | DELETE.

(** The [data=] argument of a request: nothing, a form dictionary, or the
    text produced by [json.dumps]. *)
Inductive payload :=
| NoData
| FormData (fields : list (string * string))
| JsonDumps (j : json).

(** A header value: a text, or the f-string [Bearer {token}]. *)
Inductive header_value :=
| HText (s : string)
| HBearer (token : json).

Record Request := mkRequest {
  req_method : HTTPMethod;
  req_url : string;
  req_headers : list (string * header_value);
  req_params : list (string * string);
  req_data : payload
}.

(** A [requests.Response]: the status, the body already decoded as UTF-8,
    and what [.json()] yields ([None] when it raises [JSONDecodeError]). *)
Record Response := mkResponse {
  status_code : Z;
  content : string;
  json_body : option json
}.

Definition response_json (r : Response) : result json :=
  match json_body r with
  | Some j => Ok j
  | None => Raise JSONDecodeError
  end.

(** ** The instance, its mutable state, and the outside world *)

(** The [FastAPIKeycloak] attributes set by [__init__], together with the
    two cached properties ([token_uri], [public_key]) that [__init__]
    itself forces when it runs [_get_admin_token]. *)
Record Config := mkConfig {
  server_url : string;
  realm : string;
  client_id : string;
  client_secret : string;
  admin_client_id : string;
  admin_client_secret : string;
  scope : string;
  token_uri : string;
  public_key : string
}.

Record State := mkState {
  _admin_token : json;        (* the cached admin access token *)
  clock_reads : nat;          (* how often the clock was read so far *)
  sent : list Request         (* requests sent so far, oldest first *)
}.

(** Keycloak and the clock: the answer to the [n]-th request and the UTC
    time, counted from the epoch, at the [n]-th reading. *)
Record World := mkWorld {
  respond : nat -> Request -> result Response;
  time_at : nat -> Z
}.

(** A computation over the instance state that returns or raises. *)
Definition M (A : Type) : Type := State -> result A * State.

Definition ret {A} (a : A) : M A := fun s => (Ok a, s).
Definition raise {A} (e : exn) : M A := fun s => (Raise e, s).
Definition bind {A B} (c : M A) (k : A -> M B) : M B :=
  fun s => match c s with
           | (Ok a, s') => k a s'
           | (Raise e, s') => (Raise e, s')
           end.
Definition lift {A} (r : result A) : M A := fun s => (r, s).

(** [try: c  except <handled> as e: h e] *)
Definition try_except {A} (c : M A) (handled : exn -> bool) (h : exn -> M A) : M A :=
  fun s => match c s with
           | (Ok a, s') => (Ok a, s')
           | (Raise e, s') => if handled e then h e s' else (Raise e, s')
           end.

Notation "x <- c ;; k" := (bind c (fun x => k))
  (at level 100, c at next level, right associativity).
Notation "c ;;; k" := (bind c (fun _ => k))
  (at level 100, right associativity).

(** ** Exception classes named in [except] clauses *)

Definition is_JSONDecodeError (e : exn) : bool :=
  match e with JSONDecodeError => true | _ => false end.

Definition is_KeyError (e : exn) : bool :=
  match e with KeyError _ => true | _ => false end.

Definition is_ValueError (e : exn) : bool :=
  match e with ValueError _ => true | _ => false end.

Definition is_ExpiredSignatureError (e : exn) : bool :=
  match e with ExpiredSignatureError => true | _ => false end.

(** [except (ExpiredSignatureError, JWTError, JWTClaimsError)] *)
Definition is_jwt_failure (e : exn) : bool :=
  match e with
  | ExpiredSignatureError | JWTError | JWTClaimsError => true
  | _ => false
  end.

(** [except Exception] *)
Definition is_Exception (e : exn) : bool := true.

(** ** The [result_or_error] decorator *)

(** What a decorated method hands to the wrapper: a [Response], or any
    other object. *)
Inductive returned (A : Type) : Type :=
| RetResponse (r : Response)
| RetValue (a : A).
Arguments RetResponse {A} r.
Arguments RetValue {A} a.

(** What the wrapper hands to the caller. *)
Inductive unwrapped (Model A : Type) : Type :=
| UValue (a : A)
| UJson (j : json)
| UText (s : string)
| UModel (m : Model)
| UList (l : list Model).
Arguments UValue {Model A} a.
Arguments UJson {Model A} j.
Arguments UText {Model A} s.
Arguments UModel {Model A} m.
Arguments UList {Model A} l.

Fixpoint create_list {Model : Type} (parse_obj : json -> option Model)
    (json_data : list json) : result (list Model) :=
  match json_data with
  | [] => Ok []
  | entry :: rest =>
      match parse_obj entry with
      | None => Raise ValidationError
      | Some m =>
          match create_list parse_obj rest with
          | Ok l => Ok (m :: l)
          | Raise e => Raise e
          end
      end
  end.

Definition create_object {Model : Type} (parse_obj : json -> option Model)
    (json_data : json) : result Model :=
  match parse_obj json_data with
  | Some m => Ok m
  | None => Raise ValidationError
  end.

(** [status_code in range(100, 299)] *)
Definition in_success_range (status : Z) : bool :=
  (100 <=? status) && (status <? 299).

Definition result_or_error {Model A : Type}
    (response_model : option (json -> option Model)) (is_list : bool)
    (f : M (returned A)) : M (unwrapped Model A) :=
  result <- f ;;
  match result with
  | RetValue a => ret (UValue a)
  | RetResponse result =>
      if in_success_range (status_code result) then
        match response_model with
        | None =>
            try_except
              (j <- lift (response_json result) ;; ret (UJson j))
              is_JSONDecodeError
              (fun _ => ret (UText (content result)))
        | Some parse_obj =>
            if is_list then
              j <- lift (response_json result) ;;
              entries <- lift (py_iter j) ;;
              l <- lift (create_list parse_obj entries) ;;
              ret (UList l)
            else
              j <- lift (response_json result) ;;
              m <- lift (create_object parse_obj j) ;;
              ret (UModel m)
        end
      else
        try_except
          (j <- lift (response_json result) ;;
           raise (KeycloakError (status_code result) (RJson j)))
          is_JSONDecodeError
          (fun _ => raise (KeycloakError (status_code result)
                             (RText (content result))))
  end.

(** Truthiness of what a decorated method returned ([if self.f(...):]). *)
Definition unwrapped_truthy {Model : Type} (v : unwrapped Model bool) : bool :=
  match v with
  | UValue b => b
  | UJson j => truthy j
  | UText s => negb (String.eqb s EmptyString)
  | UModel _ => true
  | UList l => match l with [] => false | _ => true end
  end.

(** ** Query validation *)

Definition ALLOWED_QUERY_FIELDS : gset string :=
  {[ "email"; "username"; "firstName"; "lastName" ]}.

(** The test made on one [key=value] pair of the query. *)
Definition pair_rejected (kv : string) : bool :=
  let '(key, _, value) := str_partition "="%char kv in
  negb (bool_decide (key ∈ ALLOWED_QUERY_FIELDS)) || String.eqb value EmptyString.

Definition invalid_query_message (kv : string) : string :=
  let '(key, _, value) := str_partition "="%char kv in
  "Invalid query field or value: " +:+ key +:+ "=" +:+ value.

Fixpoint validate_pairs (pairs : list string) : result unit :=
  match pairs with
  | [] => Ok tt
  | kv :: rest =>
      if pair_rejected kv then Raise (ValueError (invalid_query_message kv))
      else validate_pairs rest
  end.

Definition validate_query (query : string) : result string :=
  let pairs := str_split "&"%char query in
  match validate_pairs pairs with
  | Ok _ => Ok query
  | Raise e => Raise e
  end.

Section Client.

Context (world : World).

(** [requests.request(...)]: log the request and take the world's answer. *)
Definition send (rq : Request) : M Response :=
  fun s =>
    (respond world (length (sent s)) rq,
     mkState (_admin_token s) (clock_reads s) (sent s ++ [rq])).

(** Reading the clock ([datetime.utcnow()], and the time check inside
    [jwt.decode]). *)
Definition utcnow : M Z :=
  fun s =>
    (Ok (time_at world (clock_reads s)),
     mkState (_admin_token s) (S (clock_reads s)) (sent s)).

Definition set__admin_token (value : json) : M unit :=
  fun s => (Ok tt, mkState value (clock_reads s) (sent s)).

Definition get__admin_token : M json :=
  fun s => (Ok (_admin_token s), s).

Context (lib : Library) (self : Config).

(** How many nested calls of the [admin_token] getter the interpreter
    still allows; Python answers deeper recursion with [RecursionError]. *)
Context (recursion_limit : nat).

(** *** Endpoints *)

Definition _admin_uri : string :=
  server_url self +:+ "/admin/realms/" +:+ realm self.

Definition admin_uri (resource : string) : string :=
  _admin_uri +:+ "/" +:+ resource.

Definition users_uri : string := admin_uri "users".

(** *** Token verification *)

Definition _decode_token (token : json) (options : option JwtOptions)
    (audience : option string) : M (list (string * json)) :=
  let options :=
    match options with
    | None => mkJwtOptions true (bool_decide (audience <> None)) true
    | Some given => given
    end in
  now <- utcnow ;;
  lift (jwt_decode lib now token (public_key self) options audience).

Definition token_is_valid (token : json) (audience : option string) : M bool :=
  try_except
    (_decode_token token None audience ;;; ret true)
    is_jwt_failure
    (fun _ => ret false).

(** *** The admin token *)

(** The [admin_token] setter. *)
Definition admin_token_setter (value : json) : M unit :=
  decoded_token <- _decode_token value None None ;;
  let resource_access := default JNull (assoc "resource_access" decoded_token) in
  realm_management <- lift (py_get resource_access "realm-management" JNull) ;;
  if negb (truthy realm_management) then raise AssertionError
  else
    account <- lift (py_get resource_access "account" JNull) ;;
    if negb (truthy account) then raise AssertionError
    else set__admin_token value.

Definition _get_admin_token : M unit :=
  let headers := [("Content-Type", HText "application/x-www-form-urlencoded")] in
  let data := [("client_id", admin_client_id self);
               ("client_secret", admin_client_secret self);
               ("grant_type", "client_credentials")] in
  response <- send (mkRequest POST (token_uri self) headers [] (FormData data)) ;;
  try_except
    (body <- lift (response_json response) ;;
     access_token <- lift (py_getitem body "access_token") ;;
     admin_token_setter access_token)
    (fun e => is_JSONDecodeError e || is_KeyError e)
    (fun e =>
       if is_JSONDecodeError e then
         raise (KeycloakError (status_code response) (RText (content response)))
       else
         body <- lift (response_json response) ;;
         raise (KeycloakError 403
                  (RTextJson "The response did not contain an access_token: " body))).

(** The [admin_token] getter; [depth] counts the nested getter calls
    that are still allowed. *)
Fixpoint admin_token (depth : nat) : M json :=
  match depth with
  | O => raise RecursionError
  | S depth' =>
      cached <- get__admin_token ;;
      valid <- token_is_valid cached None ;;
      if valid then get__admin_token
      else _get_admin_token ;;; admin_token depth'
  end.

Definition _admin_request (url : string) (method : HTTPMethod) (data : json)
    (content_type : string) : M Response :=
  token <- admin_token recursion_limit ;;
  let headers := [("Content-Type", HText content_type);
                  ("Authorization", HBearer token)] in
  send (mkRequest method url headers [] (JsonDumps data)).

(** *** The authorization guard *)

Definition quote : string := String "034"%char EmptyString.

Definition role_required_detail (role : string) : string :=
  "Role " +:+ quote +:+ role +:+ quote +:+ " is required to perform this action".

(** [for role in required_roles: if role not in user.roles: raise ...];
    [user.roles] is read anew for every role. *)
Fixpoint check_required_roles (required_roles : list string) (user : OIDCUser)
    : result unit :=
  match required_roles with
  | [] => Ok tt
  | role :: rest =>
      match roles user with
      | Raise e => Raise e
      | Ok granted =>
          if negb (bool_decide (role ∈ granted)) then
            Raise (HTTPException 403 (role_required_detail role))
          else check_required_roles rest user
      end
  end.

(** [for field in extra_fields: user.extra_fields[field] = decoded_token.get(field, None)] *)
Fixpoint copy_extra_fields (fields : list string)
    (decoded_token : list (string * json)) (user : OIDCUser) : OIDCUser :=
  match fields with
  | [] => user
  | field :: rest =>
      copy_extra_fields rest decoded_token
        (mkOIDCUser (sub user) (roles user)
           (<[field := default JNull (assoc field decoded_token)]> (extra_fields user)))
  end.

(** [get_current_user(required_roles, extra_fields)] returns the
    dependency [current_user], which takes the bearer token. *)
Definition get_current_user (required_roles extra_fields : option (list string))
    (token : string) : M OIDCUser :=
  decoded_token <-
    try_except
      (_decode_token (JStr token) None (Some "account"))
      is_ExpiredSignatureError
      (fun _ => raise (HTTPException 401 "Access token has expired.")) ;;
  user <- lift (match OIDCUser_init lib decoded_token with
                | Some u => Ok u
                | None => Raise ValidationError
                end) ;;
  lift (match required_roles with
        | Some ((_ :: _) as required) => check_required_roles required user
        | _ => Ok tt
        end) ;;;
  ret (match extra_fields with
       | Some ((_ :: _) as fields) => copy_extra_fields fields decoded_token user
       | _ => user
       end).

(** *** User lookup *)

(** [KeycloakUser.parse_obj] *)
Definition KeycloakUser_parse_obj (j : json) : option KeycloakUser :=
  match j with
  | JObj fields => KeycloakUser_init lib fields
  | _ => None
  end.

(** The constructor call on an unpacked dictionary, as in [get_user]. *)
Definition KeycloakUser_kwargs (j : json) : result KeycloakUser :=
  match j with
  | JObj fields =>
      match KeycloakUser_init lib fields with
      | Some u => Ok u
      | None => Raise ValidationError
      end
  | _ => Raise TypeError
  end.

(** The body of [get_user], before the decorator. *)
Definition get_user_body (user_id : option string) (query : string)
    : M (returned KeycloakUser) :=
  match user_id with
  | None =>
      lift (validate_query query) ;;;
      response <- _admin_request (users_uri +:+ "?" +:+ query) GET JNull
                    "application/json" ;;
      found <- lift (response_json response) ;;
      if negb (truthy found) then
        raise (UserNotFound 404
                 ("User query with filters of [" +:+ query +:+
                  "] did no match any users"))
      else
        found <- lift (response_json response) ;;
        first <- lift (py_getitem0 found) ;;
        user <- lift (KeycloakUser_kwargs first) ;;
        ret (RetValue user)
  | Some user_id =>
      response <- _admin_request (users_uri +:+ "/" +:+ user_id) GET JNull
                    "application/json" ;;
      if status_code response =? 404 then
        raise (UserNotFound 404
                 ("User with user_id[" +:+ user_id +:+ "] was not found"))
      else
        found <- lift (response_json response) ;;
        user <- lift (KeycloakUser_kwargs found) ;;
        ret (RetValue user)
  end.

Definition get_user (user_id : option string) (query : string)
    : M (unwrapped KeycloakUser KeycloakUser) :=
  result_or_error (Some KeycloakUser_parse_obj) false (get_user_body user_id query).

(** *** Lockout, sessions and the realm cap *)

(** [for event in events: if event.get("error") == "user_temporarily_disabled": return True] *)
Fixpoint scan_events (events : list json) : result bool :=
  match events with
  | [] => Ok false
  | event :: rest =>
      match py_get event "error" JNull with
      | Raise e => Raise e
      | Ok error =>
          if py_eq_str error "user_temporarily_disabled" then Ok true
          else scan_events rest
      end
  end.

(** The body of [is_user_temporarily_disabled], before the decorator. *)
Definition is_user_temporarily_disabled_body (user_id : string)
    : M (returned bool) :=
  let url := _admin_uri +:+ "/events" in
  token <- admin_token recursion_limit ;;
  let headers := [("Authorization", HBearer token)] in
  let params := [("type", "LOGIN_ERROR"); ("userId", user_id)] in
  response <- send (mkRequest GET url headers params NoData) ;;
  if negb (status_code response =? 200) then
    raise (KeycloakError (status_code response)
             (RText ("Error al consultar eventos de Keycloak: " +:+ content response)))
  else
    events <- lift (response_json response) ;;
    events <- lift (py_iter events) ;;
    disabled <- lift (scan_events events) ;;
    ret (RetValue disabled).

Definition is_user_temporarily_disabled (user_id : string)
    : M (unwrapped Empty_set bool) :=
  result_or_error None false (is_user_temporarily_disabled_body user_id).

Definition get_active_sessions (user_id : string) : M json :=
  try_except
    (response <- _admin_request (users_uri +:+ "/" +:+ user_id +:+ "/sessions")
                   GET JNull "application/json" ;;
     lift (response_json response))
    is_Exception
    (fun e => raise (KeycloakError 400
                       (RTextExn "Error retrieving active sessions: " e))).

(** [int(x)] *)
Definition py_int (j : json) : result Z :=
  match j with
  | JNum n => Ok n
  | JBool b => Ok (if b then 1 else 0)
  | JStr s =>
      match int_of_str lib s with
      | Some n => Ok n
      | None => Raise (ValueError "invalid literal for int()")
      end
  | _ => Raise TypeError
  end.

Definition get_max_concurrent_sessions : M Z :=
  try_except
    (response <- _admin_request _admin_uri GET JNull "application/json" ;;
     realm_settings <- lift (response_json response) ;;
     realm_attributes <- lift (py_get realm_settings "attributes" (JObj [])) ;;
     max_sessions <- lift (py_get realm_attributes "max-sessions" (JNum 0)) ;;
     lift (py_int max_sessions))
    is_Exception
    (fun e => raise (KeycloakError 400
                       (RTextExn "Error retrieving max concurrent sessions setting: " e))).

(** *** Login *)

(** [user.attributes.get("account_expiration")] under its guard. *)
Definition account_expiration (user : KeycloakUser) : json :=
  match attributes user with
  | JObj ((_ :: _) as fields) => default JNull (assoc "account_expiration" fields)
  | _ => JNull
  end.

(** [expiration_date.rstrip("Z")] *)
Definition rstrip_Z (expiration_date : json) : result string :=
  match expiration_date with
  | JStr text => Ok (str_rstrip "Z"%char text)
  | _ => Raise AttributeError
  end.

(** The dictionary of exceptions keyed by required action, with its
    default. *)
Definition mandatory_action (reason : string) : exn :=
  default
    (MandatoryActionException
       ("This user cannot log in until the required action is resolved: "
        +:+ reason +:+ "."))
    (assoc reason
       [("update_user_locale", UpdateUserLocaleException);
        ("CONFIGURE_TOTP", ConfigureTOTPException);
        ("VERIFY_EMAIL", VerifyEmailException);
        ("UPDATE_PASSWORD", UpdatePasswordException);
        ("UPDATE_PROFILE", UpdateProfileException)]).

(** Step 1 of [user_login]: fetch the user by username. *)
Definition login_fetch_user (username : string) : M KeycloakUser :=
  found <- get_user None ("username=" +:+ username) ;;
  match found with
  | UValue user | UModel user => ret user
  | _ => raise AttributeError
  end.

(** Step 2: check if the user is temporarily disabled. *)
Definition login_check_lockout (user : KeycloakUser) : M unit :=
  disabled <- is_user_temporarily_disabled (id user) ;;
  if unwrapped_truthy disabled then
    raise (HTTPException 403
             "The user is temporarily disabled due to too many failed login attempts.")
  else ret tt.

(** Step 3: validate account expiration. *)
Definition login_check_expiration (user : KeycloakUser) : M unit :=
  let expiration_date := account_expiration user in
  if truthy expiration_date then
    let expiration_date :=
      match expiration_date with
      | JArr (first :: _) => first
      | other => other
      end in
    try_except
      (text <- lift (rstrip_Z expiration_date) ;;
       expiration_date <- lift (match fromisoformat lib text with
                                | Some d => Ok d
                                | None => Raise (ValueError "Invalid isoformat string")
                                end) ;;
       now <- utcnow ;;
       expired <- lift (datetime_lt_naive expiration_date now) ;;
       if expired then
         raise (HTTPException 403
                  "The account has expired. Please contact the administrator.")
       else ret tt)
      is_ValueError
      (fun _ => raise (HTTPException 400 "Invalid account expiration date format."))
  else ret tt.

(** Step 4: validate the number of active sessions for the user. *)
Definition login_check_sessions (user : KeycloakUser) : M unit :=
  active_sessions <- get_active_sessions (id user) ;;
  max_sessions <- get_max_concurrent_sessions ;;
  if 0 <? max_sessions then
    count <- lift (py_len active_sessions) ;;
    if max_sessions <=? count then
      raise (HTTPException 403
               "Concurrent session limit reached. Please close a session and try again.")
    else ret tt
  else ret tt.

(** The password-grant request sent to the token endpoint. *)
Definition password_grant (username password : string) : Request :=
  let headers := [("Content-Type", HText "application/x-www-form-urlencoded")] in
  let data := [("client_id", client_id self);
               ("client_secret", client_secret self);
               ("username", username);
               ("password", password);
               ("grant_type", "password");
               ("scope", scope self)] in
  mkRequest POST (token_uri self) headers [] (FormData data).

(** The closing [try] block of [user_login]: the five token fields of the
    grant response, or a [KeycloakError] when the body is not JSON. *)
Definition login_tokens (response : Response) : result json :=
  match response_json response with
  | Raise _ =>
      Raise (KeycloakError (status_code response)
               (RText "Failed to parse token response."))
  | Ok token_data =>
      match token_data with
      | JObj fields =>
          let get (k : string) := default JNull (assoc k fields) in
          Ok (JObj [("access_token", get "access_token");
                    ("refresh_token", get "refresh_token");
                    ("id_token", get "id_token");
                    ("expires_in", get "expires_in");
                    ("refresh_expires_in", get "refresh_expires_in")])
      | _ => Raise AttributeError
      end
  end.

(** Step 6: validate the authentication result, then return the tokens. *)
Definition login_result (user : KeycloakUser) (response : Response) : result json :=
  if status_code response =? 401 then
    Raise (HTTPException 401 "Invalid credentials.")
  else if status_code response =? 400 then
    match requiredActions user with
    | reason :: _ => Raise (mandatory_action reason)
    | [] => login_tokens response
    end
  else login_tokens response.

Definition user_login (username password : string) : M json :=
  user <- login_fetch_user username ;;
  login_check_lockout user ;;;
  login_check_expiration user ;;;
  login_check_sessions user ;;;
  response <- send (password_grant username password) ;;
  lift (login_result user response).

End Client.

(** ** Notions used to state the properties *)

(** A request is a password grant when its form says [grant_type=password]. *)
Definition is_password_grant (rq : Request) : bool :=
  match req_data rq with
  | FormData fields =>
      match assoc "grant_type" fields with
      | Some kind => String.eqb kind "password"
      | None => false
      end
  | _ => false
  end.

(** The password grants among the requests sent. *)
Definition grant_requests (requests : list Request) : list Request :=
  filter (fun rq => is_password_grant rq = true) requests.

(** The options [_decode_token] builds when no audience is given. *)
Definition plain_options : JwtOptions := mkJwtOptions true false true.

(** A computation that sends no password grant, whatever else it sends. *)
Definition quiet {A : Type} (c : M A) : Prop :=
  forall s, grant_requests (sent (snd (c s))) = grant_requests (sent s).

(** A [key=value] pair the lookup accepts: an allowed field and a
    value that is not empty. *)
Definition pair_allowed (kv : string) : Prop :=
  let '(key, _, value) := str_partition "="%char kv in
  In key ["email"; "username"; "firstName"; "lastName"] /\ value <> EmptyString.

(** The first item of a sequence, or the value itself. *)
Definition first_or_self (value : json) : json :=
  match value with
  | JArr (first :: _) => first
  | other => other
  end.

(** A token that the decoder accepts at the [n]-th reading of the clock
    is not reported expired or invalid at the reading that follows; the
    decoding is that of [_decode_token] without an audience. *)
Definition outlives_next_reading (world : World) (lib : Library) (self : Config)
    (n : nat) : Prop :=
  forall token claims e,
    jwt_decode lib (time_at world n) token (public_key self) plain_options None
      = Ok claims ->
    jwt_decode lib (time_at world (S n)) token (public_key self) plain_options None
      = Raise e ->
    is_jwt_failure e = false.

(** ** A scripted gateway for running the model *)

Module Mock.

(** A decoder that knows the claims carried by each issued token and
    rejects a token whose [exp] lies before the time of the check. *)
Definition decode (issued : list (string * list (string * json)))
    (now : Z) (token : json) (key : string) (options : JwtOptions)
    (audience : option string) : result (list (string * json)) :=
  match token with
  | JStr text =>
      match assoc text issued with
      | Some claims =>
          match assoc "exp" claims with
          | Some (JNum exp) =>
              if verify_exp options && (exp <? now)
              then Raise ExpiredSignatureError
              else Ok claims
          | _ => Ok claims
          end
      | None => Raise JWTError
      end
  | _ => Raise JWTError
  end.

(** The answers of [datetime.fromisoformat] on the texts used below. *)
Definition isoformat (text : string) : option datetime :=
  if String.eqb text "2020-01-01T00:00:00" then Some (mkDatetime 1577836800 None)
  else if String.eqb text "2999-01-01T00:00:00" then Some (mkDatetime 32472144000 None)
  else if String.eqb text "2020-01-01T00:00:00+00:00" then Some (mkDatetime 1577836800 (Some 0))
  else None.

(** [int] on a text made of decimal digits. *)
Fixpoint digits (text : string) (acc : Z) : option Z :=
  match text with
  | EmptyString => Some acc
  | String c rest =>
      let d := Z.of_nat (nat_of_ascii c) - 48 in
      if (0 <=? d) && (d <=? 9) then digits rest (10 * acc + d) else None
  end.

Definition int_text (text : string) : option Z :=
  match text with
  | EmptyString => None
  | _ => digits text 0
  end.

Fixpoint strings_of (items : list json) : option (list string) :=
  match items with
  | [] => Some []
  | JStr s :: rest =>
      match strings_of rest with
      | Some l => Some (s :: l)
      | None => None
      end
  | _ => None
  end.

Definition user_init (fields : list (string * json)) : option KeycloakUser :=
  match assoc "id" fields, assoc "requiredActions" fields with
  | Some (JStr uid), Some (JArr actions) =>
      match strings_of actions with
      | Some required => Some (mkKeycloakUser uid required
                                 (default JNull (assoc "attributes" fields)))
      | None => None
      end
  | _, _ => None
  end.

(** The reading of [roles] on a user without any role. *)
Definition no_roles : exn :=
  KeycloakError 404 (RText "The access token did not contain any roles").

(** A user needs a subject; its roles are those of the [roles] claim, and
    reading them fails when the claim is missing or empty. *)
Definition oidc_init (claims : list (string * json)) : option OIDCUser :=
  match assoc "sub" claims with
  | Some (JStr subject) =>
      match assoc "roles" claims with
      | Some (JArr ((_ :: _) as items)) =>
          match strings_of items with
          | Some granted => Some (mkOIDCUser subject (Ok granted) ∅)
          | None => None
          end
      | Some (JArr []) | None => Some (mkOIDCUser subject (Raise no_roles) ∅)
      | Some _ => None
      end
  | _ => None
  end.

Definition library (issued : list (string * list (string * json))) : Library :=
  mkLibrary (decode issued) isoformat int_text user_init oidc_init.

(** A gateway that answers the [n]-th request with the [n]-th scripted
    response, under a clock given as a function of the reading. *)
Definition scripted (responses : list (result Response)) (clock : nat -> Z) : World :=
  mkWorld
    (fun n _ => nth n responses (Raise (RequestException "connection refused")))
    clock.

Definition config : Config :=
  mkConfig "https://kc.example/auth" "Test" "app" "app-secret"
           "admin-cli" "admin-secret" "openid profile email"
           "https://kc.example/auth/realms/Test/protocol/openid-connect/token"
           "-----BEGIN PUBLIC KEY-----".

Definition json_response (status : Z) (body : json) : result Response :=
  Ok (mkResponse status EmptyString (Some body)).

(** The claims of an admin token that carries both resource roles and
    expires at [exp]. *)
Definition admin_claims (exp : Z) : list (string * json) :=
  [("exp", JNum exp);
   ("resource_access",
    JObj [("realm-management", JObj [("roles", JArr [JStr "manage-users"])]);
          ("account", JObj [("roles", JArr [JStr "manage-account"])])])].

(** Tokens known to the decoder: an admin token valid until 2100, a
    stale one, three that expire at times 1, 3 and 5, a user token and
    the token of a user without roles. *)
Definition issued : list (string * list (string * json)) :=
  [("admin-token", admin_claims 4102444800);
   ("stale", admin_claims (-1));
   ("t1", admin_claims 1);
   ("t3", admin_claims 3);
   ("t5", admin_claims 5);
   ("alice-token",
    [("sub", JStr "alice"); ("exp", JNum 4102444800);
     ("roles", JArr [JStr "reader"; JStr "writer"])]);
   ("nobody-token",
    [("sub", JStr "nobody"); ("exp", JNum 4102444800)])].

Definition lib : Library := library issued.

(** A clock that stands at a fixed time in 2030. *)
Definition clock_2030 (n : nat) : Z := 1900000000.

(** An instance whose cached admin token is valid. *)
Definition start : State := mkState (JStr "admin-token") 0 [].

Definition user_json (uid : string) (actions : list json) (attrs : json) : json :=
  JObj [("id", JStr uid); ("requiredActions", JArr actions); ("attributes", attrs)].

Definition found (user : json) : result Response :=
  json_response 200 (JArr [user]).

Definition no_events : result Response := json_response 200 (JArr []).

Definition lockout_events : result Response :=
  json_response 200
    (JArr [JObj [("type", JStr "LOGIN_ERROR");
                 ("error", JStr "user_temporarily_disabled")]]).

Definition sessions (n : nat) : result Response :=
  json_response 200 (JArr (repeat (JObj [("id", JStr "session")]) n)).

Definition realm_cap (cap : string) : result Response :=
  json_response 200 (JObj [("attributes", JObj [("max-sessions", JStr cap)])]).

Definition expires (text : json) : json :=
  JObj [("account_expiration", text)].

(** carol is locked out, and her account expired in 2020. *)
Definition locked_and_expired : World :=
  scripted
    [found (user_json "u-carol" [] (expires (JArr [JStr "2020-01-01T00:00:00Z"])));
     lockout_events]
    clock_2030.

(** bob is not locked out; his account expired in 2020. *)
Definition expired_bob : World :=
  scripted
    [found (user_json "u-bob" [] (expires (JStr "2020-01-01T00:00:00Z")));
     no_events]
    clock_2030.

(** dave carries an empty expiration attribute; the realm has no cap and
    the token endpoint accepts his password. *)
Definition empty_expiration : World :=
  scripted
    [found (user_json "u-dave" [] (expires (JStr EmptyString)));
     no_events; sessions 0; realm_cap "0";
     json_response 200 (JObj [("access_token", JStr "dave-token")])]
    clock_2030.

(** erin has two sessions open under a cap of two. *)
Definition two_sessions_cap_two : World :=
  scripted
    [found (user_json "u-erin" [] JNull); no_events; sessions 2; realm_cap "2"]
    clock_2030.

(** alice must update her password; the grant is answered with 400. *)
Definition update_password_pending : World :=
  scripted
    [found (user_json "u-alice" [JStr "UPDATE_PASSWORD"] JNull);
     no_events; sessions 0; realm_cap "0";
     json_response 400 (JObj [("error", JStr "invalid_grant")])]
    clock_2030.

(** The token endpoint answers frank's grant with a server error. *)
Definition server_error : World :=
  scripted
    [found (user_json "u-frank" [] JNull);
     no_events; sessions 0; realm_cap "0";
     json_response 500 (JObj [("error", JStr "server_error")])]
    clock_2030.

(** A token endpoint whose tokens have expired by the time they are
    looked at again: the clock advances by one at every reading, and the
    token issued for the [n]-th request expires at time [2n+1]. *)
Definition short_lived : World :=
  scripted
    [json_response 200 (JObj [("access_token", JStr "t1")]);
     json_response 200 (JObj [("access_token", JStr "t3")]);
     json_response 200 (JObj [("access_token", JStr "t5")])]
    Z.of_nat.

Definition stale_start : State := mkState (JStr "stale") 0 [].

(** A token endpoint that answers with the long-lived admin token. *)
Definition renewing : World :=
  scripted [json_response 200 (JObj [("access_token", JStr "admin-token")])]
    clock_2030.




End Mock.

(** ** Groups, roles and the remaining administration calls *)

(** Modelled from the spec: the class [KeycloakGroup] of [model.py],
    whose declaration is not among the sources, with the fields the code
    reads.  [path] and [subGroups] are optional fields of the model: a
    group built from an entry of the gateway that has no [subGroups] key
    holds [None] there, and the code reads the field as it is. *)
Inductive KeycloakGroup : Type :=
| mkKeycloakGroup (group_id group_name : string) (group_path : option string)
    (subGroups : option (list KeycloakGroup)).

Definition group_id (g : KeycloakGroup) : string :=
  match g with mkKeycloakGroup i _ _ _ => i end.

Definition group_name (g : KeycloakGroup) : string :=
  match g with mkKeycloakGroup _ n _ _ => n end.

Definition group_path (g : KeycloakGroup) : option string :=
  match g with mkKeycloakGroup _ _ p _ => p end.

Definition subGroups (g : KeycloakGroup) : option (list KeycloakGroup) :=
  match g with mkKeycloakGroup _ _ _ subs => subs end.

(** A [KeycloakRole]: its name, and its attribute dictionary
    ([role.__dict__]). *)
Record KeycloakRole := mkKeycloakRole {
  role_name : string;
  role_dict : json
}.

(** Truthiness of an optional list: [None] and the empty list are
    falsy. *)
Definition nonempty {A : Type} (l : option (list A)) : bool :=
  match l with Some (_ :: _) => true | _ => false end.

(** [group.path == path], for a text [path]. *)
Definition path_is (group : KeycloakGroup) (path : string) : bool :=
  match group_path group with
  | Some p => String.eqb p path
  | None => false
  end.

(** The subgroups a group lists, none when the field is [None]. *)
Definition listed (g : KeycloakGroup) : list KeycloakGroup :=
  match subGroups g with
  | Some subs => subs
  | None => []
  end.

(** [get_subgroups]: walk the children; a child with the path is the
    answer; at a child that has subgroups of its own, search below every
    child of [group] before going on.  Iterating over [group.subGroups]
    raises [TypeError] when the field is [None]. *)
Fixpoint get_subgroups (group : KeycloakGroup) (path : string) {struct group}
    : result (option KeycloakGroup) :=
  match group with
  | mkKeycloakGroup _ _ _ None => Raise TypeError
  | mkKeycloakGroup _ _ _ (Some subs) =>
      let below :=
        (fix below (l : list KeycloakGroup) : result (option KeycloakGroup) :=
           match l with
           | [] => Ok None
           | subgroup :: rest =>
               match get_subgroups subgroup path with
               | Raise e => Raise e
               | Ok (Some subgroups) => Ok (Some subgroups)
               | Ok None => below rest
               end
           end) in
      (fix children (l : list KeycloakGroup) : result (option KeycloakGroup) :=
         match l with
         | [] => Ok None
         | subgroup :: rest =>
             if path_is subgroup path then Ok (Some subgroup)
             else if nonempty (subGroups subgroup) then
               match below subs with
               | Raise e => Raise e
               | Ok (Some subgroups) => Ok (Some subgroups)
               | Ok None => children rest
               end
             else children rest
         end) subs
  end.

(** The inner loop of [get_group_by_path], over the subgroups of a base
    group. *)
Fixpoint group_by_path_below (subs : list KeycloakGroup) (path : string)
    : result (option KeycloakGroup) :=
  match subs with
  | [] => Ok None
  | group :: rest =>
      if path_is group path then Ok (Some group)
      else match get_subgroups group path with
           | Raise e => Raise e
           | Ok (Some res) => Ok (Some res)
           | Ok None => group_by_path_below rest path
           end
  end.

(** The outer loop of [get_group_by_path], over the base groups; the
    subgroups of a base group are walked only after [group.subGroups] was
    found truthy. *)
Fixpoint group_by_path_loop (groups : list KeycloakGroup) (path : string)
    (search_in_subgroups : bool) : result (option KeycloakGroup) :=
  match groups with
  | [] => Ok None
  | group :: rest =>
      if path_is group path then Ok (Some group)
      else if search_in_subgroups && nonempty (subGroups group) then
        match group_by_path_below (listed group) path with
        | Raise e => Raise e
        | Ok (Some found) => Ok (Some found)
        | Ok None => group_by_path_loop rest path search_in_subgroups
        end
      else group_by_path_loop rest path search_in_subgroups
  end.

(** [d] lies somewhere below [g]. *)
Inductive descendant : KeycloakGroup -> KeycloakGroup -> Prop :=
| descendant_child (g sub : KeycloakGroup) :
    In sub (listed g) -> descendant sub g
| descendant_deeper (g sub d : KeycloakGroup) :
    In sub (listed g) -> descendant d sub -> descendant d g.

(** The two loops of [get_subgroups], as functions of the list still to
    walk: the search below every child, and the walk over the children of
    a group whose children are [subs]. *)
Fixpoint search_below (l : list KeycloakGroup) (path : string)
    : result (option KeycloakGroup) :=
  match l with
  | [] => Ok None
  | subgroup :: rest =>
      match get_subgroups subgroup path with
      | Raise e => Raise e
      | Ok (Some subgroups) => Ok (Some subgroups)
      | Ok None => search_below rest path
      end
  end.

Fixpoint search_children (subs l : list KeycloakGroup) (path : string)
    : result (option KeycloakGroup) :=
  match l with
  | [] => Ok None
  | subgroup :: rest =>
      if path_is subgroup path then Ok (Some subgroup)
      else if nonempty (subGroups subgroup) then
        match search_below subs path with
        | Raise e => Raise e
        | Ok (Some subgroups) => Ok (Some subgroups)
        | Ok None => search_children subs rest path
        end
      else search_children subs rest path
  end.

(** [d] is one of the base groups or lies below one of them. *)
Definition in_forest (d : KeycloakGroup) (groups : list KeycloakGroup) : Prop :=
  In d groups \/ exists g, In g groups /\ descendant d g.

(** Where [get_group_by_path] looks: among the base groups, and below
    them when subgroups are searched. *)
Definition searched (search_in_subgroups : bool) (d : KeycloakGroup)
    (groups : list KeycloakGroup) : Prop :=
  if search_in_subgroups then in_forest d groups else In d groups.

(** The group and every group below it hold a list of subgroups, empty
    for a leaf. *)
Definition lists_all_subgroups (g : KeycloakGroup) : Prop :=
  subGroups g <> None /\ forall d, descendant d g -> subGroups d <> None.

(** The same as a test on the tree. *)
Fixpoint all_listed (g : KeycloakGroup) : bool :=
  match g with
  | mkKeycloakGroup _ _ _ None => false
  | mkKeycloakGroup _ _ _ (Some subs) => forallb all_listed subs
  end.

(** The list a decorated list method returned; with a response model and
    [is_list] the wrapper returns a list or raises. *)
Definition unwrapped_list {Model : Type} (v : unwrapped Model Empty_set)
    : result (list Model) :=
  match v with
  | UList l => Ok l
  | UValue a => match a with end
  | _ => Raise TypeError
  end.

(** [str(x)] inside an f-string; the text of a list or a dictionary is
    left to [repr]. *)
Definition format_value (repr : json -> string) (value : json) : string :=
  match value with
  | JStr s => s
  | JNull => "None"
  | JBool true => "True"
  | JBool false => "False"
  | JNum n => pretty n
  | other => repr other
  end.

(** [data] of [set_max_concurrent_sessions]. *)
Definition max_sessions_data (max_sessions : Z) : json :=
  JObj [("attributes", JObj [("max-sessions", JStr (pretty max_sessions))])].

(** [data] of [set_session_max_lifespan]. *)
Definition session_max_lifespan_data (session_max_lifespan : Z)
    (idle_timeout : option Z) : json :=
  JObj (("ssoSessionMaxLifespan", JStr (pretty session_max_lifespan)) ::
        match idle_timeout with
        | Some idle => [("ssoSessionIdleTimeout", JStr (pretty idle))]
        | None => []
        end).

Section Administration.

Context (world : World) (lib : Library) (self : Config) (recursion_limit : nat).

(** The constructors of [KeycloakGroup] and [KeycloakRole] from a parsed
    entry, the attribute dictionary of a user, and [repr] of a list or a
    dictionary. *)
Context (KeycloakGroup_parse_obj : json -> option KeycloakGroup)
        (KeycloakRole_parse_obj : json -> option KeycloakRole)
        (KeycloakUser_dict : KeycloakUser -> json)
        (repr : json -> string).

Definition roles_uri : string := admin_uri self "roles".

Definition groups_uri : string := admin_uri self "groups".

(** The client-credentials request of [_get_admin_token]. *)
Definition client_credentials_grant : Request :=
  mkRequest POST (token_uri self)
    [("Content-Type", HText "application/x-www-form-urlencoded")] []
    (FormData [("client_id", admin_client_id self);
               ("client_secret", admin_client_secret self);
               ("grant_type", "client_credentials")]).

(** *** Roles *)

Definition get_all_roles : M (unwrapped KeycloakRole Empty_set) :=
  result_or_error (Some KeycloakRole_parse_obj) true
    (response <- _admin_request world lib self recursion_limit roles_uri GET JNull
                   "application/json" ;;
     ret (RetResponse response)).

Definition get_roles_body (role_names : option (list string))
    : M (returned (option (list KeycloakRole))) :=
  match role_names with
  | None => ret (RetValue None)
  | Some role_names =>
      roles <- get_all_roles ;;
      roles <- lift (unwrapped_list roles) ;;
      ret (RetValue (Some (filter (fun role => role_name role ∈ role_names) roles)))
  end.

Definition get_roles (role_names : option (list string))
    : M (unwrapped KeycloakRole (option (list KeycloakRole))) :=
  result_or_error (Some KeycloakRole_parse_obj) true (get_roles_body role_names).

(** The roles a caller of [get_roles] can walk through. *)
Definition roles_found (v : unwrapped KeycloakRole (option (list KeycloakRole)))
    : result (list KeycloakRole) :=
  match v with
  | UValue (Some l) => Ok l
  | UList l => Ok l
  | _ => Raise TypeError
  end.

(** The body shared by [add_user_roles] ([POST]) and [remove_user_roles]
    ([DELETE]). *)
Definition user_roles_request (method : HTTPMethod)
    (roles : option (list string)) (user_id : string) : M (returned Empty_set) :=
  keycloak_roles <- get_roles roles ;;
  keycloak_roles <- lift (roles_found keycloak_roles) ;;
  response <- _admin_request world lib self recursion_limit
                (users_uri self +:+ "/" +:+ user_id +:+ "/role-mappings/realm")
                method (JArr (map role_dict keycloak_roles)) "application/json" ;;
  ret (RetResponse response).

Definition add_user_roles (roles : option (list string)) (user_id : string)
    : M (unwrapped Empty_set Empty_set) :=
  result_or_error None false (user_roles_request POST roles user_id).

Definition remove_user_roles (roles : option (list string)) (user_id : string)
    : M (unwrapped Empty_set Empty_set) :=
  result_or_error None false (user_roles_request DELETE roles user_id).

(** *** Groups *)

Definition get_all_groups : M (unwrapped KeycloakGroup Empty_set) :=
  result_or_error (Some KeycloakGroup_parse_obj) true
    (response <- _admin_request world lib self recursion_limit groups_uri GET JNull
                   "application/json" ;;
     ret (RetResponse response)).

Definition get_group_by_path (path : string) (search_in_subgroups : bool)
    : M (unwrapped KeycloakGroup (option KeycloakGroup)) :=
  result_or_error (Some KeycloakGroup_parse_obj) false
    (groups <- get_all_groups ;;
     groups <- lift (unwrapped_list groups) ;;
     found <- lift (group_by_path_loop groups path search_in_subgroups) ;;
     ret (RetValue found)).

(** *** Session policy of the realm *)

Definition set_realm_session_lifespan (session_lifespan : Z) : M json :=
  try_except
    (let realm_uri := _admin_uri self +:+ "/" in
     let data := JObj [("accessTokenLifespan", JStr (pretty session_lifespan))] in
     response <- _admin_request world lib self recursion_limit realm_uri PUT data
                   "application/json" ;;
     if status_code response =? 204 then
       ret (JObj [("message", JStr "Realm session lifespan updated successfully.")])
     else
       raise (KeycloakError (status_code response)
                (RText ("Failed to update realm session lifespan: "
                        +:+ content response))))
    is_Exception
    (fun e => raise (KeycloakError 400
                       (RTextExn "Error updating realm session lifespan: " e))).

Definition set_session_max_lifespan (session_max_lifespan : Z)
    (idle_timeout : option Z) : M json :=
  try_except
    (let realm_uri := _admin_uri self +:+ "/" in
     let data := session_max_lifespan_data session_max_lifespan idle_timeout in
     response <- _admin_request world lib self recursion_limit realm_uri PUT data
                   "application/json" ;;
     if status_code response =? 204 then
       ret (JObj [("message", JStr "Session max lifespan updated successfully.")])
     else
       raise (KeycloakError (status_code response)
                (RText ("Failed to update session max lifespan: "
                        +:+ content response))))
    is_Exception
    (fun e => raise (KeycloakError 400
                       (RTextExn "Error updating session max lifespan: " e))).

Definition set_max_concurrent_sessions (max_sessions : Z) : M json :=
  try_except
    (let realm_uri := _admin_uri self +:+ "/" in
     let data := max_sessions_data max_sessions in
     response <- _admin_request world lib self recursion_limit realm_uri PUT data
                   "application/json" ;;
     if status_code response =? 204 then
       ret (JObj [("message", JStr "Max concurrent sessions updated successfully.")])
     else
       raise (KeycloakError (status_code response)
                (RText ("Failed to update max concurrent sessions: "
                        +:+ content response))))
    is_Exception
    (fun e => raise (KeycloakError 400
                       (RTextExn "Error updating max concurrent sessions: " e))).

Definition logout_user (user_id : string) : M json :=
  try_except
    (let logout_uri := users_uri self +:+ "/" +:+ user_id +:+ "/logout" in
     response <- _admin_request world lib self recursion_limit logout_uri POST JNull
                   "application/json" ;;
     if status_code response =? 204 then
       ret (JObj [("message", JStr "User session terminated successfully.")])
     else
       raise (KeycloakError (status_code response)
                (RText ("Failed to terminate user session: " +:+ content response))))
    is_Exception
    (fun e => raise (KeycloakError 400
                       (RTextExn "Error terminating user session: " e))).

(** *** Token refresh *)

(** The refresh-token request sent to the token endpoint. *)
Definition refresh_grant (refresh_token : string) : Request :=
  let content_type := "application/x-www-form-urlencoded" in
  let headers := [("Content-Type", HText content_type)] in
  let data := [("client_id", client_id self);
               ("client_secret", client_secret self);
               ("grant_type", "refresh_token");
               ("refresh_token", refresh_token)] in
  mkRequest POST (token_uri self) headers [] (FormData data).

Definition refresh_token (refresh_token : string) : M json :=
  response <- send world (refresh_grant refresh_token) ;;
  if status_code response =? 200 then lift (response_json response)
  else
    body <- lift (response_json response) ;;
    description <- lift (py_get body "error_description" (JStr "Unknown error")) ;;
    raise (HTTPException (status_code response)
             ("Error refreshing token: " +:+ format_value repr description)).

(** *** Updating a user *)

Definition update_user_body (user : KeycloakUser)
    : M (returned (unwrapped KeycloakUser KeycloakUser)) :=
  response <- _admin_request world lib self recursion_limit
                (users_uri self +:+ "/" +:+ id user) PUT (KeycloakUser_dict user)
                "application/json" ;;
  if status_code response =? 204 then
    updated <- get_user world lib self recursion_limit (Some (id user)) EmptyString ;;
    ret (RetValue updated)
  else ret (RetResponse response).

Definition update_user (user : KeycloakUser)
    : M (unwrapped KeycloakUser (unwrapped KeycloakUser KeycloakUser)) :=
  result_or_error (Some (KeycloakUser_parse_obj lib)) false (update_user_body user).

Definition set_account_expiration (user_id expiration_datetime : string) : M json :=
  let attributes := JObj [("account_expiration", JStr expiration_datetime)] in
  found <- get_user world lib self recursion_limit (Some user_id) EmptyString ;;
  match found with
  | UValue user | UModel user =>
      let user := mkKeycloakUser (id user) (requiredActions user) attributes in
      update_user user ;;;
      ret (JObj [("message", JStr "Account expiration date set successfully.")])
  | _ => raise AttributeError
  end.

End Administration.

(** The claims carry both resource roles the admin token must have. *)
Definition carries_admin_roles (claims : list (string * json)) : Prop :=
  exists fields realm_management account,
    assoc "resource_access" claims = Some (JObj fields) /\
    assoc "realm-management" fields = Some realm_management /\
    truthy realm_management = true /\
    assoc "account" fields = Some account /\
    truthy account = true.

(** The state after one reading of the clock. *)
Definition tick (s : State) : State :=
  mkState (_admin_token s) (S (clock_reads s)) (sent s).

(** The request of [is_user_temporarily_disabled] for a user, under an
    admin token. *)
Definition events_request (self : Config) (user_id : string) (token : json)
    : Request :=
  mkRequest GET (_admin_uri self +:+ "/events")
    [("Authorization", HBearer token)]
    [("type", "LOGIN_ERROR"); ("userId", user_id)] NoData.

(** The request [_admin_request] sends under an admin token. *)
Definition admin_request (url : string) (method : HTTPMethod) (data : json)
    (token : json) : Request :=
  mkRequest method url
    [("Content-Type", HText "application/json"); ("Authorization", HBearer token)]
    [] (JsonDumps data).

(** A computation whose requests, appended to the log, all satisfy [P]. *)
Definition sends_only (P : Request -> Prop) {A : Type} (c : M A) : Prop :=
  forall s, exists new, sent (snd (c s)) = sent s ++ new /\ Forall P new.

(** An event that is an object. *)
Definition is_object (j : json) : Prop := exists fields, j = JObj fields.

(** An event that reports the temporary lockout. *)
Definition reports_lockout (event : json) : Prop :=
  exists fields, event = JObj fields /\
                 assoc "error" fields = Some (JStr "user_temporarily_disabled").

(** Any request at all. *)
Definition any_request : Request -> Prop := fun _ => True.

(** ** Scripted gateways for the administration calls *)

Module MockAdmin.

(** Groups of a sample realm: [/staff] with [/staff/dev], which holds
    [/staff/dev/core], and [/guests] without subgroups; every one of them
    holds a list of subgroups. *)
Definition core : KeycloakGroup :=
  mkKeycloakGroup "g3" "core" (Some "/staff/dev/core") (Some []).
Definition dev : KeycloakGroup :=
  mkKeycloakGroup "g2" "dev" (Some "/staff/dev") (Some [core]).
Definition staff : KeycloakGroup :=
  mkKeycloakGroup "g1" "staff" (Some "/staff") (Some [dev]).
Definition guests : KeycloakGroup :=
  mkKeycloakGroup "g4" "guests" (Some "/guests") (Some []).

(** Groups as a gateway sends them that leaves [subGroups] out of a
    group without subgroups: [/lab] with the leaf [/lab/bench]. *)
Definition bench : KeycloakGroup :=
  mkKeycloakGroup "g6" "bench" (Some "/lab/bench") None.
Definition lab : KeycloakGroup :=
  mkKeycloakGroup "g5" "lab" (Some "/lab") (Some [bench]).

(** A group constructor that knows the sample groups by their name. *)
Definition group_of (j : json) : option KeycloakGroup :=
  match j with
  | JStr key => assoc key [("staff", staff); ("guests", guests); ("lab", lab)]
  | _ => None
  end.

(** A role constructor that takes a role from its name. *)
Definition role_of (j : json) : option KeycloakRole :=
  match j with
  | JStr name => Some (mkKeycloakRole name (JObj [("name", JStr name)]))
  | _ => None
  end.

(** The attribute dictionary of a user, with the fields of the record. *)
Definition user_dict (user : KeycloakUser) : json :=
  JObj [("id", JStr (id user));
        ("requiredActions", JArr (map JStr (requiredActions user)));
        ("attributes", attributes user)].

Definition repr (j : json) : string := "[...]".

Definition groups_listed : World :=
  Mock.scripted [Mock.json_response 200 (JArr [JStr "guests"; JStr "staff"])]
    Mock.clock_2030.

Definition groups_with_bare_leaf : World :=
  Mock.scripted [Mock.json_response 200 (JArr [JStr "lab"; JStr "staff"])]
    Mock.clock_2030.

Definition roles_listed : World :=
  Mock.scripted
    [Mock.json_response 200 (JArr [JStr "admin"; JStr "reader"; JStr "writer"]);
     Mock.json_response 204 JNull]
    Mock.clock_2030.

Definition realm_cap_two : World :=
  Mock.scripted [Mock.realm_cap "2"] Mock.clock_2030.

Definition realm_without_cap : World :=
  Mock.scripted [Mock.json_response 200 (JObj [("realm", JStr "Test")])]
    Mock.clock_2030.

Definition events_with_lockout : World :=
  Mock.scripted [Mock.lockout_events] Mock.clock_2030.

Definition two_users_found : World :=
  Mock.scripted
    [Mock.json_response 200
       (JArr [Mock.user_json "u-alice" [] JNull; Mock.user_json "u-alicia" [] JNull])]
    Mock.clock_2030.

Definition user_by_id : World :=
  Mock.scripted
    [Mock.json_response 200
       (Mock.user_json "u-bob" [] (JObj [("department", JStr "sales")]));
     Mock.json_response 204 JNull;
     Mock.json_response 200
       (Mock.user_json "u-bob" [] (Mock.expires (JStr "2999-01-01T00:00:00Z")))]
    Mock.clock_2030.

Definition refresh_refused : World :=
  Mock.scripted
    [Mock.json_response 400
       (JObj [("error", JStr "invalid_grant");
              ("error_description", JStr "Token is not active")])]
    Mock.clock_2030.

End MockAdmin.

(** * Properties *)

(** ** The string and value helpers on small inputs *)

Example str_split_two_pairs :
  str_split "&"%char "email=a@b.c&username=alice" = ["email=a@b.c"; "username=alice"].
Proof. reflexivity. Qed.

Example str_split_empty : str_split "&"%char EmptyString = [EmptyString].
Proof. reflexivity. Qed.

Example str_partition_found :
  str_partition "="%char "username=a=b" = ("username", "=", "a=b").
Proof. reflexivity. Qed.

Example str_partition_missing :
  str_partition "="%char "username" = ("username", EmptyString, EmptyString).
Proof. reflexivity. Qed.

Example str_rstrip_all_trailing :
  str_rstrip "Z"%char "2020-01-01T00:00:00ZZ" = "2020-01-01T00:00:00".
Proof. reflexivity. Qed.

Example str_rstrip_inner_kept : str_rstrip "Z"%char "ZaZb" = "ZaZb".
Proof. reflexivity. Qed.

Example validate_query_accepts :
  validate_query "email=a@b.c&username=alice" = Ok "email=a@b.c&username=alice".
Proof. vm_compute. reflexivity. Qed.

Example validate_query_rejects_empty_value :
  validate_query "username=" = Raise (ValueError "Invalid query field or value: username=").
Proof. vm_compute. reflexivity. Qed.

Example in_success_range_edges :
  (in_success_range 99, in_success_range 100, in_success_range 298, in_success_range 299)
  = (false, true, true, false).
Proof. reflexivity. Qed.

(** ** Running the monad *)

Lemma bind_ok {A B : Type} (c : M A) (k : A -> M B) s a s1 :
  c s = (Ok a, s1) -> bind c k s = k a s1.
Proof. intros H. unfold bind. now rewrite H. Qed.

Lemma bind_raise {A B : Type} (c : M A) (k : A -> M B) s e s1 :
  c s = (Raise e, s1) -> bind c k s = (Raise e, s1).
Proof. intros H. unfold bind. now rewrite H. Qed.

Lemma bind_lift_ok {A B : Type} (r : result A) (k : A -> M B) s a :
  r = Ok a -> bind (lift r) k s = k a s.
Proof. intros ->. reflexivity. Qed.

Lemma bind_lift_raise {A B : Type} (r : result A) (k : A -> M B) s e :
  r = Raise e -> bind (lift r) k s = (Raise e, s).
Proof. intros ->. reflexivity. Qed.

Lemma in_success_range_spec (status : Z) :
  in_success_range status = true <-> 100 <= status <= 298.
Proof. unfold in_success_range. lia. Qed.

(** ** The response decorator *)

(** The body of a response as an error reason: the JSON when it parses,
    the text otherwise. *)
Lemma response_json_cases (r : Response) :
  (exists j, json_body r = Some j /\ response_json r = Ok j) \/
  (json_body r = None /\ response_json r = Raise JSONDecodeError).
Proof.
  unfold response_json. destruct (json_body r) as [j|]; [left; eauto | right; auto].
Qed.

Lemma create_list_raises {Model : Type} (parse_obj : json -> option Model)
    (entries : list json) (e : exn) :
  create_list parse_obj entries = Raise e -> e = ValidationError.
Proof.
  induction entries as [|x xs IH]; cbn; [discriminate|].
  destruct (parse_obj x); [|now intros [= <-]].
  destruct (create_list parse_obj xs); [discriminate|].
  intros [= <-]. now apply IH.
Qed.

Lemma py_iter_raises (j : json) (e : exn) :
  py_iter j = Raise e -> e = TypeError.
Proof. destruct j; cbn; try discriminate; now intros [= <-]. Qed.

(** The success branch of the wrapper never raises [KeycloakError]. *)
Lemma success_branch_no_KeycloakError {Model A : Type}
    (response_model : option (json -> option Model)) (is_list : bool)
    (r : Response) (s : State) (code : Z) (why : reason) :
  fst ((match response_model with
        | None =>
            try_except (j <- lift (response_json r) ;; ret (UJson j))
              is_JSONDecodeError (fun _ => ret (UText (content r)))
        | Some parse_obj =>
            if is_list then
              j <- lift (response_json r) ;;
              entries <- lift (py_iter j) ;;
              l <- lift (create_list parse_obj entries) ;;
              ret (UList l)
            else
              j <- lift (response_json r) ;;
              m <- lift (create_object parse_obj j) ;;
              ret (UModel m)
        end : M (unwrapped Model A)) s) <> Raise (KeycloakError code why).
Proof.
  destruct response_model as [parse_obj|]; [destruct is_list|];
    unfold try_except, bind, lift, ret, response_json, create_object;
    destruct (json_body r) as [j|]; cbn; try discriminate.
  - destruct (py_iter j) as [entries|e] eqn:Hiter; cbn.
    + destruct (create_list parse_obj entries) as [l|e] eqn:Hl; cbn; [discriminate|].
      apply create_list_raises in Hl. subst e. discriminate.
    + apply py_iter_raises in Hiter. subst e. discriminate.
  - destruct (parse_obj j); cbn; discriminate.
Qed.

(** C10. When the wrapped call returns a [Response], the wrapper takes
    the success branch exactly for a status from 100 to 298: there it never
    raises [KeycloakError], and without a response model it returns the
    parsed JSON or else the text; for any other status, 299 and above
    included, it raises [KeycloakError] with that status and the body
    (the JSON when it parses, the text otherwise). *)
Theorem result_or_error_status_range {Model A : Type}
    (response_model : option (json -> option Model)) (is_list : bool)
    (f : M (returned A)) (s s1 : State) (r : Response) :
  f s = (Ok (RetResponse r), s1) ->
  let out := result_or_error response_model is_list f s in
  let body := match json_body r with
              | Some j => RJson j
              | None => RText (content r)
              end in
  snd out = s1 /\
  (100 <= status_code r <= 298 ->
     (forall code why, fst out <> Raise (KeycloakError code why)) /\
     (response_model = None ->
        fst out = Ok (match json_body r with
                      | Some j => UJson j
                      | None => UText (content r)
                      end))) /\
  (299 <= status_code r -> fst out = Raise (KeycloakError (status_code r) body)) /\
  (fst out = Raise (KeycloakError (status_code r) body) <->
     ~ (100 <= status_code r <= 298)).
Proof.
  intros Hf out body. subst out body.
  unfold result_or_error. rewrite (bind_ok _ _ _ _ _ Hf).
  destruct (in_success_range (status_code r)) eqn:Hrange.
  - apply in_success_range_spec in Hrange.
    pose proof (success_branch_no_KeycloakError (A:=A) response_model is_list r s1)
      as Hnever.
    split; [|split; [|split]].
    + destruct response_model as [parse_obj|]; [destruct is_list|];
        unfold try_except, bind, lift, ret, response_json, create_object;
        destruct (json_body r) as [j|]; cbn; try reflexivity.
      * destruct (py_iter j) as [entries|]; cbn; [|reflexivity].
        destruct (create_list parse_obj entries); reflexivity.
      * destruct (parse_obj j); reflexivity.
    + intros _. split; [exact Hnever|].
      intros ->. unfold try_except, bind, lift, ret, response_json.
      destruct (json_body r); reflexivity.
    + intros Hhigh. lia.
    + split; [|intros Hn; contradiction].
      intros Hraise. exfalso. exact (Hnever _ _ Hraise).
  - assert (Hout : ~ (100 <= status_code r <= 298)).
    { intros Hin. apply in_success_range_spec in Hin. congruence. }
    assert (Herr :
      try_except
        (j <- lift (response_json r) ;;
         raise (KeycloakError (status_code r) (RJson j)))
        is_JSONDecodeError
        (fun _ => raise (KeycloakError (status_code r) (RText (content r)))) s1
      = (Raise (KeycloakError (status_code r)
                  match json_body r with
                  | Some j => RJson j
                  | None => RText (content r)
                  end) : result (unwrapped Model A), s1)).
    { unfold try_except, bind, lift, raise, response_json.
      destruct (json_body r); reflexivity. }
    rewrite Herr. cbn [fst snd].
    split; [reflexivity|]. split; [intros Hin; contradiction|].
    split; [reflexivity|]. split; auto.
Qed.

(** ** Query validation before the user lookup *)

Lemma pair_rejected_spec (kv : string) :
  pair_rejected kv = false <-> pair_allowed kv.
Proof.
  unfold pair_rejected, pair_allowed.
  destruct (str_partition "="%char kv) as [[key found] value].
  rewrite orb_false_iff, negb_false_iff, bool_decide_eq_true.
  rewrite String.eqb_neq.
  unfold ALLOWED_QUERY_FIELDS. cbn [In].
  split; intros [Hkey Hvalue]; (split; [|exact Hvalue]);
    revert Hkey; rewrite !elem_of_union, !elem_of_singleton; intuition auto.
Qed.

Lemma validate_pairs_ok (pairs : list string) :
  validate_pairs pairs = Ok tt <-> Forall pair_allowed pairs.
Proof.
  induction pairs as [|kv rest IH]; cbn.
  - split; auto.
  - destruct (pair_rejected kv) eqn:Hkv.
    + split; [discriminate|].
      intros Hall. apply Forall_cons_1 in Hall as [Hhead _].
      apply pair_rejected_spec in Hhead. congruence.
    + apply pair_rejected_spec in Hkv. rewrite IH. split.
      * intros Hrest. now constructor.
      * intros Hall. now apply Forall_cons_1 in Hall as [_ Hrest].
Qed.

Lemma validate_pairs_first_rejected (before after : list string) (kv : string) :
  Forall pair_allowed before -> ~ pair_allowed kv ->
  validate_pairs (before ++ kv :: after)
  = Raise (ValueError (invalid_query_message kv)).
Proof.
  intros Hbefore Hbad. induction before as [|x rest IH]; cbn.
  - destruct (pair_rejected kv) eqn:Hkv; [reflexivity|].
    apply pair_rejected_spec in Hkv. contradiction.
  - apply Forall_cons_1 in Hbefore as [Hx Hrest].
    apply pair_rejected_spec in Hx. rewrite Hx. now apply IH.
Qed.

Section Lookup.

Context (world : World) (lib : Library) (self : Config) (recursion_limit : nat).

(** C9. A lookup by query reaches the network only when every
    [&]-separated pair has an allowed key and a non-empty value: then the
    validation returns the query; otherwise the first offending pair is
    reported by a [ValueError] and [get_user] raises it with the state
    untouched, so no request was sent and no token was checked. *)
Theorem get_user_validates_query (query : string) (s : State) :
  let pairs := str_split "&"%char query in
  let out := get_user world lib self recursion_limit None query s in
  (Forall pair_allowed pairs -> validate_query query = Ok query) /\
  (forall before kv after,
     pairs = before ++ kv :: after -> Forall pair_allowed before ->
     ~ pair_allowed kv ->
     out = (Raise (ValueError (invalid_query_message kv)), s)) /\
  (sent (snd out) <> sent s -> Forall pair_allowed pairs).
Proof.
  intros pairs out.
  assert (Hraise : forall e, validate_pairs pairs = Raise e -> out = (Raise e, s)).
  { intros e Hv. subst out.
    unfold get_user, result_or_error, get_user_body, validate_query.
    fold pairs. rewrite Hv. reflexivity. }
  split; [|split].
  - intros Hall. unfold validate_query. fold pairs.
    apply validate_pairs_ok in Hall. now rewrite Hall.
  - intros before kv after Hsplit Hbefore Hbad. apply Hraise.
    rewrite Hsplit. now apply validate_pairs_first_rejected.
  - intros Hsent.
    destruct (validate_pairs pairs) as [[]|e] eqn:Hv.
    + now apply validate_pairs_ok.
    + exfalso. apply Hsent. rewrite (Hraise e eq_refl). reflexivity.
Qed.

End Lookup.

(** ** Token verification and the authorization guard *)

Lemma check_required_roles_ok (required granted : list string) (user : OIDCUser) :
  roles user = Ok granted ->
  check_required_roles required user = Ok tt <->
  Forall (fun role => role ∈ granted) required.
Proof.
  intros Hroles.
  induction required as [|role rest IH]; cbn.
  - split; auto.
  - rewrite Hroles.
    destruct (bool_decide (role ∈ granted)) eqn:Hrole; cbn.
    + apply bool_decide_eq_true in Hrole. rewrite IH. split.
      * intros Hrest. now constructor.
      * intros Hall. now apply Forall_cons_1 in Hall as [_ Hrest].
    + apply bool_decide_eq_false in Hrole. split; [discriminate|].
      intros Hall. apply Forall_cons_1 in Hall as [Hhead _]. contradiction.
Qed.

Lemma check_required_roles_first_missing (before after granted : list string)
    (role : string) (user : OIDCUser) :
  roles user = Ok granted ->
  Forall (fun r => r ∈ granted) before ->
  role ∉ granted ->
  check_required_roles (before ++ role :: after) user
  = Raise (HTTPException 403 (role_required_detail role)).
Proof.
  intros Hroles Hbefore Hmissing.
  induction before as [|r rest IH]; cbn; rewrite Hroles.
  - now rewrite (bool_decide_eq_false_2 _ Hmissing).
  - apply Forall_cons_1 in Hbefore as [Hr Hrest].
    rewrite (bool_decide_eq_true_2 _ Hr). cbn. now apply IH.
Qed.

(** When reading [user.roles] raises, the loop raises the same error at
    its first role. *)
Lemma check_required_roles_unreadable (role : string) (rest : list string)
    (user : OIDCUser) (e : exn) :
  roles user = Raise e ->
  check_required_roles (role :: rest) user = Raise e.
Proof. intros Hroles. cbn. now rewrite Hroles. Qed.

Lemma copy_extra_fields_keeps (fields : list string)
    (decoded : list (string * json)) (user : OIDCUser) :
  sub (copy_extra_fields fields decoded user) = sub user /\
  roles (copy_extra_fields fields decoded user) = roles user.
Proof.
  revert user. induction fields as [|field rest IH]; intros user; cbn; [auto|].
  destruct (IH (mkOIDCUser (sub user) (roles user)
                  (<[field := default JNull (assoc field decoded)]> (extra_fields user))))
    as [Hs Hr].
  now rewrite Hs, Hr.
Qed.

Section Guard.

Context (world : World) (lib : Library) (self : Config).

(** The guard after the token has decoded and parsed: the outcome of the
    roles loop, then the copy of the extra fields. *)
Lemma get_current_user_run
    (required_roles extra_fields : option (list string)) (token : string)
    (s s1 : State) (decoded : list (string * json)) (user : OIDCUser) :
  _decode_token world lib self (JStr token) None (Some "account") s = (Ok decoded, s1) ->
  OIDCUser_init lib decoded = Some user ->
  get_current_user world lib self required_roles extra_fields token s =
    match check_required_roles (default [] required_roles) user with
    | Ok _ => (Ok (match extra_fields with
                   | Some ((_ :: _) as fields) => copy_extra_fields fields decoded user
                   | _ => user
                   end), s1)
    | Raise e => (Raise e, s1)
    end.
Proof.
  intros Hdecode Hparse. unfold get_current_user.
  unfold bind at 1. unfold try_except. rewrite Hdecode.
  unfold bind at 1. unfold lift at 1. rewrite Hparse.
  unfold bind, lift, ret.
  destruct required_roles as [[|role rest]|]; cbn -[check_required_roles];
    reflexivity.
Qed.

(** C1, as amended. For a token that decodes and parses into a user, take
    the reading of the user's roles.  When it yields the collection [T],
    the guard returns the user view exactly when every required role is
    in [T]; otherwise it raises the 403 failure that names the first
    required role, in list order, missing from [T], whatever roles come
    after it in the list.  When the reading raises, as it does for a token
    without roles, the guard raises that same error as soon as one role is
    required, and returns the user view when none is. *)
Theorem get_current_user_required_roles
    (required_roles extra_fields : option (list string)) (token : string)
    (s s1 : State) (decoded : list (string * json)) (user : OIDCUser) :
  _decode_token world lib self (JStr token) None (Some "account") s = (Ok decoded, s1) ->
  OIDCUser_init lib decoded = Some user ->
  let required := default [] required_roles in
  let out := get_current_user world lib self required_roles extra_fields token s in
  let returned :=
    exists view, out = (Ok view, s1) /\ sub view = sub user /\ roles view = roles user in
  (forall granted, roles user = Ok granted ->
     (returned <-> Forall (fun role => role ∈ granted) required) /\
     (forall before role after,
        required = before ++ role :: after ->
        Forall (fun r => r ∈ granted) before ->
        role ∉ granted ->
        out = (Raise (HTTPException 403 (role_required_detail role)), s1))) /\
  (forall e, roles user = Raise e ->
     (required = [] -> returned) /\
     (required <> [] -> out = (Raise e, s1))).
Proof.
  intros Hdecode Hparse required out returned.
  assert (Hout : out =
    match check_required_roles required user with
    | Ok _ => (Ok (match extra_fields with
                   | Some ((_ :: _) as fields) => copy_extra_fields fields decoded user
                   | _ => user
                   end), s1)
    | Raise e => (Raise e, s1)
    end) by exact (get_current_user_run _ _ _ _ _ _ _ Hdecode Hparse).
  assert (Hreturns : check_required_roles required user = Ok tt -> returned).
  { intros Hok. unfold returned. rewrite Hout, Hok. eexists. split; [reflexivity|].
    destruct extra_fields as [[|field rest]|]; auto.
    apply copy_extra_fields_keeps. }
  split.
  - intros granted Hroles. split.
    + rewrite <- (check_required_roles_ok required granted user Hroles). split.
      * intros (view & Hview & _). rewrite Hout in Hview.
        destruct (check_required_roles required user) as [[]|e];
          [reflexivity|discriminate].
      * exact Hreturns.
    + intros before role after Hsplit Hbefore Hmissing.
      rewrite Hout, Hsplit.
      now rewrite (check_required_roles_first_missing before after granted role user
                     Hroles Hbefore Hmissing).
  - intros e Hroles. split.
    + intros Hnone. apply Hreturns. now rewrite Hnone.
    + intros Hsome. rewrite Hout.
      destruct required as [|role rest]; [contradiction|].
      now rewrite (check_required_roles_unreadable role rest user e Hroles).
Qed.

(** C7. [token_is_valid] answers [True] exactly when [_decode_token]
    returns the claims and [False] exactly when it raises one of
    [ExpiredSignatureError], [JWTError], [JWTClaimsError]; the decoding is
    one call of [jwt.decode] on the cached public key with signature and
    expiry verification switched on, and with audience verification
    switched on exactly when an audience is given. *)
Theorem token_is_valid_iff_decodes (token : json) (audience : option string)
    (s : State) :
  let decoded := _decode_token world lib self token None audience s in
  let valid := token_is_valid world lib self token audience s in
  (exists options,
     decoded = (jwt_decode lib (time_at world (clock_reads s)) token
                  (public_key self) options audience,
                mkState (_admin_token s) (S (clock_reads s)) (sent s)) /\
     verify_signature options = true /\
     verify_exp options = true /\
     (verify_aud options = true <-> audience <> None)) /\
  (fst valid = Ok true <-> exists claims, fst decoded = Ok claims) /\
  (fst valid = Ok false <->
     exists e, fst decoded = Raise e /\
               (e = ExpiredSignatureError \/ e = JWTError \/ e = JWTClaimsError)) /\
  (forall e, fst decoded = Raise e -> is_jwt_failure e = false ->
             fst valid = Raise e) /\
  snd valid = snd decoded.
Proof.
  intros decoded valid. subst decoded valid.
  unfold token_is_valid, try_except, bind, ret.
  unfold _decode_token, bind, utcnow, lift. cbn [fst snd].
  set (options := mkJwtOptions true (bool_decide (audience <> None)) true).
  set (verdict := jwt_decode lib (time_at world (clock_reads s)) token
                    (public_key self) options audience).
  split; [|split; [|split; [|split]]].
  - exists options. repeat split; auto.
    + cbn. apply bool_decide_eq_true.
    + cbn. apply bool_decide_eq_true.
  - destruct verdict as [claims|e]; cbn.
    + split; eauto.
    + destruct (is_jwt_failure e); cbn; split;
        try discriminate; intros [claims Hc]; discriminate.
  - destruct verdict as [claims|e]; cbn.
    + split; [discriminate|]. intros (e & He & _). discriminate.
    + destruct (is_jwt_failure e) eqn:Hkind; cbn.
      * split; [|reflexivity]. intros _. exists e. split; [reflexivity|].
        destruct e; cbn in Hkind; try discriminate; auto.
      * split; [discriminate|].
        intros (e' & [= <-] & [-> | [-> | ->]]); discriminate.
  - intros e. destruct verdict as [claims|e']; cbn; [discriminate|].
    intros [= ->] Hkind. now rewrite Hkind.
  - destruct verdict as [claims|e]; cbn; [reflexivity|].
    destruct (is_jwt_failure e); reflexivity.
Qed.

End Guard.

(** ** Which computations send a password grant *)

Lemma grant_requests_snoc (requests : list Request) (rq : Request) :
  grant_requests (requests ++ [rq])
  = grant_requests requests ++ (if is_password_grant rq then [rq] else []).
Proof.
  unfold grant_requests. rewrite filter_app. f_equal.
  rewrite filter_cons, filter_nil.
  destruct (is_password_grant rq); destruct (decide _); congruence.
Qed.

Lemma quiet_ret {A : Type} (a : A) : quiet (ret a).
Proof. intros s. reflexivity. Qed.

Lemma quiet_raise {A : Type} (e : exn) : quiet (raise (A:=A) e).
Proof. intros s. reflexivity. Qed.

Lemma quiet_lift {A : Type} (r : result A) : quiet (lift r).
Proof. intros s. reflexivity. Qed.

Lemma quiet_bind {A B : Type} (c : M A) (k : A -> M B) :
  quiet c -> (forall a, quiet (k a)) -> quiet (bind c k).
Proof.
  intros Hc Hk s. unfold bind. specialize (Hc s).
  destruct (c s) as [[a|e] s1]; cbn in *; [|exact Hc].
  now rewrite (Hk a s1).
Qed.

Lemma quiet_try_except {A : Type} (c : M A) (handled : exn -> bool)
    (h : exn -> M A) :
  quiet c -> (forall e, quiet (h e)) -> quiet (try_except c handled h).
Proof.
  intros Hc Hh s. unfold try_except. specialize (Hc s).
  destruct (c s) as [[a|e] s1]; cbn in *; [exact Hc|].
  destruct (handled e); cbn; [|exact Hc].
  now rewrite (Hh e s1).
Qed.

Lemma quiet_run {A : Type} (c : M A) (s s1 : State) (r : result A) :
  quiet c -> c s = (r, s1) -> grant_requests (sent s1) = grant_requests (sent s).
Proof. intros Hc Hrun. specialize (Hc s). now rewrite Hrun in Hc. Qed.

Section Quiet.

Context (world : World) (lib : Library) (self : Config) (recursion_limit : nat).

Lemma quiet_send (rq : Request) :
  is_password_grant rq = false -> quiet (send world rq).
Proof.
  intros Hrq s. cbn. rewrite grant_requests_snoc, Hrq. apply app_nil_r.
Qed.

Lemma quiet_utcnow : quiet (utcnow world).
Proof. intros s. reflexivity. Qed.

Lemma quiet_get__admin_token : quiet get__admin_token.
Proof. intros s. reflexivity. Qed.

Lemma quiet_set__admin_token (value : json) : quiet (set__admin_token value).
Proof. intros s. reflexivity. Qed.

End Quiet.

Create HintDb quiet.

#[local] Hint Resolve quiet_ret quiet_raise quiet_lift quiet_utcnow
  quiet_get__admin_token quiet_set__admin_token : quiet.

(** Walk through a computation: split binds and handlers, case on the
    tests, and close the leaves from the hint base. *)
Ltac quiet_walk :=
  repeat first
    [ solve [auto with quiet]
    | apply quiet_bind; [|intros ?]
    | apply quiet_try_except; [|intros ?]
    | apply quiet_send; reflexivity
    | match goal with
      | |- quiet (if ?b then _ else _) => destruct b
      | |- quiet (match ?x with _ => _ end) => destruct x
      end ].

Section QuietClient.

Context (world : World) (lib : Library) (self : Config) (recursion_limit : nat).

Lemma quiet__decode_token token options audience :
  quiet (_decode_token world lib self token options audience).
Proof. unfold _decode_token. quiet_walk. Qed.

Lemma quiet_token_is_valid token audience :
  quiet (token_is_valid world lib self token audience).
Proof.
  unfold token_is_valid. pose proof quiet__decode_token. quiet_walk.
Qed.

Lemma quiet_admin_token_setter value :
  quiet (admin_token_setter world lib self value).
Proof.
  unfold admin_token_setter. pose proof quiet__decode_token. quiet_walk.
Qed.

Lemma quiet__get_admin_token : quiet (_get_admin_token world lib self).
Proof.
  unfold _get_admin_token. pose proof quiet_admin_token_setter. quiet_walk.
Qed.

Lemma quiet_admin_token depth : quiet (admin_token world lib self depth).
Proof.
  induction depth as [|depth IH]; cbn [admin_token]; [auto with quiet|].
  pose proof quiet_token_is_valid. pose proof quiet__get_admin_token.
  quiet_walk.
Qed.

Lemma quiet__admin_request url method data content_type :
  quiet (_admin_request world lib self recursion_limit url method data content_type).
Proof.
  unfold _admin_request. pose proof quiet_admin_token. quiet_walk.
Qed.

Lemma quiet_result_or_error {Model A : Type}
    (response_model : option (json -> option Model)) (is_list : bool)
    (f : M (returned A)) :
  quiet f -> quiet (result_or_error response_model is_list f).
Proof. intros Hf. unfold result_or_error. quiet_walk. Qed.

Lemma quiet_get_user user_id query :
  quiet (get_user world lib self recursion_limit user_id query).
Proof.
  unfold get_user. apply quiet_result_or_error.
  unfold get_user_body. pose proof quiet__admin_request. quiet_walk.
Qed.

Lemma quiet_is_user_temporarily_disabled user_id :
  quiet (is_user_temporarily_disabled world lib self recursion_limit user_id).
Proof.
  unfold is_user_temporarily_disabled. apply quiet_result_or_error.
  unfold is_user_temporarily_disabled_body. pose proof quiet_admin_token.
  quiet_walk.
Qed.

Lemma quiet_get_active_sessions user_id :
  quiet (get_active_sessions world lib self recursion_limit user_id).
Proof.
  unfold get_active_sessions. pose proof quiet__admin_request. quiet_walk.
Qed.

Lemma quiet_get_max_concurrent_sessions :
  quiet (get_max_concurrent_sessions world lib self recursion_limit).
Proof.
  unfold get_max_concurrent_sessions. pose proof quiet__admin_request. quiet_walk.
Qed.

Lemma quiet_login_fetch_user username :
  quiet (login_fetch_user world lib self recursion_limit username).
Proof. unfold login_fetch_user. pose proof quiet_get_user. quiet_walk. Qed.

Lemma quiet_login_check_lockout user :
  quiet (login_check_lockout world lib self recursion_limit user).
Proof.
  unfold login_check_lockout. pose proof quiet_is_user_temporarily_disabled.
  quiet_walk.
Qed.

Lemma quiet_login_check_expiration user :
  quiet (login_check_expiration world lib user).
Proof. unfold login_check_expiration. quiet_walk. Qed.

Lemma quiet_login_check_sessions user :
  quiet (login_check_sessions world lib self recursion_limit user).
Proof.
  unfold login_check_sessions. pose proof quiet_get_active_sessions.
  pose proof quiet_get_max_concurrent_sessions. quiet_walk.
Qed.

End QuietClient.

(** ** The login flow *)

Section Login.

Context (world : World) (lib : Library) (self : Config) (recursion_limit : nat).

(** The state after the grant request has been sent from [s]. *)
Lemma send_run (rq : Request) (s : State) :
  send world rq s
  = (respond world (length (sent s)) rq,
     mkState (_admin_token s) (clock_reads s) (sent s ++ [rq])).
Proof. reflexivity. Qed.

(** [user_login], one step at a time. *)
Lemma user_login_stops_at_fetch username password s e s1 :
  login_fetch_user world lib self recursion_limit username s = (Raise e, s1) ->
  user_login world lib self recursion_limit username password s = (Raise e, s1).
Proof. intros H. unfold user_login. now rewrite (bind_raise _ _ _ _ _ H). Qed.

Lemma user_login_stops_at_lockout username password s user s1 e s2 :
  login_fetch_user world lib self recursion_limit username s = (Ok user, s1) ->
  login_check_lockout world lib self recursion_limit user s1 = (Raise e, s2) ->
  user_login world lib self recursion_limit username password s = (Raise e, s2).
Proof.
  intros H1 H2. unfold user_login.
  rewrite (bind_ok _ _ _ _ _ H1). now rewrite (bind_raise _ _ _ _ _ H2).
Qed.

Lemma user_login_stops_at_expiration username password s user s1 s2 e s3 :
  login_fetch_user world lib self recursion_limit username s = (Ok user, s1) ->
  login_check_lockout world lib self recursion_limit user s1 = (Ok tt, s2) ->
  login_check_expiration world lib user s2 = (Raise e, s3) ->
  user_login world lib self recursion_limit username password s = (Raise e, s3).
Proof.
  intros H1 H2 H3. unfold user_login.
  rewrite (bind_ok _ _ _ _ _ H1), (bind_ok _ _ _ _ _ H2).
  now rewrite (bind_raise _ _ _ _ _ H3).
Qed.

Lemma user_login_stops_at_sessions username password s user s1 s2 s3 e s4 :
  login_fetch_user world lib self recursion_limit username s = (Ok user, s1) ->
  login_check_lockout world lib self recursion_limit user s1 = (Ok tt, s2) ->
  login_check_expiration world lib user s2 = (Ok tt, s3) ->
  login_check_sessions world lib self recursion_limit user s3 = (Raise e, s4) ->
  user_login world lib self recursion_limit username password s = (Raise e, s4).
Proof.
  intros H1 H2 H3 H4. unfold user_login.
  rewrite (bind_ok _ _ _ _ _ H1), (bind_ok _ _ _ _ _ H2), (bind_ok _ _ _ _ _ H3).
  now rewrite (bind_raise _ _ _ _ _ H4).
Qed.

Lemma user_login_reaches_grant username password s user s1 s2 s3 s4 :
  login_fetch_user world lib self recursion_limit username s = (Ok user, s1) ->
  login_check_lockout world lib self recursion_limit user s1 = (Ok tt, s2) ->
  login_check_expiration world lib user s2 = (Ok tt, s3) ->
  login_check_sessions world lib self recursion_limit user s3 = (Ok tt, s4) ->
  user_login world lib self recursion_limit username password s
  = (match respond world (length (sent s4)) (password_grant self username password) with
     | Ok response => login_result user response
     | Raise e => Raise e
     end,
     mkState (_admin_token s4) (clock_reads s4)
       (sent s4 ++ [password_grant self username password])).
Proof.
  intros H1 H2 H3 H4. unfold user_login.
  rewrite (bind_ok _ _ _ _ _ H1), (bind_ok _ _ _ _ _ H2), (bind_ok _ _ _ _ _ H3).
  rewrite (bind_ok _ _ _ _ _ H4).
  unfold bind. rewrite send_run.
  destruct (respond world _ _); reflexivity.
Qed.

(** Up to the grant request, a login sends no password grant. *)
Lemma fetch_keeps_grants username s r s1 :
  login_fetch_user world lib self recursion_limit username s = (r, s1) ->
  grant_requests (sent s1) = grant_requests (sent s).
Proof. apply quiet_run, quiet_login_fetch_user. Qed.

Lemma lockout_keeps_grants user s r s1 :
  login_check_lockout world lib self recursion_limit user s = (r, s1) ->
  grant_requests (sent s1) = grant_requests (sent s).
Proof. apply quiet_run, quiet_login_check_lockout. Qed.

Lemma expiration_keeps_grants user s r s1 :
  login_check_expiration world lib user s = (r, s1) ->
  grant_requests (sent s1) = grant_requests (sent s).
Proof. apply quiet_run, quiet_login_check_expiration. Qed.

Lemma sessions_keeps_grants user s r s1 :
  login_check_sessions world lib self recursion_limit user s = (r, s1) ->
  grant_requests (sent s1) = grant_requests (sent s).
Proof. apply quiet_run, quiet_login_check_sessions. Qed.

Lemma unit_result (r : result unit) :
  r = Ok tt \/ exists e, r = Raise e.
Proof. destruct r as [[]|e]; eauto. Qed.

(** C2. [user_login] runs its checks in the order lockout, expiration,
    concurrency, and stops at the first that fails, in the state that
    check left: a user reported as temporarily disabled gets the lockout
    failure, not the expiration one, whatever the expiration attribute
    says; a failed expiration check ends the login before the session
    check, a failed session check before the grant; none of these sends a
    password grant, and a password grant is sent only after the user was
    fetched and the three checks passed, as the last request. *)
Theorem user_login_check_order (username password : string) (s : State) :
  let fetch := login_fetch_user world lib self recursion_limit username in
  let lockout := login_check_lockout world lib self recursion_limit in
  let expiration := login_check_expiration world lib in
  let sessions := login_check_sessions world lib self recursion_limit in
  let out := user_login world lib self recursion_limit username password s in
  (forall user s1 disabled s2,
     fetch s = (Ok user, s1) ->
     is_user_temporarily_disabled world lib self recursion_limit (id user) s1
       = (Ok disabled, s2) ->
     unwrapped_truthy disabled = true ->
     out = (Raise (HTTPException 403
              "The user is temporarily disabled due to too many failed login attempts."),
            s2) /\
     fst out <> Raise (HTTPException 403
                  "The account has expired. Please contact the administrator.") /\
     grant_requests (sent s2) = grant_requests (sent s)) /\
  (forall user s1 s2 e s3,
     fetch s = (Ok user, s1) ->
     lockout user s1 = (Ok tt, s2) ->
     expiration user s2 = (Raise e, s3) ->
     out = (Raise e, s3) /\ grant_requests (sent s3) = grant_requests (sent s)) /\
  (forall user s1 s2 s3 e s4,
     fetch s = (Ok user, s1) ->
     lockout user s1 = (Ok tt, s2) ->
     expiration user s2 = (Ok tt, s3) ->
     sessions user s3 = (Raise e, s4) ->
     out = (Raise e, s4) /\ grant_requests (sent s4) = grant_requests (sent s)) /\
  (grant_requests (sent (snd out)) <> grant_requests (sent s) ->
     exists user s1 s2 s3 s4,
       fetch s = (Ok user, s1) /\
       lockout user s1 = (Ok tt, s2) /\
       expiration user s2 = (Ok tt, s3) /\
       sessions user s3 = (Ok tt, s4) /\
       sent (snd out) = sent s4 ++ [password_grant self username password]).
Proof.
  intros fetch lockout expiration sessions out.
  subst fetch lockout expiration sessions out.
  split; [|split; [|split]].
  - intros user s1 disabled s2 Hfetch Hdisabled Htruthy.
    assert (Hlock : login_check_lockout world lib self recursion_limit user s1
                    = (Raise (HTTPException 403
                         "The user is temporarily disabled due to too many failed login attempts."),
                       s2)).
    { unfold login_check_lockout. rewrite (bind_ok _ _ _ _ _ Hdisabled).
      now rewrite Htruthy. }
    rewrite (user_login_stops_at_lockout _ password _ _ _ _ _ Hfetch Hlock).
    split; [reflexivity|]. split; [cbn; discriminate|].
    rewrite (lockout_keeps_grants _ _ _ _ Hlock).
    exact (fetch_keeps_grants _ _ _ _ Hfetch).
  - intros user s1 s2 e s3 Hfetch Hlock Hexp.
    rewrite (user_login_stops_at_expiration _ password _ _ _ _ _ _ Hfetch Hlock Hexp).
    split; [reflexivity|].
    rewrite (expiration_keeps_grants _ _ _ _ Hexp), (lockout_keeps_grants _ _ _ _ Hlock).
    exact (fetch_keeps_grants _ _ _ _ Hfetch).
  - intros user s1 s2 s3 e s4 Hfetch Hlock Hexp Hsess.
    rewrite (user_login_stops_at_sessions _ password _ _ _ _ _ _ _ Hfetch Hlock Hexp Hsess).
    split; [reflexivity|].
    rewrite (sessions_keeps_grants _ _ _ _ Hsess), (expiration_keeps_grants _ _ _ _ Hexp).
    rewrite (lockout_keeps_grants _ _ _ _ Hlock).
    exact (fetch_keeps_grants _ _ _ _ Hfetch).
  - intros Hsent.
    destruct (login_fetch_user world lib self recursion_limit username s)
      as [[user|e] s1] eqn:Hfetch.
    2:{ exfalso. apply Hsent.
        rewrite (user_login_stops_at_fetch _ password _ _ _ Hfetch). cbn.
        exact (fetch_keeps_grants _ _ _ _ Hfetch). }
    pose proof (fetch_keeps_grants _ _ _ _ Hfetch) as G1.
    destruct (login_check_lockout world lib self recursion_limit user s1)
      as [r2 s2] eqn:Hlock.
    pose proof (lockout_keeps_grants _ _ _ _ Hlock) as G2.
    destruct (unit_result r2) as [-> | [e ->]].
    2:{ exfalso. apply Hsent.
        rewrite (user_login_stops_at_lockout _ password _ _ _ _ _ Hfetch Hlock).
        cbn. congruence. }
    destruct (login_check_expiration world lib user s2) as [r3 s3] eqn:Hexp.
    pose proof (expiration_keeps_grants _ _ _ _ Hexp) as G3.
    destruct (unit_result r3) as [-> | [e ->]].
    2:{ exfalso. apply Hsent.
        rewrite (user_login_stops_at_expiration _ password _ _ _ _ _ _ Hfetch Hlock Hexp).
        cbn. congruence. }
    destruct (login_check_sessions world lib self recursion_limit user s3)
      as [r4 s4] eqn:Hsess.
    pose proof (sessions_keeps_grants _ _ _ _ Hsess) as G4.
    destruct (unit_result r4) as [-> | [e ->]].
    2:{ exfalso. apply Hsent.
        rewrite (user_login_stops_at_sessions _ password _ _ _ _ _ _ _ Hfetch Hlock Hexp Hsess).
        cbn. congruence. }
    exists user, s1, s2, s3, s4. repeat split; auto.
    now rewrite (user_login_reaches_grant _ password _ _ _ _ _ _ Hfetch Hlock Hexp Hsess).
Qed.

(** C6. Once the user is fetched and the lockout and expiration checks
    have passed, with [active_sessions] the sessions fetched and
    [max_sessions] the realm cap: a positive cap reached by the session
    count ends the login with the concurrency failure and no password
    grant; a cap of 0 lets the login go on to the grant request, whatever
    the sessions are. *)
Theorem user_login_session_cap (username password : string)
    (s s1 s2 s3 s4 s5 : State) (user : KeycloakUser)
    (active_sessions : json) (max_sessions : Z) :
  login_fetch_user world lib self recursion_limit username s = (Ok user, s1) ->
  login_check_lockout world lib self recursion_limit user s1 = (Ok tt, s2) ->
  login_check_expiration world lib user s2 = (Ok tt, s3) ->
  get_active_sessions world lib self recursion_limit (id user) s3
    = (Ok active_sessions, s4) ->
  get_max_concurrent_sessions world lib self recursion_limit s4
    = (Ok max_sessions, s5) ->
  let out := user_login world lib self recursion_limit username password s in
  (forall count,
     py_len active_sessions = Ok count ->
     0 < max_sessions -> max_sessions <= count ->
     out = (Raise (HTTPException 403
              "Concurrent session limit reached. Please close a session and try again."),
            s5) /\
     grant_requests (sent s5) = grant_requests (sent s)) /\
  (max_sessions = 0 ->
     out = (match respond world (length (sent s5))
                    (password_grant self username password) with
            | Ok response => login_result user response
            | Raise e => Raise e
            end,
            mkState (_admin_token s5) (clock_reads s5)
              (sent s5 ++ [password_grant self username password])) /\
     grant_requests (sent (snd out))
     = grant_requests (sent s) ++ [password_grant self username password]).
Proof.
  intros Hfetch Hlock Hexp Hact Hmax out. subst out.
  split.
  - intros count Hlen Hpos Hreached.
    assert (Hsess : login_check_sessions world lib self recursion_limit user s3
                    = (Raise (HTTPException 403
                         "Concurrent session limit reached. Please close a session and try again."),
                       s5)).
    { unfold login_check_sessions.
      rewrite (bind_ok _ _ _ _ _ Hact), (bind_ok _ _ _ _ _ Hmax).
      replace (0 <? max_sessions) with true by lia.
      rewrite (bind_lift_ok _ _ _ _ Hlen).
      replace (max_sessions <=? count) with true by lia. reflexivity. }
    rewrite (user_login_stops_at_sessions _ password _ _ _ _ _ _ _ Hfetch Hlock Hexp Hsess).
    split; [reflexivity|].
    rewrite (sessions_keeps_grants _ _ _ _ Hsess), (expiration_keeps_grants _ _ _ _ Hexp).
    rewrite (lockout_keeps_grants _ _ _ _ Hlock).
    exact (fetch_keeps_grants _ _ _ _ Hfetch).
  - intros ->.
    assert (Hsess : login_check_sessions world lib self recursion_limit user s3
                    = (Ok tt, s5)).
    { unfold login_check_sessions.
      rewrite (bind_ok _ _ _ _ _ Hact), (bind_ok _ _ _ _ _ Hmax). reflexivity. }
    rewrite (user_login_reaches_grant _ password _ _ _ _ _ _ Hfetch Hlock Hexp Hsess).
    split; [reflexivity|]. cbn [snd sent].
    rewrite grant_requests_snoc.
    rewrite (sessions_keeps_grants _ _ _ _ Hsess), (expiration_keeps_grants _ _ _ _ Hexp).
    rewrite (lockout_keeps_grants _ _ _ _ Hlock), (fetch_keeps_grants _ _ _ _ Hfetch).
    reflexivity.
Qed.

(** What the expiration check does on a value that is a text. *)
Lemma login_check_expiration_text (user : KeycloakUser) (text : string) (s : State) :
  truthy (account_expiration user) = true ->
  first_or_self (account_expiration user) = JStr text ->
  login_check_expiration world lib user s
  = match fromisoformat lib (str_rstrip "Z"%char text) with
    | None => (Raise (HTTPException 400 "Invalid account expiration date format."), s)
    | Some d =>
        let s' := mkState (_admin_token s) (S (clock_reads s)) (sent s) in
        match tzinfo d with
        | Some _ => (Raise TypeError, s')
        | None =>
            if wall_clock d <? time_at world (clock_reads s) then
              (Raise (HTTPException 403
                        "The account has expired. Please contact the administrator."),
               s')
            else (Ok tt, s')
        end
    end.
Proof.
  intros Htruthy Hfirst. unfold login_check_expiration. rewrite Htruthy.
  unfold first_or_self in Hfirst. rewrite Hfirst.
  unfold try_except, bind, lift, utcnow, rstrip_Z, datetime_lt_naive.
  destruct (fromisoformat lib (str_rstrip "Z"%char text)) as [d|]; cbn; [|reflexivity].
  destruct (tzinfo d); cbn; [reflexivity|].
  destruct (wall_clock d <? time_at world (clock_reads s)); reflexivity.
Qed.

(** C5, as the code has it. After the user is fetched and the lockout
    check has passed: an [account_expiration] attribute that is absent, or
    present but empty (a falsy value), causes no expiration failure;
    otherwise the value is the text itself or the first item of a
    sequence, every trailing [Z] is removed and the rest is parsed; a text
    that does not parse ends the login with the 400 configuration failure;
    a parsed date without UTC offset that lies strictly before the current
    UTC time ends it with the expired failure; in both cases no password
    grant has been sent; a parsed date without offset that is not before
    the current time passes the check. *)
Theorem user_login_expiration_check (username password : string)
    (s s1 s2 : State) (user : KeycloakUser) :
  login_fetch_user world lib self recursion_limit username s = (Ok user, s1) ->
  login_check_lockout world lib self recursion_limit user s1 = (Ok tt, s2) ->
  let value := account_expiration user in
  let out := user_login world lib self recursion_limit username password s in
  let now := time_at world (clock_reads s2) in
  let read := mkState (_admin_token s2) (S (clock_reads s2)) (sent s2) in
  (forall fields,
     attributes user = JObj fields -> assoc "account_expiration" fields = None ->
     login_check_expiration world lib user s2 = (Ok tt, s2)) /\
  (truthy value = false -> login_check_expiration world lib user s2 = (Ok tt, s2)) /\
  (forall text,
     truthy value = true -> first_or_self value = JStr text ->
     let parsed := fromisoformat lib (str_rstrip "Z"%char text) in
     (parsed = None ->
        out = (Raise (HTTPException 400 "Invalid account expiration date format."), s2) /\
        grant_requests (sent (snd out)) = grant_requests (sent s)) /\
     (forall d, parsed = Some d -> tzinfo d = None -> wall_clock d < now ->
        out = (Raise (HTTPException 403
                 "The account has expired. Please contact the administrator."), read) /\
        grant_requests (sent (snd out)) = grant_requests (sent s)) /\
     (forall d, parsed = Some d -> tzinfo d = None -> now <= wall_clock d ->
        login_check_expiration world lib user s2 = (Ok tt, read))).
Proof.
  intros Hfetch Hlock value out now read. subst value out now read.
  assert (Hfalsy : truthy (account_expiration user) = false ->
                   login_check_expiration world lib user s2 = (Ok tt, s2)).
  { intros Hf. unfold login_check_expiration. now rewrite Hf. }
  assert (Hgrants : forall e s3,
            login_check_expiration world lib user s2 = (Raise e, s3) ->
            user_login world lib self recursion_limit username password s = (Raise e, s3) /\
            grant_requests (sent s3) = grant_requests (sent s)).
  { intros e s3 Hexp. split.
    - exact (user_login_stops_at_expiration _ password _ _ _ _ _ _ Hfetch Hlock Hexp).
    - rewrite (expiration_keeps_grants _ _ _ _ Hexp), (lockout_keeps_grants _ _ _ _ Hlock).
      exact (fetch_keeps_grants _ _ _ _ Hfetch). }
  split; [|split].
  - intros fields Hattrs Habsent. apply Hfalsy.
    unfold account_expiration. rewrite Hattrs.
    destruct fields; [reflexivity|]. now rewrite Habsent.
  - exact Hfalsy.
  - intros text Htruthy Hfirst parsed. subst parsed.
    pose proof (login_check_expiration_text user text s2 Htruthy Hfirst) as Hrun.
    split; [|split].
    + intros Hnone. rewrite Hnone in Hrun.
      destruct (Hgrants _ _ Hrun) as [Hout Hg]. rewrite Hout. auto.
    + intros d Hsome Hnaive Hbefore. rewrite Hsome in Hrun. cbn zeta in Hrun.
      rewrite Hnaive in Hrun.
      replace (wall_clock d <? time_at world (clock_reads s2)) with true in Hrun by lia.
      destruct (Hgrants _ _ Hrun) as [Hout Hg]. rewrite Hout. auto.
    + intros d Hsome Hnaive Hafter. rewrite Hsome in Hrun. cbn zeta in Hrun.
      rewrite Hnaive in Hrun.
      replace (wall_clock d <? time_at world (clock_reads s2)) with false in Hrun by lia.
      exact Hrun.
Qed.

Lemma mandatory_action_other (reason : string) :
  ~ In reason ["update_user_locale"; "CONFIGURE_TOTP"; "VERIFY_EMAIL";
               "UPDATE_PASSWORD"; "UPDATE_PROFILE"] ->
  mandatory_action reason
  = MandatoryActionException
      ("This user cannot log in until the required action is resolved: "
       +:+ reason +:+ ".").
Proof.
  intros Hother. unfold mandatory_action. cbn [assoc].
  repeat match goal with
  | |- context [String.eqb reason ?known] =>
      destruct (String.eqb_spec reason known) as [Heq|_];
        [exfalso; apply Hother; rewrite Heq; cbn; tauto|]
  end.
  reflexivity.
Qed.

(** C4. When the checks have passed and the grant request is answered
    with status 400 while the user record fetched at the start lists
    required actions, [user_login] raises the exception mapped from the
    first of them: the five known actions map to their own exception, any
    other action to [MandatoryActionException] with a detail that names
    it. *)
Theorem user_login_mandatory_action (username password : string)
    (s s1 s2 s3 s4 : State) (user : KeycloakUser) (response : Response)
    (reason : string) (rest : list string) :
  login_fetch_user world lib self recursion_limit username s = (Ok user, s1) ->
  login_check_lockout world lib self recursion_limit user s1 = (Ok tt, s2) ->
  login_check_expiration world lib user s2 = (Ok tt, s3) ->
  login_check_sessions world lib self recursion_limit user s3 = (Ok tt, s4) ->
  respond world (length (sent s4)) (password_grant self username password)
    = Ok response ->
  status_code response = 400 ->
  requiredActions user = reason :: rest ->
  fst (user_login world lib self recursion_limit username password s)
    = Raise (mandatory_action reason) /\
  mandatory_action "update_user_locale" = UpdateUserLocaleException /\
  mandatory_action "CONFIGURE_TOTP" = ConfigureTOTPException /\
  mandatory_action "VERIFY_EMAIL" = VerifyEmailException /\
  mandatory_action "UPDATE_PASSWORD" = UpdatePasswordException /\
  mandatory_action "UPDATE_PROFILE" = UpdateProfileException /\
  (~ In reason ["update_user_locale"; "CONFIGURE_TOTP"; "VERIFY_EMAIL";
                "UPDATE_PASSWORD"; "UPDATE_PROFILE"] ->
   mandatory_action reason
   = MandatoryActionException
       ("This user cannot log in until the required action is resolved: "
        +:+ reason +:+ ".")).
Proof.
  intros Hfetch Hlock Hexp Hsess Hresp Hstatus Hactions.
  rewrite (user_login_reaches_grant _ password _ _ _ _ _ _ Hfetch Hlock Hexp Hsess).
  rewrite Hresp. cbn [fst]. unfold login_result. rewrite Hstatus, Hactions.
  cbn [Z.eqb Pos.eqb].
  repeat split; try reflexivity. apply mandatory_action_other.
Qed.

End Login.

(** ** Sample runs *)

Example run_locked_and_expired :
  fst (user_login Mock.locked_and_expired Mock.lib Mock.config 10 "carol" "pw" Mock.start)
  = Raise (HTTPException 403
      "The user is temporarily disabled due to too many failed login attempts.").
Proof. vm_compute. reflexivity. Qed.

Example run_expired_bob :
  fst (user_login Mock.expired_bob Mock.lib Mock.config 10 "bob" "pw" Mock.start)
  = Raise (HTTPException 403 "The account has expired. Please contact the administrator.").
Proof. vm_compute. reflexivity. Qed.

Example run_two_sessions :
  fst (user_login Mock.two_sessions_cap_two Mock.lib Mock.config 10 "erin" "pw" Mock.start)
  = Raise (HTTPException 403
      "Concurrent session limit reached. Please close a session and try again.").
Proof. vm_compute. reflexivity. Qed.

Example run_update_password :
  fst (user_login Mock.update_password_pending Mock.lib Mock.config 10 "alice" "pw" Mock.start)
  = Raise UpdatePasswordException.
Proof. vm_compute. reflexivity. Qed.

(** ** Re-acquiring the admin token *)

Section AdminToken.

Context (world : World) (lib : Library) (self : Config).

Lemma token_is_valid_run (token : json) (s : State) :
  token_is_valid world lib self token None s
  = (match jwt_decode lib (time_at world (clock_reads s)) token (public_key self)
             plain_options None with
     | Ok _ => Ok true
     | Raise e => if is_jwt_failure e then Ok false else Raise e
     end,
     mkState (_admin_token s) (S (clock_reads s)) (sent s)).
Proof.
  unfold token_is_valid, try_except, bind, ret, _decode_token, bind, utcnow, lift.
  change (mkJwtOptions true (bool_decide _) true) with plain_options.
  destruct (jwt_decode lib _ token (public_key self) plain_options None) as [c|e];
    [reflexivity|].
  destruct (is_jwt_failure e); reflexivity.
Qed.



(** One level of the getter. *)
Lemma admin_token_step (depth : nat) (s : State) :
  admin_token world lib self (S depth) s
  = let s0 := mkState (_admin_token s) (S (clock_reads s)) (sent s) in
    match jwt_decode lib (time_at world (clock_reads s)) (_admin_token s)
            (public_key self) plain_options None with
    | Ok _ => (Ok (_admin_token s), s0)
    | Raise e =>
        if is_jwt_failure e then
          match _get_admin_token world lib self s0 with
          | (Ok _, sb) => admin_token world lib self depth sb
          | (Raise e', sb) => (Raise e', sb)
          end
        else (Raise e, s0)
    end.
Proof.
  cbn [admin_token]. unfold bind at 1. unfold get__admin_token at 1.
  unfold bind at 1. rewrite token_is_valid_run.
  destruct (jwt_decode lib _ (_admin_token s) (public_key self) plain_options None)
    as [c|e]; [reflexivity|].
  destruct (is_jwt_failure e); [|reflexivity].
  unfold bind. reflexivity.
Qed.


End AdminToken.

(** ** What the result step does with the remaining statuses *)

(** Past the 401 test and the 400 test on required actions, the status is
    not looked at again: any response whose body is a JSON object yields a
    token dictionary. *)
Lemma login_result_ignores_status (user : KeycloakUser) (response : Response)
    (fields : list (string * json)) :
  status_code response <> 401 ->
  (status_code response = 400 -> requiredActions user = []) ->
  json_body response = Some (JObj fields) ->
  login_result user response
  = Ok (JObj [("access_token", default JNull (assoc "access_token" fields));
              ("refresh_token", default JNull (assoc "refresh_token" fields));
              ("id_token", default JNull (assoc "id_token" fields));
              ("expires_in", default JNull (assoc "expires_in" fields));
              ("refresh_expires_in", default JNull (assoc "refresh_expires_in" fields))]).
Proof.
  intros H401 H400 Hbody. unfold login_result.
  destruct (Z.eqb_spec (status_code response) 401) as [|_]; [contradiction|].
  assert (Htokens : login_tokens response
    = Ok (JObj [("access_token", default JNull (assoc "access_token" fields));
                ("refresh_token", default JNull (assoc "refresh_token" fields));
                ("id_token", default JNull (assoc "id_token" fields));
                ("expires_in", default JNull (assoc "expires_in" fields));
                ("refresh_expires_in", default JNull (assoc "refresh_expires_in" fields))])).
  { unfold login_tokens, response_json. now rewrite Hbody. }
  destruct (Z.eqb_spec (status_code response) 400) as [Heq|_]; [|exact Htokens].
  now rewrite (H400 Heq).
Qed.

(** A body that is not JSON is reported with the status, without the body. *)
Lemma login_result_unparsed_body (user : KeycloakUser) (response : Response) :
  status_code response <> 401 ->
  (status_code response = 400 -> requiredActions user = []) ->
  json_body response = None ->
  login_result user response
  = Raise (KeycloakError (status_code response)
             (RText "Failed to parse token response.")).
Proof.
  intros H401 H400 Hbody. unfold login_result.
  destruct (Z.eqb_spec (status_code response) 401) as [|_]; [contradiction|].
  assert (Htokens : login_tokens response
    = Raise (KeycloakError (status_code response)
               (RText "Failed to parse token response."))).
  { unfold login_tokens, response_json. now rewrite Hbody. }
  destruct (Z.eqb_spec (status_code response) 400) as [Heq|_]; [|exact Htokens].
  now rewrite (H400 Heq).
Qed.

(** ** When the lockout check fires *)

(** An event list finds the lockout when an event carries the error
    [user_temporarily_disabled] and the events before it are objects. *)
Lemma scan_events_finds (before after : list json) (fields : list (string * json)) :
  Forall (fun event => exists fs, event = JObj fs) before ->
  assoc "error" fields = Some (JStr "user_temporarily_disabled") ->
  scan_events (before ++ JObj fields :: after) = Ok true.
Proof.
  intros Hbefore Herror. induction before as [|event rest IH]; cbn.
  - now rewrite Herror.
  - apply Forall_cons_1 in Hbefore as [[fs ->] Hrest]. cbn.
    destruct (py_eq_str (default JNull (assoc "error" fs)) "user_temporarily_disabled");
      [reflexivity|now apply IH].
Qed.

(** ** The claims on concrete runs *)

(** C3. The token endpoint answers the grant with status 500 and a JSON
    error body: [user_login] does not raise, it returns a token dictionary
    whose five fields are all [None]. *)
Theorem user_login_returns_on_server_error :
  fst (user_login Mock.server_error Mock.lib Mock.config 10 "frank" "pw" Mock.start)
  = Ok (JObj [("access_token", JNull); ("refresh_token", JNull);
              ("id_token", JNull); ("expires_in", JNull);
              ("refresh_expires_in", JNull)]).
Proof. vm_compute. reflexivity. Qed.

(** C5 fails as stated: dave's [account_expiration] attribute is present,
    its text does not parse as a date, and yet the expiration check passes
    without the configuration failure, and the login goes on to return
    the tokens of the grant. *)
Lemma empty_expiration_not_rejected :
  let user := mkKeycloakUser "u-dave" []
                (Mock.expires (JStr EmptyString)) in
  assoc "account_expiration" [("account_expiration", JStr EmptyString)]
    = Some (JStr EmptyString) /\
  fromisoformat Mock.lib (str_rstrip "Z"%char EmptyString) = None /\
  login_check_expiration Mock.empty_expiration Mock.lib user Mock.start
    = (Ok tt, Mock.start) /\
  fst (user_login Mock.empty_expiration Mock.lib Mock.config 10 "dave" "pw" Mock.start)
    = Ok (JObj [("access_token", JStr "dave-token"); ("refresh_token", JNull);
                ("id_token", JNull); ("expires_in", JNull);
                ("refresh_expires_in", JNull)]).
Proof. vm_compute. repeat split; reflexivity. Qed.


(** The first token of that endpoint is accepted by the setter's check,
    at the second reading of the clock, and reported expired at the check
    that follows. *)
Example short_lived_expires_at_once :
  ~ outlives_next_reading Mock.short_lived Mock.lib Mock.config 1.
Proof.
  intros Houtlives.
  discriminate (Houtlives (JStr "t1") (Mock.admin_claims 1) ExpiredSignatureError
                  eq_refl eq_refl).
Qed.

(** C1 fails as stated on a token without roles: the token decodes and
    parses, the role [admin] is required and the token does not carry it,
    yet the guard does not answer with the 403 failure naming [admin]; it
    passes on the [KeycloakError] 404 raised by the reading of the user's
    roles. *)
Lemma get_current_user_without_roles :
  let claims := [("sub", JStr "nobody"); ("exp", JNum 4102444800)] in
  let out := get_current_user Mock.renewing Mock.lib Mock.config
               (Some ["admin"]) None "nobody-token" Mock.start in
  fst (_decode_token Mock.renewing Mock.lib Mock.config (JStr "nobody-token") None
         (Some "account") Mock.start) = Ok claims /\
  assoc "roles" claims = None /\
  fst out = Raise (KeycloakError 404
                     (RText "The access token did not contain any roles")) /\
  fst out <> Raise (HTTPException 403 (role_required_detail "admin")).
Proof. vm_compute. repeat split; try reflexivity. discriminate. Qed.

Lemma get_current_user_required_roles_witness :
  get_current_user Mock.renewing Mock.lib Mock.config
    (Some ["reader"; "admin"; "writer"]) None "alice-token" Mock.start
  = (Raise (HTTPException 403 (role_required_detail "admin")),
     mkState (JStr "admin-token") 1 []).
Proof.
  refine (proj2 (proj1 (get_current_user_required_roles Mock.renewing Mock.lib
                          Mock.config
                          (Some ["reader"; "admin"; "writer"]) None "alice-token"
                          Mock.start (mkState (JStr "admin-token") 1 [])
                          [("sub", JStr "alice"); ("exp", JNum 4102444800);
                           ("roles", JArr [JStr "reader"; JStr "writer"])]
                          (mkOIDCUser "alice" (Ok ["reader"; "writer"]) ∅) _ _)
                   ["reader"; "writer"] eq_refl)
                ["reader"] "admin" ["writer"] _ _ _).
  - vm_compute. reflexivity.
  - vm_compute. reflexivity.
  - reflexivity.
  - repeat constructor.
  - intros Hin. apply list_elem_of_In in Hin. cbn in Hin.
    destruct Hin as [H|[H|[]]]; discriminate H.
Defined.

Lemma token_is_valid_iff_decodes_witness :
  fst (token_is_valid Mock.renewing Mock.lib Mock.config (JStr "alice-token") None Mock.start)
  = Ok true.
Proof.
  apply (proj1 (proj2 (token_is_valid_iff_decodes Mock.renewing Mock.lib Mock.config
                         (JStr "alice-token") None Mock.start))).
  eexists. vm_compute. reflexivity.
Defined.

Lemma user_login_check_order_witness :
  let carol := mkKeycloakUser "u-carol" []
                 (Mock.expires (JArr [JStr "2020-01-01T00:00:00Z"])) in
  fst (login_check_expiration Mock.locked_and_expired Mock.lib carol Mock.start)
    = Raise (HTTPException 403
        "The account has expired. Please contact the administrator.") /\
  user_login Mock.locked_and_expired Mock.lib Mock.config 10 "carol" "pw" Mock.start
    = (Raise (HTTPException 403
         "The user is temporarily disabled due to too many failed login attempts."),
       snd (user_login Mock.locked_and_expired Mock.lib Mock.config 10 "carol" "pw"
              Mock.start)).
Proof.
  split; [vm_compute; reflexivity|].
  destruct (user_login_check_order Mock.locked_and_expired Mock.lib Mock.config 10
              "carol" "pw" Mock.start) as [Hlock _].
  edestruct Hlock as [Hout _].
  - vm_compute. reflexivity.
  - vm_compute. reflexivity.
  - reflexivity.
  - rewrite Hout. reflexivity.
Defined.

Lemma user_login_mandatory_action_witness :
  fst (user_login Mock.update_password_pending Mock.lib Mock.config 10
         "alice" "pw" Mock.start)
  = Raise UpdatePasswordException.
Proof.
  edestruct (user_login_mandatory_action Mock.update_password_pending Mock.lib
               Mock.config 10 "alice" "pw" Mock.start) as [Hout _].
  - vm_compute. reflexivity.
  - vm_compute. reflexivity.
  - vm_compute. reflexivity.
  - vm_compute. reflexivity.
  - vm_compute. reflexivity.
  - reflexivity.
  - vm_compute. reflexivity.
  - exact Hout.
Defined.

Lemma user_login_expiration_check_witness :
  fst (user_login Mock.expired_bob Mock.lib Mock.config 10 "bob" "pw" Mock.start)
  = Raise (HTTPException 403
      "The account has expired. Please contact the administrator.").
Proof.
  edestruct (user_login_expiration_check Mock.expired_bob Mock.lib Mock.config 10
               "bob" "pw" Mock.start) as (_ & _ & Htext).
  - vm_compute. reflexivity.
  - vm_compute. reflexivity.
  - edestruct (Htext "2020-01-01T00:00:00Z") as (_ & Hexpired & _).
    + reflexivity.
    + reflexivity.
    + edestruct (Hexpired (mkDatetime 1577836800 None)) as [Hout _].
      * reflexivity.
      * reflexivity.
      * vm_compute. reflexivity.
      * rewrite Hout. reflexivity.
Defined.

Lemma user_login_session_cap_witness :
  fst (user_login Mock.two_sessions_cap_two Mock.lib Mock.config 10
         "erin" "pw" Mock.start)
  = Raise (HTTPException 403
      "Concurrent session limit reached. Please close a session and try again.").
Proof.
  edestruct (user_login_session_cap Mock.two_sessions_cap_two Mock.lib Mock.config 10
               "erin" "pw" Mock.start) as [Hreached _].
  - vm_compute. reflexivity.
  - vm_compute. reflexivity.
  - vm_compute. reflexivity.
  - vm_compute. reflexivity.
  - vm_compute. reflexivity.
  - edestruct (Hreached 2) as [Hout _].
    + reflexivity.
    + reflexivity.
    + discriminate.
    + rewrite Hout. reflexivity.
Defined.




Lemma get_user_validates_query_witness :
  get_user Mock.renewing Mock.lib Mock.config 10 None "username=alice&role=admin"
    Mock.start
  = (Raise (ValueError "Invalid query field or value: role=admin"), Mock.start).
Proof.
  destruct (get_user_validates_query Mock.renewing Mock.lib Mock.config 10
              "username=alice&role=admin" Mock.start) as (_ & Hbad & _).
  apply (Hbad ["username=alice"] "role=admin" []).
  - reflexivity.
  - constructor; [|constructor]. apply pair_rejected_spec. reflexivity.
  - intros Hok. apply pair_rejected_spec in Hok. discriminate Hok.
Defined.

Lemma result_or_error_status_range_witness :
  fst (result_or_error (Model := Empty_set) (A := unit) None false
         (ret (RetResponse (mkResponse 299 "gone" None))) Mock.start)
  = Raise (KeycloakError 299 (RText "gone")).
Proof.
  destruct (result_or_error_status_range (Model := Empty_set) (A := unit) None false
              (ret (RetResponse (mkResponse 299 "gone" None)))
              Mock.start Mock.start (mkResponse 299 "gone" None) eq_refl)
    as (_ & _ & Hhigh & _).
  apply Hhigh. cbn. lia.
Defined.

(** ** Searching the group tree *)

Lemma get_subgroups_unfold (group : KeycloakGroup) (path : string) :
  get_subgroups group path
  = match subGroups group with
    | None => Raise TypeError
    | Some subs => search_children subs subs path
    end.
Proof.
  destruct group as [i n p [subs|]]; [|reflexivity].
  cbn [get_subgroups subGroups].
  set (below := fix below (l : list KeycloakGroup) : result (option KeycloakGroup) :=
         match l with
         | [] => Ok None
         | subgroup :: rest =>
             match get_subgroups subgroup path with
             | Raise e => Raise e
             | Ok (Some subgroups) => Ok (Some subgroups)
             | Ok None => below rest
             end
         end).
  assert (Hbelow : forall l, below l = search_below l path).
  { induction l as [|x l IH]; cbn; [reflexivity|]. now rewrite IH. }
  match goal with
  | |- ?children subs = _ =>
      assert (Hchildren : forall l, children l = search_children subs l path)
  end.
  { induction l as [|x l IH]; cbn; [reflexivity|].
    rewrite IH. now rewrite (Hbelow subs). }
  apply Hchildren.
Qed.

(** Induction on a group, with the property granted for its subgroups. *)
Lemma KeycloakGroup_nested_ind (P : KeycloakGroup -> Prop) :
  (forall i n p, P (mkKeycloakGroup i n p None)) ->
  (forall i n p subs, Forall P subs -> P (mkKeycloakGroup i n p (Some subs))) ->
  forall g, P g.
Proof.
  intros Hleaf Hstep. fix IH 1. intros [i n p [subs|]]; [|apply Hleaf].
  apply Hstep.
  induction subs as [|x subs IHsubs]; constructor; [apply IH|exact IHsubs].
Qed.

Lemma path_is_true (g : KeycloakGroup) (path : string) :
  path_is g path = true <-> group_path g = Some path.
Proof.
  unfold path_is. destruct (group_path g) as [p|].
  - rewrite String.eqb_eq. split; congruence.
  - split; discriminate.
Qed.

Lemma path_is_false (g : KeycloakGroup) (path : string) :
  path_is g path = false <-> group_path g <> Some path.
Proof.
  rewrite <- path_is_true. destruct (path_is g path); split; congruence.
Qed.

Lemma descendant_has_subgroups (d g : KeycloakGroup) :
  descendant d g -> nonempty (subGroups g) = true.
Proof.
  intros Hd. unfold listed in Hd.
  destruct Hd as [g sub Hin|g sub d Hin _]; unfold listed in Hin;
    destruct (subGroups g) as [[|x l]|]; (reflexivity || destruct Hin).
Qed.

Lemma search_below_found (l : list KeycloakGroup) (path : string) (g : KeycloakGroup) :
  search_below l path = Ok (Some g) ->
  exists sub, In sub l /\ get_subgroups sub path = Ok (Some g).
Proof.
  induction l as [|x l IH]; cbn; [discriminate|].
  destruct (get_subgroups x path) as [[r|]|e] eqn:Hx.
  - intros [= <-]. exists x. auto.
  - intros Hrest. destruct (IH Hrest) as (sub & Hin & Hsub). exists sub. auto.
  - discriminate.
Qed.

Lemma search_below_raises (l : list KeycloakGroup) (path : string) (e : exn) :
  search_below l path = Raise e ->
  exists sub, In sub l /\ get_subgroups sub path = Raise e.
Proof.
  induction l as [|x l IH]; cbn; [discriminate|].
  destruct (get_subgroups x path) as [[r|]|e'] eqn:Hx.
  - discriminate.
  - intros Hrest. destruct (IH Hrest) as (sub & Hin & Hsub). exists sub. auto.
  - intros [= <-]. exists x. auto.
Qed.

Lemma search_below_misses (l : list KeycloakGroup) (path : string) :
  search_below l path = Ok None ->
  forall sub, In sub l -> get_subgroups sub path = Ok None.
Proof.
  induction l as [|x l IH]; cbn; [intros _ sub []|].
  destruct (get_subgroups x path) as [[r|]|e'] eqn:Hx; try discriminate.
  intros Hrest sub [<- | Hin]; [exact Hx|now apply IH].
Qed.

Lemma search_children_found (subs l : list KeycloakGroup) (path : string)
    (g : KeycloakGroup) :
  search_children subs l path = Ok (Some g) ->
  (In g l /\ group_path g = Some path) \/ search_below subs path = Ok (Some g).
Proof.
  induction l as [|x l IH]; cbn; [discriminate|].
  destruct (path_is x path) eqn:Hpath.
  - intros [= <-]. left. split; [now left|]. now apply path_is_true.
  - destruct (nonempty (subGroups x)).
    + destruct (search_below subs path) as [[r|]|e] eqn:Hbelow.
      * intros [= <-]. right. reflexivity.
      * intros Hrest. destruct (IH Hrest) as [[Hin Hp]|Hb]; [left; auto|discriminate].
      * discriminate.
    + intros Hrest. destruct (IH Hrest) as [[Hin Hp]|Hb]; [left; auto|right; auto].
Qed.

Lemma search_children_raises (subs l : list KeycloakGroup) (path : string) (e : exn) :
  search_children subs l path = Raise e -> search_below subs path = Raise e.
Proof.
  induction l as [|x l IH]; cbn; [discriminate|].
  destruct (path_is x path); [discriminate|].
  destruct (nonempty (subGroups x)); [|exact IH].
  destruct (search_below subs path) as [[r|]|e']; [discriminate|exact IH|auto].
Qed.

Lemma search_children_misses (subs l : list KeycloakGroup) (path : string) :
  search_children subs l path = Ok None ->
  forall x, In x l ->
    group_path x <> Some path /\
    (nonempty (subGroups x) = true -> search_below subs path = Ok None).
Proof.
  induction l as [|y l IH]; cbn; [intros _ x []|].
  destruct (path_is y path) eqn:Hpath; [discriminate|].
  apply path_is_false in Hpath.
  destruct (nonempty (subGroups y)) eqn:Hy.
  - destruct (search_below subs path) as [[r|]|e']; try discriminate.
    intros Hrest x [<- | Hin]; [auto|]. now apply IH.
  - intros Hrest x [<- | Hin]; [|now apply IH].
    split; [exact Hpath|]. congruence.
Qed.

Lemma get_subgroups_sound (group : KeycloakGroup) (path : string) :
  forall g, get_subgroups group path = Ok (Some g) ->
            group_path g = Some path /\ descendant g group.
Proof.
  induction group as [i n p|i n p subs IH] using KeycloakGroup_nested_ind;
    intros g; rewrite get_subgroups_unfold; cbn [subGroups]; [discriminate|].
  intros Hfound.
  destruct (search_children_found _ _ _ _ Hfound) as [[Hin Hpath]|Hbelow].
  - split; [exact Hpath|]. now apply descendant_child.
  - destruct (search_below_found _ _ _ Hbelow) as (sub & Hin & Hsub).
    rewrite Forall_forall in IH.
    destruct (IH sub (proj2 (list_elem_of_In _ _) Hin) g Hsub) as [Hpath Hdesc].
    split; [exact Hpath|]. now apply descendant_deeper with sub.
Qed.

(** [get_subgroups] raises nothing but the [TypeError] of a group, the
    given one or one below it, that holds no list of subgroups. *)
Lemma get_subgroups_raises (group : KeycloakGroup) (path : string) :
  forall e, get_subgroups group path = Raise e ->
    e = TypeError /\
    exists d, (d = group \/ descendant d group) /\ subGroups d = None.
Proof.
  induction group as [i n p|i n p subs IH] using KeycloakGroup_nested_ind;
    intros e; rewrite get_subgroups_unfold; cbn [subGroups].
  - intros [= <-]. split; [reflexivity|]. eexists. split; [now left|reflexivity].
  - intros Hraise. apply search_children_raises in Hraise.
    destruct (search_below_raises _ _ _ Hraise) as (sub & Hin & Hsub).
    rewrite Forall_forall in IH.
    destruct (IH sub (proj2 (list_elem_of_In _ _) Hin) e Hsub)
      as [He (d & Hwhere & Hnone)].
    split; [exact He|]. exists d. split; [|exact Hnone]. right.
    destruct Hwhere as [-> | Hdesc].
    + now apply descendant_child.
    + now apply descendant_deeper with sub.
Qed.

(** [get_subgroups] does not answer [None] when a group below has the
    path. *)
Lemma get_subgroups_misses (group : KeycloakGroup) (path : string) :
  get_subgroups group path = Ok None ->
  forall d, descendant d group -> group_path d <> Some path.
Proof.
  intros Hnone d Hdesc. revert Hnone.
  induction Hdesc as [g sub Hin|g sub d Hin Hdesc IH];
    rewrite get_subgroups_unfold; unfold listed in Hin;
    destruct (subGroups g) as [subs|]; try discriminate; intros Hnone.
  - now apply (search_children_misses _ _ _ Hnone sub Hin).
  - apply IH.
    apply (search_below_misses subs path); [|exact Hin].
    apply (search_children_misses _ _ _ Hnone sub Hin).
    now apply descendant_has_subgroups with d.
Qed.

Lemma all_listed_lists (g : KeycloakGroup) :
  all_listed g = true -> lists_all_subgroups g.
Proof.
  induction g as [i n p|i n p subs IH] using KeycloakGroup_nested_ind;
    cbn [all_listed]; [discriminate|].
  intros Hall. split; [discriminate|].
  rewrite forallb_forall in Hall. rewrite Forall_forall in IH.
  intros d Hdesc.
  remember (mkKeycloakGroup i n p (Some subs)) as g eqn:Hg.
  destruct Hdesc as [g sub Hin|g sub d Hin Hdesc]; subst g; cbn in Hin.
  - exact (proj1 (IH sub (proj2 (list_elem_of_In _ _) Hin) (Hall sub Hin))).
  - exact (proj2 (IH sub (proj2 (list_elem_of_In _ _) Hin) (Hall sub Hin)) d Hdesc).
Qed.

(** X1. [get_subgroups] answers with a group only when that group lies
    below the given one and has the path asked for, and with [None] only
    when no group below has that path.  It raises nothing but the
    [TypeError] of walking the subgroups of a group that holds none, the
    given group or one below it, and it does raise when the given group
    holds none.  When the group and every group below it hold a list of
    subgroups, it returns, and [None] exactly when no group below has the
    path. *)
Theorem get_subgroups_finds_path (group : KeycloakGroup) (path : string) :
  (forall g, get_subgroups group path = Ok (Some g) ->
             group_path g = Some path /\ descendant g group) /\
  (get_subgroups group path = Ok None ->
   forall d, descendant d group -> group_path d <> Some path) /\
  (forall e, get_subgroups group path = Raise e ->
     e = TypeError /\
     exists d, (d = group \/ descendant d group) /\ subGroups d = None) /\
  (subGroups group = None -> get_subgroups group path = Raise TypeError) /\
  (lists_all_subgroups group ->
   exists found,
     get_subgroups group path = Ok found /\
     (found = None <-> forall d, descendant d group -> group_path d <> Some path)).
Proof.
  split; [apply get_subgroups_sound|].
  split; [apply get_subgroups_misses|].
  split; [apply get_subgroups_raises|].
  split.
  - intros Hnone. rewrite get_subgroups_unfold, Hnone. reflexivity.
  - intros [Htop Hall].
    destruct (get_subgroups group path) as [found|e] eqn:Hrun.
    + exists found. split; [reflexivity|]. split.
      * intros ->. now apply get_subgroups_misses.
      * intros Hno. destruct found as [g|]; [|reflexivity].
        destruct (get_subgroups_sound _ _ _ Hrun) as [Hpath Hdesc].
        exfalso. exact (Hno g Hdesc Hpath).
    + destruct (get_subgroups_raises _ _ _ Hrun) as [_ (d & [-> | Hdesc] & Hd)].
      * contradiction.
      * exfalso. exact (Hall d Hdesc Hd).
Qed.

Lemma group_by_path_below_found (subs : list KeycloakGroup) (path : string)
    (g : KeycloakGroup) :
  group_by_path_below subs path = Ok (Some g) ->
  group_path g = Some path /\
  (In g subs \/ exists sub, In sub subs /\ descendant g sub).
Proof.
  induction subs as [|x subs IH]; cbn; [discriminate|].
  destruct (path_is x path) eqn:Hx.
  - intros [= <-]. apply path_is_true in Hx. auto.
  - destruct (get_subgroups x path) as [[r|]|e] eqn:Hsearch.
    + intros [= <-]. destruct (get_subgroups_sound _ _ _ Hsearch) as [Hpath Hdesc].
      split; [exact Hpath|]. right. exists x. auto.
    + intros Hrest. destruct (IH Hrest) as [Hpath [Hin|(sub & Hin & Hdesc)]].
      * auto.
      * split; [exact Hpath|]. right. exists sub. auto.
    + discriminate.
Qed.

Lemma group_by_path_below_raises (subs : list KeycloakGroup) (path : string)
    (e : exn) :
  group_by_path_below subs path = Raise e ->
  e = TypeError /\
  exists sub d, In sub subs /\ (d = sub \/ descendant d sub) /\ subGroups d = None.
Proof.
  induction subs as [|x subs IH]; cbn; [discriminate|].
  destruct (path_is x path); [discriminate|].
  destruct (get_subgroups x path) as [[r|]|e'] eqn:Hsearch.
  - discriminate.
  - intros Hrest. destruct (IH Hrest) as [He (sub & d & Hin & Hd)].
    split; [exact He|]. exists sub, d. auto.
  - intros [= <-].
    destruct (get_subgroups_raises _ _ _ Hsearch) as [He (d & Hwhere & Hnone)].
    split; [exact He|]. exists x, d. auto.
Qed.

Lemma group_by_path_below_misses (subs : list KeycloakGroup) (path : string) :
  group_by_path_below subs path = Ok None ->
  forall d, In d subs \/ (exists sub, In sub subs /\ descendant d sub) ->
            group_path d <> Some path.
Proof.
  induction subs as [|x subs IH]; cbn.
  - intros _ d [[]|(sub & [] & _)].
  - destruct (path_is x path) eqn:Hx; [discriminate|].
    apply path_is_false in Hx.
    destruct (get_subgroups x path) as [[r|]|e] eqn:Hsearch; try discriminate.
    intros Hrest d [[<- | Hin]|(sub & [<- | Hin] & Hdesc)].
    + exact Hx.
    + apply IH; auto.
    + now apply (get_subgroups_misses _ _ Hsearch).
    + apply IH; [exact Hrest|]. right. exists sub. auto.
Qed.

Lemma searched_cons (search : bool) (d x : KeycloakGroup)
    (groups : list KeycloakGroup) :
  searched search d groups -> searched search d (x :: groups).
Proof.
  unfold searched, in_forest. destruct search; [|now right].
  intros [Hin|(top & Hin & Hdesc)]; [left; now right|].
  right. exists top. split; [now right|exact Hdesc].
Qed.

Lemma group_by_path_loop_found (groups : list KeycloakGroup) (path : string)
    (search : bool) (g : KeycloakGroup) :
  group_by_path_loop groups path search = Ok (Some g) ->
  group_path g = Some path /\ searched search g groups.
Proof.
  induction groups as [|x groups IH]; cbn; [discriminate|].
  assert (Hlift : group_by_path_loop groups path search = Ok (Some g) ->
            group_path g = Some path /\ searched search g (x :: groups)).
  { intros Hrest. destruct (IH Hrest) as [Hpath Hwhere]. split; [exact Hpath|].
    now apply searched_cons. }
  destruct (path_is x path) eqn:Hx.
  - intros [= <-]. apply path_is_true in Hx. split; [exact Hx|].
    unfold searched, in_forest. destruct search; [left|]; now left.
  - destruct search; cbn [andb]; [|exact Hlift].
    destruct (nonempty (subGroups x)); [|exact Hlift].
    destruct (group_by_path_below (listed x) path) as [[r|]|e] eqn:Hbelow;
      [|exact Hlift|discriminate].
    intros [= <-]. destruct (group_by_path_below_found _ _ _ Hbelow) as [Hpath Hwhere].
    split; [exact Hpath|]. right. exists x. split; [now left|].
    destruct Hwhere as [Hin|(sub & Hin & Hdesc)].
    + now apply descendant_child.
    + now apply descendant_deeper with sub.
Qed.

Lemma group_by_path_loop_raises (groups : list KeycloakGroup) (path : string)
    (search : bool) (e : exn) :
  group_by_path_loop groups path search = Raise e ->
  e = TypeError /\ search = true /\
  exists top d, In top groups /\ descendant d top /\ subGroups d = None.
Proof.
  induction groups as [|x groups IH]; cbn; [discriminate|].
  assert (Hlift : group_by_path_loop groups path search = Raise e ->
            e = TypeError /\ search = true /\
            exists top d, In top (x :: groups) /\ descendant d top /\
                          subGroups d = None).
  { intros Hrest. destruct (IH Hrest) as (He & Hs & top & d & Hin & Hd).
    split; [exact He|]. split; [exact Hs|]. exists top, d. split; [now right|exact Hd]. }
  destruct (path_is x path); [discriminate|].
  destruct search; cbn [andb]; [|exact Hlift].
  destruct (nonempty (subGroups x)); [|exact Hlift].
  destruct (group_by_path_below (listed x) path) as [[r|]|e'] eqn:Hbelow;
    [discriminate|exact Hlift|].
  intros [= <-].
  destruct (group_by_path_below_raises _ _ _ Hbelow)
    as [He (sub & d & Hin & Hwhere & Hnone)].
  split; [exact He|]. split; [reflexivity|]. exists x, d.
  split; [now left|]. split; [|exact Hnone].
  destruct Hwhere as [-> | Hdesc].
  - now apply descendant_child.
  - now apply descendant_deeper with sub.
Qed.

Lemma group_by_path_loop_misses (groups : list KeycloakGroup) (path : string)
    (search : bool) :
  group_by_path_loop groups path search = Ok None ->
  forall d, searched search d groups -> group_path d <> Some path.
Proof.
  induction groups as [|x groups IH]; cbn.
  - intros _ d. unfold searched, in_forest.
    destruct search; [intros [[]|(g & [] & _)]|intros []].
  - destruct (path_is x path) eqn:Hx; [discriminate|].
    apply path_is_false in Hx.
    intros Hrun d Hd.
    assert (Hhere : d = x \/ searched search d groups \/
                    (search = true /\ descendant d x)).
    { unfold searched, in_forest in *. destruct search.
      - destruct Hd as [[<- | Hin]|(top & [<- | Hin] & Hdesc)]; eauto 6.
      - destruct Hd as [<- | Hin]; auto. }
    destruct Hhere as [-> | [Hrest | [-> Hdesc]]]; [exact Hx| |].
    + apply IH; [|exact Hrest].
      destruct (search && nonempty (subGroups x)); [|exact Hrun].
      destruct (group_by_path_below (listed x) path) as [[r|]|e];
        [discriminate|exact Hrun|discriminate].
    + cbn [andb] in Hrun. rewrite (descendant_has_subgroups _ _ Hdesc) in Hrun.
      destruct (group_by_path_below (listed x) path) as [[r|]|e] eqn:Hbelow;
        try discriminate.
      apply (group_by_path_below_misses _ _ Hbelow).
      destruct Hdesc as [g sub Hin|g sub d Hin Hdeep]; [now left|].
      right. exists sub. auto.
Qed.

Section GroupLookup.

Context (world : World) (lib : Library) (self : Config) (recursion_limit : nat).
Context (KeycloakGroup_parse_obj : json -> option KeycloakGroup).

(** [get_group_by_path] once the base groups have been fetched. *)
Lemma get_group_by_path_run (path : string) (search_in_subgroups : bool)
    (s s1 : State) (groups : list KeycloakGroup) :
  get_all_groups world lib self recursion_limit KeycloakGroup_parse_obj s
    = (Ok (UList groups), s1) ->
  get_group_by_path world lib self recursion_limit KeycloakGroup_parse_obj
    path search_in_subgroups s
  = match group_by_path_loop groups path search_in_subgroups with
    | Ok found => (Ok (UValue found), s1)
    | Raise e => (Raise e, s1)
    end.
Proof.
  intros Hall. unfold get_group_by_path, result_or_error.
  destruct (group_by_path_loop groups path search_in_subgroups) as [found|e] eqn:Hloop.
  - rewrite (bind_ok _ _ s (RetValue found) s1); [reflexivity|].
    rewrite (bind_ok _ _ _ _ _ Hall). cbn [unwrapped_list].
    unfold bind, lift, ret. rewrite Hloop. reflexivity.
  - rewrite (bind_raise _ _ s e s1); [reflexivity|].
    rewrite (bind_ok _ _ _ _ _ Hall). cbn [unwrapped_list].
    unfold bind, lift, ret. rewrite Hloop. reflexivity.
Qed.

(** X2. When the base groups of the realm have been fetched,
    [get_group_by_path] sends no further request.  It returns a group only
    when that group has the path asked for and is a base group or, when
    subgroups are searched, lies below one, and [None] only when no such
    group has the path.  It raises nothing but the [TypeError] of
    [get_subgroups], and only when subgroups are searched and a group
    below a base group holds no list of subgroups.  When every group
    below a base group holds such a list, or subgroups are not searched,
    it returns, and [None] exactly when no group it looks at has the
    path. *)
Theorem get_group_by_path_finds (path : string) (search_in_subgroups : bool)
    (s s1 : State) (groups : list KeycloakGroup) :
  get_all_groups world lib self recursion_limit KeycloakGroup_parse_obj s
    = (Ok (UList groups), s1) ->
  let out := get_group_by_path world lib self recursion_limit KeycloakGroup_parse_obj
               path search_in_subgroups s in
  snd out = s1 /\
  (forall g, fst out = Ok (UValue (Some g)) ->
     group_path g = Some path /\ searched search_in_subgroups g groups) /\
  (fst out = Ok (UValue None) ->
   forall d, searched search_in_subgroups d groups -> group_path d <> Some path) /\
  (forall e, fst out = Raise e ->
     e = TypeError /\ search_in_subgroups = true /\
     exists top d, In top groups /\ descendant d top /\ subGroups d = None) /\
  ((search_in_subgroups = true ->
    forall top d, In top groups -> descendant d top -> subGroups d <> None) ->
   exists found,
     fst out = Ok (UValue found) /\
     (found = None <->
      forall d, searched search_in_subgroups d groups -> group_path d <> Some path)).
Proof.
  intros Hall out.
  assert (Hrun : out =
    match group_by_path_loop groups path search_in_subgroups with
    | Ok found => (Ok (UValue found), s1)
    | Raise e => (Raise e, s1)
    end) by exact (get_group_by_path_run _ _ _ _ _ Hall).
  rewrite Hrun.
  destruct (group_by_path_loop groups path search_in_subgroups) as [found|e] eqn:Hloop;
    cbn [fst snd].
  - split; [reflexivity|]. split; [|split; [|split; [discriminate|]]].
    + intros g [= ->]. now apply group_by_path_loop_found.
    + intros [= ->]. now apply group_by_path_loop_misses.
    + intros _. exists found. split; [reflexivity|]. split.
      * intros ->. now apply group_by_path_loop_misses.
      * intros Hno. destruct found as [g|]; [|reflexivity].
        destruct (group_by_path_loop_found _ _ _ _ Hloop) as [Hpath Hwhere].
        exfalso. exact (Hno g Hwhere Hpath).
  - split; [reflexivity|]. split; [discriminate|]. split; [discriminate|]. split.
    + intros e' [= <-]. exact (group_by_path_loop_raises _ _ _ _ Hloop).
    + intros Hlisted.
      destruct (group_by_path_loop_raises _ _ _ _ Hloop)
        as (_ & Hsearch & top & d & Hin & Hdesc & Hnone).
      exfalso. exact (Hlisted Hsearch top d Hin Hdesc Hnone).
Qed.

End GroupLookup.

(** ** The cached admin token *)

Section AdminTokenCache.

Context (world : World) (lib : Library) (self : Config).

Lemma py_get_truthy (j : json) (k : string) (v : json) :
  py_get j k JNull = Ok v -> truthy v = true ->
  exists fields, j = JObj fields /\ assoc k fields = Some v.
Proof.
  destruct j; cbn; try discriminate. intros [= <-] Htruthy.
  exists fields. split; [reflexivity|].
  destruct (assoc k fields) as [v|]; [reflexivity|discriminate].
Qed.

(** The setter, step by step. *)
Lemma admin_token_setter_run (value : json) (s : State) :
  admin_token_setter world lib self value s
  = match jwt_decode lib (time_at world (clock_reads s)) value (public_key self)
            plain_options None with
    | Raise e => (Raise e, tick s)
    | Ok claims =>
        let resource_access := default JNull (assoc "resource_access" claims) in
        match py_get resource_access "realm-management" JNull with
        | Raise e => (Raise e, tick s)
        | Ok realm_management =>
            if truthy realm_management then
              match py_get resource_access "account" JNull with
              | Raise e => (Raise e, tick s)
              | Ok account =>
                  if truthy account
                  then (Ok tt, mkState value (S (clock_reads s)) (sent s))
                  else (Raise AssertionError, tick s)
              end
            else (Raise AssertionError, tick s)
        end
    end.
Proof.
  unfold admin_token_setter, _decode_token, bind, utcnow, lift, raise,
    set__admin_token, tick.
  change (mkJwtOptions true (bool_decide _) true) with plain_options.
  cbn [sent clock_reads _admin_token].
  destruct (jwt_decode lib _ value (public_key self) plain_options None) as [claims|e];
    [|reflexivity].
  cbn zeta.
  destruct (py_get (default JNull (assoc "resource_access" claims))
              "realm-management" JNull) as [rm|e]; [|reflexivity].
  destruct (truthy rm); cbn [negb]; [|reflexivity].
  destruct (py_get (default JNull (assoc "resource_access" claims)) "account" JNull)
    as [acc|e]; [|reflexivity].
  destruct (truthy acc); reflexivity.
Qed.

(** What the setter guarantees about the cache. *)
Lemma admin_token_setter_facts (value : json) (s s1 : State) (r : result unit) :
  admin_token_setter world lib self value s = (r, s1) ->
  sent s1 = sent s /\
  (r = Ok tt ->
     _admin_token s1 = value /\
     exists claims,
       jwt_decode lib (time_at world (clock_reads s)) value (public_key self)
         plain_options None = Ok claims /\
       carries_admin_roles claims) /\
  (forall e, r = Raise e -> _admin_token s1 = _admin_token s).
Proof.
  rewrite admin_token_setter_run.
  assert (Hfail : forall e, (Raise e, tick s) = (r, s1) ->
            sent s1 = sent s /\
            (r = Ok tt ->
               _admin_token s1 = value /\
               exists claims,
                 jwt_decode lib (time_at world (clock_reads s)) value (public_key self)
                   plain_options None = Ok claims /\
                 carries_admin_roles claims) /\
            (forall e, r = Raise e -> _admin_token s1 = _admin_token s)).
  { intros e [= <- <-]. split; [reflexivity|]. split; [discriminate|].
    intros ? _. reflexivity. }
  destruct (jwt_decode lib _ value (public_key self) plain_options None)
    as [claims|e] eqn:Hdecode; [|apply Hfail].
  cbn zeta.
  destruct (py_get (default JNull (assoc "resource_access" claims))
              "realm-management" JNull) as [rm|e] eqn:Hrm; [|apply Hfail].
  destruct (truthy rm) eqn:Hrmt; [|apply Hfail].
  destruct (py_get (default JNull (assoc "resource_access" claims)) "account" JNull)
    as [acc|e] eqn:Hacc; [|apply Hfail].
  destruct (truthy acc) eqn:Hacct; [|apply Hfail].
  intros [= <- <-]. split; [reflexivity|]. split; [|discriminate].
  intros _. split; [reflexivity|]. exists claims. split; [reflexivity|].
  destruct (py_get_truthy _ _ _ Hrm Hrmt) as (fields & Hra & Hrmf).
  destruct (py_get_truthy _ _ _ Hacc Hacct) as (fields' & Hra' & Haccf).
  rewrite Hra in Hra'. injection Hra' as <-.
  exists fields, rm, acc. repeat split; auto.
  destruct (assoc "resource_access" claims) as [ra|]; cbn in Hra; [now subst|discriminate].
Qed.

(** X3. The setter of the admin token stores a value only after the
    decoder has accepted it and its claims carry both the
    [realm-management] and the [account] entry of [resource_access]; when
    it raises, the cached token is the one it was; it sends nothing. *)
Theorem admin_token_setter_guards_cache (value : json) (s s1 : State)
    (r : result unit) :
  admin_token_setter world lib self value s = (r, s1) ->
  sent s1 = sent s /\
  (r = Ok tt ->
     _admin_token s1 = value /\
     exists claims,
       jwt_decode lib (time_at world (clock_reads s)) value (public_key self)
         plain_options None = Ok claims /\
       carries_admin_roles claims) /\
  (forall e, r = Raise e -> _admin_token s1 = _admin_token s).
Proof. apply admin_token_setter_facts. Qed.

(** [_get_admin_token], step by step. *)
Lemma _get_admin_token_run (s : State) :
  let grant := mkRequest POST (token_uri self)
                 [("Content-Type", HText "application/x-www-form-urlencoded")] []
                 (FormData [("client_id", admin_client_id self);
                            ("client_secret", admin_client_secret self);
                            ("grant_type", "client_credentials")]) in
  let s0 := mkState (_admin_token s) (clock_reads s) (sent s ++ [grant]) in
  _get_admin_token world lib self s
  = match respond world (length (sent s)) grant with
    | Raise e => (Raise e, s0)
    | Ok response =>
        match json_body response with
        | None => (Raise (KeycloakError (status_code response)
                            (RText (content response))), s0)
        | Some body =>
            match py_getitem body "access_token" with
            | Raise e =>
                if is_KeyError e then
                  (Raise (KeycloakError 403
                            (RTextJson "The response did not contain an access_token: "
                               body)), s0)
                else (Raise e, s0)
            | Ok access_token =>
                match admin_token_setter world lib self access_token s0 with
                | (Ok u, s1) => (Ok u, s1)
                | (Raise e, s1) =>
                    if is_JSONDecodeError e then
                      (Raise (KeycloakError (status_code response)
                                (RText (content response))), s1)
                    else if is_KeyError e then
                      (Raise (KeycloakError 403
                                (RTextJson "The response did not contain an access_token: "
                                   body)), s1)
                    else (Raise e, s1)
                end
            end
        end
    end.
Proof.
  intros grant s0. unfold _get_admin_token. fold grant.
  unfold bind at 1. rewrite send_run. fold s0.
  destruct (respond world (length (sent s)) grant) as [response|e]; [|reflexivity].
  unfold try_except, response_json.
  destruct (json_body response) as [body|] eqn:Hbody; [|reflexivity].
  unfold bind at 1. unfold lift at 1.
  unfold bind at 1. unfold lift at 1.
  destruct (py_getitem body "access_token") as [access_token|e] eqn:Hitem.
  - destruct (admin_token_setter world lib self access_token s0) as [[u|e] s1];
      [reflexivity|].
    destruct (is_JSONDecodeError e); cbn; [reflexivity|].
    destruct (is_KeyError e); reflexivity.
  - assert (Hnot : is_JSONDecodeError e = false).
    { destruct body; cbn in Hitem; try (injection Hitem as <-; reflexivity).
      destruct (assoc "access_token" fields); [discriminate|].
      injection Hitem as <-. reflexivity. }
    rewrite Hnot. cbn [orb].
    destruct (is_KeyError e); reflexivity.
Qed.

(** X5. How a re-acquisition fails on the response alone: a body that is
    not JSON is reported with the remote status and the text; a JSON
    object without [access_token] is reported as 403, whatever the remote
    status was; a failed request is passed on.  The request is logged and
    the cached token stays. *)
Theorem _get_admin_token_failures (s : State) :
  let out := _get_admin_token world lib self s in
  let answer := respond world (length (sent s)) (client_credentials_grant self) in
  let s0 := mkState (_admin_token s) (clock_reads s)
              (sent s ++ [client_credentials_grant self]) in
  (forall e, answer = Raise e -> out = (Raise e, s0)) /\
  (forall response,
     answer = Ok response -> json_body response = None ->
     out = (Raise (KeycloakError (status_code response) (RText (content response))),
            s0)) /\
  (forall response fields,
     answer = Ok response -> json_body response = Some (JObj fields) ->
     assoc "access_token" fields = None ->
     out = (Raise (KeycloakError 403
                     (RTextJson "The response did not contain an access_token: "
                        (JObj fields))), s0)).
Proof.
  intros out answer s0. subst out answer s0.
  pose proof (_get_admin_token_run s) as Hrun. cbn zeta in Hrun.
  unfold client_credentials_grant.
  split; [|split].
  - intros e He. rewrite Hrun, He. reflexivity.
  - intros response Hr Hbody. rewrite Hrun, Hr, Hbody. reflexivity.
  - intros response fields Hr Hbody Hmissing. rewrite Hrun, Hr, Hbody.
    cbn [py_getitem]. rewrite Hmissing. reflexivity.
Qed.

(** What a re-acquisition guarantees about the log and the cache. *)
Lemma _get_admin_token_facts (s s1 : State) (r : result unit) :
  _get_admin_token world lib self s = (r, s1) ->
  sent s1 = sent s ++ [client_credentials_grant self] /\
  (r = Ok tt ->
     exists response body claims,
       respond world (length (sent s)) (client_credentials_grant self) = Ok response /\
       json_body response = Some body /\
       py_getitem body "access_token" = Ok (_admin_token s1) /\
       jwt_decode lib (time_at world (clock_reads s)) (_admin_token s1)
         (public_key self) plain_options None = Ok claims /\
       carries_admin_roles claims) /\
  (forall e, r = Raise e -> _admin_token s1 = _admin_token s).
Proof.
  pose proof (_get_admin_token_run s) as Hrun. cbn zeta in Hrun. rewrite Hrun.
  unfold client_credentials_grant.
  match goal with
  | |- _ -> ?goal =>
      assert (Hfail : forall e s',
                sent s' = sent s1 -> _admin_token s' = _admin_token s1 ->
                sent s' = sent s ++ [mkRequest POST (token_uri self)
                  [("Content-Type", HText "application/x-www-form-urlencoded")] []
                  (FormData [("client_id", admin_client_id self);
                             ("client_secret", admin_client_secret self);
                             ("grant_type", "client_credentials")])] ->
                _admin_token s' = _admin_token s ->
                r = Raise e -> goal)
  end.
  { intros e s' Hs Ht Hsent Htoken ->. split; [congruence|].
    split; [discriminate|]. intros ? _. congruence. }
  destruct (respond world _ _) as [response|e] eqn:Hanswer.
  2:{ intros [= <- <-]. eapply Hfail; reflexivity. }
  destruct (json_body response) as [body|] eqn:Hbody.
  2:{ intros [= <- <-]. eapply Hfail; reflexivity. }
  destruct (py_getitem body "access_token") as [access_token|e] eqn:Hitem.
  2:{ destruct (is_KeyError e); intros [= <- <-]; eapply Hfail; reflexivity. }
  match goal with
  | |- context [admin_token_setter world lib self access_token ?s0] =>
      destruct (admin_token_setter world lib self access_token s0) as [r' s'] eqn:Hset;
      destruct (admin_token_setter_facts _ _ _ _ Hset) as (Hsent & Hok & Hraise)
  end.
  cbn [sent _admin_token clock_reads] in Hsent, Hok, Hraise.
  destruct r' as [[]|e].
  - intros [= <- <-]. split; [exact Hsent|]. split; [|discriminate].
    intros _. destruct (Hok eq_refl) as (Htoken & claims & Hdecode & Hroles).
    exists response, body, claims. rewrite Htoken. repeat split; auto.
  - specialize (Hraise e eq_refl).
    destruct (is_JSONDecodeError e); [|destruct (is_KeyError e)];
      intros [= <- <-]; eapply Hfail; eauto.
Qed.

(** X4. A successful re-acquisition sends the client-credentials request
    and caches exactly the [access_token] of the answer, which the decoder
    accepted and whose claims carry both resource roles; a failed one
    sends the same request and leaves the cached token as it was. *)
Theorem _get_admin_token_caches_accepted (s s1 : State) (r : result unit) :
  _get_admin_token world lib self s = (r, s1) ->
  sent s1 = sent s ++ [client_credentials_grant self] /\
  (r = Ok tt ->
     exists response body claims,
       respond world (length (sent s)) (client_credentials_grant self) = Ok response /\
       json_body response = Some body /\
       py_getitem body "access_token" = Ok (_admin_token s1) /\
       jwt_decode lib (time_at world (clock_reads s)) (_admin_token s1)
         (public_key self) plain_options None = Ok claims /\
       carries_admin_roles claims) /\
  (forall e, r = Raise e -> _admin_token s1 = _admin_token s).
Proof. apply _get_admin_token_facts. Qed.

(** X6. Reading the admin token sends nothing but client-credentials
    requests, one for each re-acquisition and never more than the allowed
    depth; a token it returns is the cached one, and the decoder accepted
    it at the last reading of the clock. *)
Theorem admin_token_returns_validated (depth : nat) (s s1 : State)
    (r : result json) :
  admin_token world lib self depth s = (r, s1) ->
  (exists n, (n <= depth)%nat /\
             sent s1 = sent s ++ repeat (client_credentials_grant self) n) /\
  (forall token, r = Ok token ->
     token = _admin_token s1 /\
     exists claims,
       jwt_decode lib (time_at world (Nat.pred (clock_reads s1))) token
         (public_key self) plain_options None = Ok claims).
Proof.
  revert s s1 r. induction depth as [|depth IH]; intros s s1 r.
  - cbn. intros [= <- <-]. split; [|discriminate].
    exists 0%nat. split; [lia|]. cbn. now rewrite app_nil_r.
  - rewrite admin_token_step. cbn zeta.
    destruct (jwt_decode lib (time_at world (clock_reads s)) (_admin_token s)
                (public_key self) plain_options None) as [claims|e] eqn:Hdecode.
    { intros [= <- <-]. split.
      - exists 0%nat. split; [lia|]. cbn. now rewrite app_nil_r.
      - intros token [= <-]. split; [reflexivity|]. exists claims. exact Hdecode. }
    destruct (is_jwt_failure e).
    2:{ intros [= <- <-]. split; [|discriminate].
        exists 0%nat. split; [lia|]. cbn. now rewrite app_nil_r. }
    destruct (_get_admin_token world lib self
                (mkState (_admin_token s) (S (clock_reads s)) (sent s)))
      as [[[]|e'] sb] eqn:Hget;
      destruct (_get_admin_token_facts _ _ _ Hget) as (Hsent & _ & _);
      cbn [sent] in Hsent.
    + intros Hrec. destruct (IH _ _ _ Hrec) as [(n & Hn & Hlog) Htoken].
      split; [|exact Htoken].
      exists (S n). split; [lia|]. rewrite Hlog, Hsent, <- app_assoc. reflexivity.
    + intros [= <- <-]. split; [|discriminate].
      exists 1%nat. split; [lia|]. exact Hsent.
Qed.

End AdminTokenCache.

(** ** More on the authorization guard *)

Lemma copy_extra_fields_lookup (fields : list string)
    (decoded : list (string * json)) (user : OIDCUser) (field : string) :
  extra_fields (copy_extra_fields fields decoded user) !! field
  = if bool_decide (field ∈ fields)
    then Some (default JNull (assoc field decoded))
    else extra_fields user !! field.
Proof.
  revert user. induction fields as [|f rest IH]; intros user; cbn [copy_extra_fields].
  - rewrite bool_decide_eq_false_2; [reflexivity|]. apply not_elem_of_nil.
  - rewrite IH. cbn [extra_fields].
    destruct (bool_decide (field ∈ rest)) eqn:Hrest.
    + apply bool_decide_eq_true in Hrest.
      rewrite bool_decide_eq_true_2; [reflexivity|]. now apply list_elem_of_further.
    + apply bool_decide_eq_false in Hrest.
      destruct (decide (field = f)) as [->|Hne].
      * rewrite lookup_insert_eq.
        rewrite bool_decide_eq_true_2; [reflexivity|]. apply list_elem_of_here.
      * rewrite lookup_insert_ne by congruence.
        rewrite bool_decide_eq_false_2; [reflexivity|].
        intros Hin. apply elem_of_cons in Hin as [?|?]; contradiction.
Qed.

(** The roles loop passes exactly when every required role is among the
    roles that the reading of [user.roles] yields. *)
Lemma check_required_roles_passes (required : list string) (user : OIDCUser) :
  check_required_roles required user = Ok tt <->
  (forall role, role ∈ required ->
     exists granted, roles user = Ok granted /\ role ∈ granted).
Proof.
  destruct (roles user) as [granted|e] eqn:Hroles.
  - rewrite (check_required_roles_ok required granted user Hroles), Forall_forall.
    split.
    + intros Hall role Hin. exists granted. auto.
    + intros Hall role Hin. destruct (Hall role Hin) as (g & [= <-] & Hg). exact Hg.
  - destruct required as [|role rest].
    + split; [|reflexivity]. intros _ role Hin. now apply elem_of_nil in Hin.
    + rewrite (check_required_roles_unreadable role rest user e Hroles).
      split; [discriminate|].
      intros Hall. destruct (Hall role (list_elem_of_here _ _)) as (g & Hg & _).
      discriminate Hg.
Qed.

Section GuardMore.

Context (world : World) (lib : Library) (self : Config).

(** X7. The guard works on the token alone: whatever it answers, it has
    read the clock once, sent no request and left the cached admin token
    alone.  The token is decoded for the audience [account] with all three
    verifications on; of the decoder's failures only
    [ExpiredSignatureError] becomes the 401 failure, any other is passed
    on as it is. *)
Theorem get_current_user_local (required_roles extra_fields : option (list string))
    (token : string) (s : State) :
  let out := get_current_user world lib self required_roles extra_fields token s in
  let verdict := jwt_decode lib (time_at world (clock_reads s)) (JStr token)
                   (public_key self) (mkJwtOptions true true true) (Some "account") in
  snd out = tick s /\
  (verdict = Raise ExpiredSignatureError ->
   fst out = Raise (HTTPException 401 "Access token has expired.")) /\
  (forall e, verdict = Raise e -> is_ExpiredSignatureError e = false ->
             fst out = Raise e).
Proof.
  intros out verdict. subst out verdict.
  unfold get_current_user, try_except, _decode_token, bind, utcnow, lift, raise, ret, tick.
  change (mkJwtOptions true (bool_decide _) true) with (mkJwtOptions true true true).
  cbn [sent clock_reads _admin_token].
  destruct (jwt_decode lib (time_at world (clock_reads s)) (JStr token)
              (public_key self) (mkJwtOptions true true true) (Some "account"))
    as [decoded|e].
  - split; [|split; [discriminate|intros ? [=]]].
    destruct (OIDCUser_init lib decoded) as [user|]; [|reflexivity].
    destruct required_roles as [[|role rest]|]; try reflexivity.
    destruct (check_required_roles (role :: rest) user); reflexivity.
  - split; [|split].
    + destruct (is_ExpiredSignatureError e); reflexivity.
    + intros [= ->]. reflexivity.
    + intros e' [= ->] Hother. now rewrite Hother.
Qed.

(** X8. When the guard lets a request through and extra fields were asked
    for, the user view holds, for each of them, the token's claim of that
    name, or [None] when the token has no such claim; the other entries of
    the view's extension bag are those the parsed user had. *)
Theorem get_current_user_extra_fields
    (required_roles : option (list string)) (fields : list string)
    (token : string) (s s1 : State) (decoded : list (string * json))
    (user : OIDCUser) :
  _decode_token world lib self (JStr token) None (Some "account") s = (Ok decoded, s1) ->
  OIDCUser_init lib decoded = Some user ->
  (forall role, role ∈ default [] required_roles ->
     exists granted, roles user = Ok granted /\ role ∈ granted) ->
  exists view,
    get_current_user world lib self required_roles (Some fields) token s
      = (Ok view, s1) /\
    (forall field, field ∈ fields ->
       extra_fields view !! field = Some (default JNull (assoc field decoded))) /\
    (forall field, field ∉ fields ->
       extra_fields view !! field = extra_fields user !! field).
Proof.
  intros Hdecode Hparse Hroles.
  exists (copy_extra_fields fields decoded user). split; [|split].
  - unfold get_current_user.
    unfold bind at 1. unfold try_except. rewrite Hdecode.
    unfold bind at 1. unfold lift at 1. rewrite Hparse.
    apply check_required_roles_passes in Hroles.
    unfold bind, lift, ret.
    destruct required_roles as [[|role rest]|]; cbn -[check_required_roles] in *;
      try rewrite Hroles; destruct fields; reflexivity.
  - intros field Hin. rewrite copy_extra_fields_lookup.
    now rewrite bool_decide_eq_true_2.
  - intros field Hout. rewrite copy_extra_fields_lookup.
    now rewrite bool_decide_eq_false_2.
Qed.

End GuardMore.

(** ** Session policy calls *)

Lemma _admin_request_run (world : World) (lib : Library) (self : Config)
    (recursion_limit : nat) (url : string) (method : HTTPMethod) (data : json)
    (s s1 : State) (token : json) :
  admin_token world lib self recursion_limit s = (Ok token, s1) ->
  _admin_request world lib self recursion_limit url method data "application/json" s
  = (respond world (length (sent s1)) (admin_request url method data token),
     mkState (_admin_token s1) (clock_reads s1)
       (sent s1 ++ [admin_request url method data token])).
Proof.
  intros Htoken. unfold _admin_request. rewrite (bind_ok _ _ _ _ _ Htoken).
  reflexivity.
Qed.

Section SessionPolicy.

Context (world : World) (lib : Library) (self : Config) (recursion_limit : nat).

(** The shape shared by the four calls: a request under [try], a test of
    the status for 204, and a handler that wraps every exception. *)
Lemma try_204_outcome (request : M Response) (message failed wrapped : string)
    (s : State) :
  let out :=
    try_except
      (response <- request ;;
       if status_code response =? 204 then ret (JObj [("message", JStr message)])
       else raise (KeycloakError (status_code response)
                     (RText (failed +:+ content response))))
      is_Exception
      (fun e => raise (KeycloakError 400 (RTextExn wrapped e))) s in
  snd out = snd (request s) /\
  (forall response,
     fst (request s) = Ok response -> status_code response = 204 ->
     fst out = Ok (JObj [("message", JStr message)])) /\
  (forall response,
     fst (request s) = Ok response -> status_code response <> 204 ->
     fst out = Raise (KeycloakError 400
                        (RTextExn wrapped
                           (KeycloakError (status_code response)
                              (RText (failed +:+ content response)))))) /\
  (forall e, fst (request s) = Raise e ->
             fst out = Raise (KeycloakError 400 (RTextExn wrapped e))) /\
  (forall e, fst out = Raise e ->
             exists cause, e = KeycloakError 400 (RTextExn wrapped cause)).
Proof.
  intros out. subst out. unfold try_except, bind, ret, raise.
  destruct (request s) as [[response|e] s1]; cbn [fst snd].
  - destruct (Z.eqb_spec (status_code response) 204) as [H204|H204]; cbn.
    + repeat split; try discriminate; auto. intros ? [= <-] ?. contradiction.
    + repeat split; try discriminate; eauto.
      * intros ? [= <-] ?. contradiction.
      * intros ? [= <-] _. reflexivity.
      * intros ? [= <-]. eauto.
  - repeat split; try discriminate.
    + intros ? [= <-]. reflexivity.
    + intros ? [= <-]. eauto.
Qed.

(** X9. [set_max_concurrent_sessions] puts the cap, as the decimal text
    of the number, under [attributes.max-sessions]; it returns its
    confirmation exactly on status 204; every failure, a failed token or
    request as well as another status, is raised as [KeycloakError] with
    status 400, the remote status surviving only inside the reason. *)
Theorem set_max_concurrent_sessions_outcome (max_sessions : Z) (s : State) :
  let request :=
    _admin_request world lib self recursion_limit (_admin_uri self +:+ "/") PUT
      (JObj [("attributes", JObj [("max-sessions", JStr (pretty max_sessions))])])
      "application/json" s in
  let out := set_max_concurrent_sessions world lib self recursion_limit max_sessions s in
  let wrapped := "Error updating max concurrent sessions: " in
  snd out = snd request /\
  (forall response,
     fst request = Ok response -> status_code response = 204 ->
     fst out = Ok (JObj [("message",
                          JStr "Max concurrent sessions updated successfully.")])) /\
  (forall response,
     fst request = Ok response -> status_code response <> 204 ->
     fst out = Raise (KeycloakError 400
                        (RTextExn wrapped
                           (KeycloakError (status_code response)
                              (RText ("Failed to update max concurrent sessions: "
                                      +:+ content response)))))) /\
  (forall e, fst request = Raise e ->
             fst out = Raise (KeycloakError 400 (RTextExn wrapped e))) /\
  (forall e, fst out = Raise e ->
             exists cause, e = KeycloakError 400 (RTextExn wrapped cause)).
Proof. cbn zeta. apply try_204_outcome. Qed.

(** X10. [set_session_max_lifespan] puts [ssoSessionMaxLifespan], and
    [ssoSessionIdleTimeout] exactly when an idle timeout is given, a
    timeout of 0 included; it returns its confirmation exactly on status
    204 and raises every failure as [KeycloakError] with status 400. *)
Theorem set_session_max_lifespan_outcome (session_max_lifespan : Z)
    (idle_timeout : option Z) (s : State) :
  let data :=
    match idle_timeout with
    | Some idle =>
        JObj [("ssoSessionMaxLifespan", JStr (pretty session_max_lifespan));
              ("ssoSessionIdleTimeout", JStr (pretty idle))]
    | None => JObj [("ssoSessionMaxLifespan", JStr (pretty session_max_lifespan))]
    end in
  let request :=
    _admin_request world lib self recursion_limit (_admin_uri self +:+ "/") PUT data
      "application/json" s in
  let out := set_session_max_lifespan world lib self recursion_limit
               session_max_lifespan idle_timeout s in
  let wrapped := "Error updating session max lifespan: " in
  snd out = snd request /\
  (forall response,
     fst request = Ok response -> status_code response = 204 ->
     fst out = Ok (JObj [("message", JStr "Session max lifespan updated successfully.")])) /\
  (forall response,
     fst request = Ok response -> status_code response <> 204 ->
     fst out = Raise (KeycloakError 400
                        (RTextExn wrapped
                           (KeycloakError (status_code response)
                              (RText ("Failed to update session max lifespan: "
                                      +:+ content response)))))) /\
  (forall e, fst request = Raise e ->
             fst out = Raise (KeycloakError 400 (RTextExn wrapped e))) /\
  (forall e, fst out = Raise e ->
             exists cause, e = KeycloakError 400 (RTextExn wrapped cause)).
Proof.
  cbn zeta. unfold set_session_max_lifespan, session_max_lifespan_data.
  destruct idle_timeout; apply try_204_outcome.
Qed.

(** X11. [set_realm_session_lifespan] puts [accessTokenLifespan] as the
    decimal text of the number; it returns its confirmation exactly on
    status 204 and raises every failure as [KeycloakError] with status
    400. *)
Theorem set_realm_session_lifespan_outcome (session_lifespan : Z) (s : State) :
  let request :=
    _admin_request world lib self recursion_limit (_admin_uri self +:+ "/") PUT
      (JObj [("accessTokenLifespan", JStr (pretty session_lifespan))])
      "application/json" s in
  let out := set_realm_session_lifespan world lib self recursion_limit
               session_lifespan s in
  let wrapped := "Error updating realm session lifespan: " in
  snd out = snd request /\
  (forall response,
     fst request = Ok response -> status_code response = 204 ->
     fst out = Ok (JObj [("message",
                          JStr "Realm session lifespan updated successfully.")])) /\
  (forall response,
     fst request = Ok response -> status_code response <> 204 ->
     fst out = Raise (KeycloakError 400
                        (RTextExn wrapped
                           (KeycloakError (status_code response)
                              (RText ("Failed to update realm session lifespan: "
                                      +:+ content response)))))) /\
  (forall e, fst request = Raise e ->
             fst out = Raise (KeycloakError 400 (RTextExn wrapped e))) /\
  (forall e, fst out = Raise e ->
             exists cause, e = KeycloakError 400 (RTextExn wrapped cause)).
Proof. cbn zeta. apply try_204_outcome. Qed.

(** X12. [logout_user] posts to the user's [logout] endpoint; it returns
    its confirmation exactly on status 204 and raises every failure as
    [KeycloakError] with status 400. *)
Theorem logout_user_outcome (user_id : string) (s : State) :
  let request :=
    _admin_request world lib self recursion_limit
      (users_uri self +:+ "/" +:+ user_id +:+ "/logout") POST JNull
      "application/json" s in
  let out := logout_user world lib self recursion_limit user_id s in
  let wrapped := "Error terminating user session: " in
  snd out = snd request /\
  (forall response,
     fst request = Ok response -> status_code response = 204 ->
     fst out = Ok (JObj [("message", JStr "User session terminated successfully.")])) /\
  (forall response,
     fst request = Ok response -> status_code response <> 204 ->
     fst out = Raise (KeycloakError 400
                        (RTextExn wrapped
                           (KeycloakError (status_code response)
                              (RText ("Failed to terminate user session: "
                                      +:+ content response)))))) /\
  (forall e, fst request = Raise e ->
             fst out = Raise (KeycloakError 400 (RTextExn wrapped e))) /\
  (forall e, fst out = Raise e ->
             exists cause, e = KeycloakError 400 (RTextExn wrapped cause)).
Proof. cbn zeta. apply try_204_outcome. Qed.

(** What [get_max_concurrent_sessions] does with a realm document. *)
Lemma get_max_concurrent_sessions_run (s s1 : State) (response : Response) :
  _admin_request world lib self recursion_limit (_admin_uri self) GET JNull
    "application/json" s = (Ok response, s1) ->
  get_max_concurrent_sessions world lib self recursion_limit s
  = (match (match response_json response with
           | Raise e => Raise e
           | Ok realm_settings =>
               match py_get realm_settings "attributes" (JObj []) with
               | Raise e => Raise e
               | Ok realm_attributes =>
                   match py_get realm_attributes "max-sessions" (JNum 0) with
                   | Raise e => Raise e
                   | Ok max_sessions => py_int lib max_sessions
                   end
               end
           end) with
     | Ok n => Ok n
     | Raise e => Raise (KeycloakError 400
                           (RTextExn "Error retrieving max concurrent sessions setting: " e))
     end, s1).
Proof.
  intros Hrequest. unfold get_max_concurrent_sessions, try_except.
  rewrite (bind_ok _ _ _ _ _ Hrequest).
  unfold bind, lift, raise.
  destruct (response_json response) as [settings|e]; [|reflexivity].
  destruct (py_get settings "attributes" (JObj [])) as [attrs|e]; [|reflexivity].
  destruct (py_get attrs "max-sessions" (JNum 0)) as [ms|e]; [|reflexivity].
  destruct (py_int lib ms); reflexivity.
Qed.

(** X13. The document [set_max_concurrent_sessions] puts is read back by
    [get_max_concurrent_sessions] as the same number: the last request of
    the setter carries [attributes.max-sessions] with the decimal text of
    the cap, and a realm endpoint that serves this document makes the
    getter return the cap, provided [int] reads that text back. *)
Theorem max_concurrent_sessions_round_trip (max_sessions : Z)
    (s0 s0' s s1 : State) (token : json) (response : Response) :
  admin_token world lib self recursion_limit s0 = (Ok token, s0') ->
  _admin_request world lib self recursion_limit (_admin_uri self) GET JNull
    "application/json" s = (Ok response, s1) ->
  json_body response = Some (max_sessions_data max_sessions) ->
  int_of_str lib (pretty max_sessions) = Some max_sessions ->
  sent (snd (set_max_concurrent_sessions world lib self recursion_limit max_sessions s0))
    = sent s0' ++ [admin_request (_admin_uri self +:+ "/") PUT
                     (max_sessions_data max_sessions) token] /\
  get_max_concurrent_sessions world lib self recursion_limit s = (Ok max_sessions, s1).
Proof.
  intros Htoken Hrequest Hbody Hint. split.
  - unfold set_max_concurrent_sessions, try_except.
    unfold bind at 1. rewrite (_admin_request_run _ _ _ _ _ _ _ _ _ _ Htoken).
    destruct (respond world _ _) as [response'|e]; [|reflexivity].
    destruct (status_code response' =? 204); reflexivity.
  - rewrite (get_max_concurrent_sessions_run _ _ _ Hrequest).
    unfold response_json. rewrite Hbody. cbn. now rewrite Hint.
Qed.

(** X14. [get_max_concurrent_sessions] does not look at the status: from
    a realm document that is a JSON object it returns 0 when [attributes]
    or its [max-sessions] entry is missing, and the number written in the
    entry otherwise; an [attributes] entry that is [null] is a failure,
    and every failure is a [KeycloakError] with status 400. *)
Theorem get_max_concurrent_sessions_default (s s1 : State) (response : Response)
    (settings : list (string * json)) :
  _admin_request world lib self recursion_limit (_admin_uri self) GET JNull
    "application/json" s = (Ok response, s1) ->
  json_body response = Some (JObj settings) ->
  let out := get_max_concurrent_sessions world lib self recursion_limit s in
  let wrapped := "Error retrieving max concurrent sessions setting: " in
  (assoc "attributes" settings = None -> out = (Ok 0, s1)) /\
  (forall attrs,
     assoc "attributes" settings = Some (JObj attrs) ->
     assoc "max-sessions" attrs = None -> out = (Ok 0, s1)) /\
  (forall attrs text n,
     assoc "attributes" settings = Some (JObj attrs) ->
     assoc "max-sessions" attrs = Some (JStr text) ->
     int_of_str lib text = Some n -> out = (Ok n, s1)) /\
  (assoc "attributes" settings = Some JNull ->
     out = (Raise (KeycloakError 400 (RTextExn wrapped AttributeError)), s1)) /\
  (forall e, fst out = Raise e ->
             exists cause, e = KeycloakError 400 (RTextExn wrapped cause)).
Proof.
  intros Hrequest Hbody out wrapped. subst out wrapped.
  rewrite (get_max_concurrent_sessions_run _ _ _ Hrequest).
  unfold response_json. rewrite Hbody. cbn [py_get].
  split; [|split; [|split; [|split]]].
  - intros ->. reflexivity.
  - intros attrs -> Hms. cbn. now rewrite Hms.
  - intros attrs text n -> Hms Hint. cbn. rewrite Hms. cbn. now rewrite Hint.
  - intros ->. reflexivity.
  - intros e. cbn [fst].
    match goal with |- context [match ?x with Ok n => Ok n | Raise _ => _ end] =>
      destruct x end; [discriminate|].
    intros [= <-]. eauto.
Qed.

(** X15. [get_active_sessions] does not look at the status either: the
    JSON body of whatever response came back is returned as the sessions;
    every failure, a body that is not JSON included, is a [KeycloakError]
    with status 400. *)
Theorem get_active_sessions_outcome (user_id : string) (s : State) :
  let request :=
    _admin_request world lib self recursion_limit
      (users_uri self +:+ "/" +:+ user_id +:+ "/sessions") GET JNull
      "application/json" s in
  let out := get_active_sessions world lib self recursion_limit user_id s in
  let wrapped := "Error retrieving active sessions: " in
  snd out = snd request /\
  (forall response body,
     fst request = Ok response -> json_body response = Some body ->
     fst out = Ok body) /\
  (forall response,
     fst request = Ok response -> json_body response = None ->
     fst out = Raise (KeycloakError 400 (RTextExn wrapped JSONDecodeError))) /\
  (forall e, fst out = Raise e ->
             exists cause, e = KeycloakError 400 (RTextExn wrapped cause)).
Proof.
  intros request out wrapped. subst request out wrapped.
  unfold get_active_sessions, try_except, bind, lift, raise, response_json.
  destruct (_admin_request world lib self recursion_limit _ GET JNull _ s)
    as [[response|e] s1]; cbn [fst snd].
  - destruct (json_body response) as [body|] eqn:Hbody; cbn.
    + split; [reflexivity|]. split; [|split].
      * intros ? ? [= <-] Hb. rewrite Hbody in Hb. now injection Hb as <-.
      * intros ? [= <-] Hb. congruence.
      * discriminate.
    + split; [reflexivity|]. split; [|split].
      * intros ? ? [= <-] Hb. congruence.
      * reflexivity.
      * intros ? [= <-]. eauto.
  - split; [reflexivity|]. split; [|split]; try discriminate.
    intros ? [= <-]. eauto.
Qed.

End SessionPolicy.

(** ** Token refresh *)

Section Refresh.

Context (world : World) (self : Config) (repr : json -> string).

(** X16. [refresh_token] sends one refresh grant to the token endpoint and
    never reads the admin token.  It returns only on status 200, and then
    the JSON body as it is; on any other status with a JSON object as body
    it raises [HTTPException] with the remote status and the
    [error_description] of the body, or [Unknown error] when there is
    none. *)
Theorem refresh_token_outcome (token : string) (s : State) :
  let answer := respond world (length (sent s)) (refresh_grant self token) in
  let out := refresh_token world self repr token s in
  snd out = mkState (_admin_token s) (clock_reads s)
              (sent s ++ [refresh_grant self token]) /\
  (forall response body,
     answer = Ok response -> status_code response = 200 ->
     json_body response = Some body -> fst out = Ok body) /\
  (forall response fields,
     answer = Ok response -> status_code response <> 200 ->
     json_body response = Some (JObj fields) ->
     fst out = Raise (HTTPException (status_code response)
                        ("Error refreshing token: "
                         +:+ format_value repr
                               (default (JStr "Unknown error")
                                  (assoc "error_description" fields))))) /\
  (forall tokens,
     fst out = Ok tokens ->
     exists response, answer = Ok response /\ status_code response = 200 /\
                      json_body response = Some tokens).
Proof.
  intros answer out.
  assert (Hrun : out =
    (match answer with
     | Raise e => Raise e
     | Ok response =>
         if status_code response =? 200 then response_json response
         else match response_json response with
              | Raise e => Raise e
              | Ok body =>
                  match py_get body "error_description" (JStr "Unknown error") with
                  | Raise e => Raise e
                  | Ok description =>
                      Raise (HTTPException (status_code response)
                               ("Error refreshing token: "
                                +:+ format_value repr description))
                  end
              end
     end,
     mkState (_admin_token s) (clock_reads s) (sent s ++ [refresh_grant self token]))).
  { subst out answer. unfold refresh_token. unfold bind at 1. rewrite send_run.
    destruct (respond world (length (sent s)) (refresh_grant self token))
      as [response|e]; [|reflexivity].
    destruct (status_code response =? 200); [reflexivity|].
    unfold bind, lift, raise.
    destruct (response_json response) as [body|e]; [|reflexivity].
    destruct (py_get body "error_description" (JStr "Unknown error")); reflexivity. }
  rewrite Hrun. clear Hrun out. cbn [fst snd].
  split; [reflexivity|].
  destruct answer as [response|e]; [|split; [|split]; intros; congruence].
  unfold response_json.
  split; [|split].
  - intros ? body [= <-] H200 Hbody.
    replace (status_code response =? 200) with true by lia. now rewrite Hbody.
  - intros ? fields [= <-] H200 Hbody.
    replace (status_code response =? 200) with false by lia. now rewrite Hbody.
  - intros tokens. destruct (Z.eqb_spec (status_code response) 200) as [H200|H200].
    + destruct (json_body response) as [body|] eqn:Hbody; [|discriminate].
      intros [= <-]. exists response. auto.
    + destruct (json_body response) as [body|]; [|discriminate].
      destruct (py_get body "error_description" (JStr "Unknown error")); discriminate.
Qed.

End Refresh.

(** ** The lockout query *)

Lemma py_eq_str_lockout (fields : list (string * json)) :
  py_eq_str (default JNull (assoc "error" fields)) "user_temporarily_disabled" = true
  <-> assoc "error" fields = Some (JStr "user_temporarily_disabled").
Proof.
  destruct (assoc "error" fields) as [[| | |text| |]|]; cbn;
    try (split; [discriminate|intros [=]]).
  destruct (String.eqb_spec text "user_temporarily_disabled") as [->|Hne];
    split; try reflexivity; try discriminate.
  intros [= ->]. contradiction.
Qed.

Lemma scan_events_objects (events : list json) :
  Forall is_object events ->
  exists disabled, scan_events events = Ok disabled /\
                   (disabled = true <-> Exists reports_lockout events).
Proof.
  induction 1 as [|event rest [fields ->] _ IH]; cbn.
  - exists false. split; [reflexivity|]. split; [discriminate|].
    intros Hex. inversion Hex.
  - destruct (py_eq_str (default JNull (assoc "error" fields))
                "user_temporarily_disabled") eqn:Herror.
    + exists true. split; [reflexivity|]. split; [|reflexivity].
      intros _. apply Exists_cons_hd. exists fields. split; [reflexivity|].
      now apply py_eq_str_lockout.
    + destruct IH as (disabled & -> & Hiff). exists disabled.
      split; [reflexivity|]. rewrite Hiff. split.
      * intros Hex. now apply Exists_cons_tl.
      * intros Hex. inversion Hex as [? ? Hhead|? ? Htail]; subst; [|assumption].
        destruct Hhead as (fs & Heq & Hfs). injection Heq as <-.
        apply py_eq_str_lockout in Hfs. congruence.
Qed.

Section Lockout.

Context (world : World) (lib : Library) (self : Config) (recursion_limit : nat).

(** X17. Once the admin token is at hand, [is_user_temporarily_disabled]
    asks for the user's [LOGIN_ERROR] events: any status but 200 is raised
    as [KeycloakError] with that status; on 200 with a list of event
    objects it answers [True] exactly when one of them carries the error
    [user_temporarily_disabled]. *)
Theorem is_user_temporarily_disabled_outcome (user_id : string) (s s1 : State)
    (token : json) (response : Response) :
  admin_token world lib self recursion_limit s = (Ok token, s1) ->
  respond world (length (sent s1)) (events_request self user_id token) = Ok response ->
  let out := is_user_temporarily_disabled world lib self recursion_limit user_id s in
  sent (snd out) = sent s1 ++ [events_request self user_id token] /\
  (status_code response <> 200 ->
     fst out = Raise (KeycloakError (status_code response)
                        (RText ("Error al consultar eventos de Keycloak: "
                                +:+ content response)))) /\
  (forall events,
     status_code response = 200 -> json_body response = Some (JArr events) ->
     Forall is_object events ->
     exists disabled,
       fst out = Ok (UValue disabled) /\
       (disabled = true <-> Exists reports_lockout events)).
Proof.
  intros Htoken Hanswer out.
  assert (Hrun : out =
    (if status_code response =? 200 then
       match response_json response with
       | Raise e => Raise e
       | Ok body =>
           match py_iter body with
           | Raise e => Raise e
           | Ok events =>
               match scan_events events with
               | Raise e => Raise e
               | Ok disabled => Ok (UValue disabled)
               end
           end
       end
     else Raise (KeycloakError (status_code response)
                   (RText ("Error al consultar eventos de Keycloak: "
                           +:+ content response))),
     mkState (_admin_token s1) (clock_reads s1)
       (sent s1 ++ [events_request self user_id token]))).
  { subst out.
    unfold is_user_temporarily_disabled, result_or_error.
    unfold bind at 1. unfold is_user_temporarily_disabled_body.
    rewrite (bind_ok _ _ _ _ _ Htoken).
    unfold bind at 1. rewrite send_run.
    fold (events_request self user_id token). rewrite Hanswer.
    destruct (status_code response =? 200); cbn [negb]; [|reflexivity].
    unfold bind, lift, ret, raise.
    destruct (response_json response) as [body|e]; [|reflexivity].
    destruct (py_iter body) as [events|e]; [|reflexivity].
    destruct (scan_events events); reflexivity. }
  rewrite Hrun. clear Hrun out. cbn [fst snd sent].
  split; [reflexivity|]. split.
  - intros H200. now replace (status_code response =? 200) with false by lia.
  - intros events H200 Hbody Hobjects.
    replace (status_code response =? 200) with true by lia.
    unfold response_json. rewrite Hbody. cbn [py_iter].
    destruct (scan_events_objects _ Hobjects) as (disabled & -> & Hiff). eauto.
Qed.

End Lockout.

(** ** Looking a user up *)

Section UserLookup.

Context (world : World) (lib : Library) (self : Config) (recursion_limit : nat).

(** X18. A lookup by a valid query does not look at the status of the
    answer: an empty list, or any other falsy body, is [UserNotFound]
    with status 404; from a list whose first entry is an object that the
    model accepts, the user built from that first entry is returned, and
    further entries are ignored; a body that is not JSON raises
    [JSONDecodeError]. *)
Theorem get_user_by_query_outcome (query : string) (s s1 : State)
    (response : Response) :
  validate_query query = Ok query ->
  _admin_request world lib self recursion_limit (users_uri self +:+ "?" +:+ query)
    GET JNull "application/json" s = (Ok response, s1) ->
  let out := get_user world lib self recursion_limit None query s in
  (forall body,
     json_body response = Some body -> truthy body = false ->
     out = (Raise (UserNotFound 404
                     ("User query with filters of [" +:+ query +:+
                      "] did no match any users")), s1)) /\
  (forall fields rest user,
     json_body response = Some (JArr (JObj fields :: rest)) ->
     KeycloakUser_init lib fields = Some user ->
     out = (Ok (UValue user), s1)) /\
  (json_body response = None -> out = (Raise JSONDecodeError, s1)).
Proof.
  intros Hvalid Hrequest out.
  assert (Hrun : out =
    match response_json response with
    | Raise e => (Raise e, s1)
    | Ok found =>
        if negb (truthy found) then
          (Raise (UserNotFound 404
                    ("User query with filters of [" +:+ query +:+
                     "] did no match any users")), s1)
        else match py_getitem0 found with
             | Raise e => (Raise e, s1)
             | Ok first =>
                 match KeycloakUser_kwargs lib first with
                 | Raise e => (Raise e, s1)
                 | Ok user => (Ok (UValue user), s1)
                 end
             end
    end).
  { subst out. unfold get_user, result_or_error. unfold bind at 1.
    unfold get_user_body. rewrite (bind_lift_ok _ _ _ _ Hvalid).
    rewrite (bind_ok _ _ _ _ _ Hrequest).
    unfold bind, lift, raise, ret.
    destruct (response_json response) as [found|e]; [|reflexivity].
    destruct (truthy found); cbn [negb]; [|reflexivity].
    destruct (py_getitem0 found) as [first|e]; [|reflexivity].
    destruct (KeycloakUser_kwargs lib first); reflexivity. }
  rewrite Hrun. clear Hrun out. unfold response_json.
  split; [|split].
  - intros body -> Hfalsy. now rewrite Hfalsy.
  - intros fields rest user -> Hinit. cbn. now rewrite Hinit.
  - intros ->. reflexivity.
Qed.

(** X19. A lookup by id looks at the status only for 404, which is
    [UserNotFound]; under any other status a body that is an object the
    model accepts is returned as the user. *)
Theorem get_user_by_id_outcome (user_id : string) (s s1 : State)
    (response : Response) :
  _admin_request world lib self recursion_limit (users_uri self +:+ "/" +:+ user_id)
    GET JNull "application/json" s = (Ok response, s1) ->
  let out := get_user world lib self recursion_limit (Some user_id) EmptyString s in
  (status_code response = 404 ->
     out = (Raise (UserNotFound 404
                     ("User with user_id[" +:+ user_id +:+ "] was not found")), s1)) /\
  (forall fields user,
     status_code response <> 404 ->
     json_body response = Some (JObj fields) ->
     KeycloakUser_init lib fields = Some user ->
     out = (Ok (UValue user), s1)).
Proof.
  intros Hrequest out.
  assert (Hrun : out =
    if status_code response =? 404 then
      (Raise (UserNotFound 404
                ("User with user_id[" +:+ user_id +:+ "] was not found")), s1)
    else match response_json response with
         | Raise e => (Raise e, s1)
         | Ok found =>
             match KeycloakUser_kwargs lib found with
             | Raise e => (Raise e, s1)
             | Ok user => (Ok (UValue user), s1)
             end
         end).
  { subst out. unfold get_user, result_or_error. unfold bind at 1.
    unfold get_user_body. rewrite (bind_ok _ _ _ _ _ Hrequest).
    destruct (status_code response =? 404); [reflexivity|].
    unfold bind, lift, raise, ret.
    destruct (response_json response) as [found|e]; [|reflexivity].
    destruct (KeycloakUser_kwargs lib found); reflexivity. }
  rewrite Hrun. clear Hrun out. split.
  - intros H404. now replace (status_code response =? 404) with true by lia.
  - intros fields user H404 Hbody Hinit.
    replace (status_code response =? 404) with false by lia.
    unfold response_json. rewrite Hbody. cbn. now rewrite Hinit.
Qed.

End UserLookup.

(** ** More on the login *)

Lemma str_split_without (sep : ascii) (text : string) :
  ~ In sep (list_ascii_of_string text) -> str_split sep text = [text].
Proof.
  induction text as [|c rest IH]; cbn; [reflexivity|].
  intros Hnot. destruct (Ascii.eqb_spec c sep) as [->|Hne].
  - exfalso. apply Hnot. now left.
  - rewrite IH; [reflexivity|]. intros Hin. apply Hnot. now right.
Qed.

Section LoginMore.

Context (world : World) (lib : Library) (self : Config) (recursion_limit : nat).

(** X20. The username goes into the lookup query unescaped, so the query
    validation decides on it first: an empty username ends [user_login]
    with [ValueError] before anything is sent or read, while every
    non-empty username without [&] passes the validation. *)
Theorem user_login_checks_username (password : string) (s : State) :
  user_login world lib self recursion_limit EmptyString password s
    = (Raise (ValueError "Invalid query field or value: username="), s) /\
  (forall username,
     username <> EmptyString ->
     ~ In "&"%char (list_ascii_of_string username) ->
     validate_query ("username=" +:+ username) = Ok ("username=" +:+ username)).
Proof.
  split; [reflexivity|].
  intros username Hnonempty Hplain.
  unfold validate_query. rewrite str_split_without.
  - cbn [validate_pairs]. unfold pair_rejected.
    change (str_partition "="%char ("username=" +:+ username))
      with ("username", "=", username).
    cbv beta iota zeta.
    rewrite bool_decide_eq_true_2.
    + cbn. apply String.eqb_neq in Hnonempty. now rewrite Hnonempty.
    + unfold ALLOWED_QUERY_FIELDS. rewrite !elem_of_union, !elem_of_singleton. auto.
  - change (list_ascii_of_string ("username=" +:+ username))
      with (list_ascii_of_string "username=" ++ list_ascii_of_string username)%list.
    intros Hin. apply in_app_or in Hin as [Hin|Hin]; [|contradiction].
    cbn in Hin. repeat (destruct Hin as [Hin|Hin]; [discriminate Hin|]).
    destruct Hin.
Qed.

(** X21. Whatever the token endpoint answered, a value [user_login]
    returns is a dictionary of exactly the five fields [access_token],
    [refresh_token], [id_token], [expires_in] and [refresh_expires_in], in
    this order; and the last request sent is the password grant. *)
Theorem user_login_returns_five_fields (username password : string)
    (s s1 : State) (tokens : json) :
  user_login world lib self recursion_limit username password s = (Ok tokens, s1) ->
  (exists access_token refresh_token id_token expires_in refresh_expires_in,
     tokens = JObj [("access_token", access_token);
                    ("refresh_token", refresh_token);
                    ("id_token", id_token);
                    ("expires_in", expires_in);
                    ("refresh_expires_in", refresh_expires_in)]) /\
  (exists before, sent s1 = before ++ [password_grant self username password]).
Proof.
  intros Hrun.
  destruct (login_fetch_user world lib self recursion_limit username s)
    as [[user|e] sa] eqn:Hfetch.
  2:{ rewrite (user_login_stops_at_fetch _ _ _ _ _ password _ _ _ Hfetch) in Hrun.
      discriminate. }
  destruct (login_check_lockout world lib self recursion_limit user sa)
    as [r2 sb] eqn:Hlock.
  destruct (unit_result r2) as [-> | [e ->]].
  2:{ rewrite (user_login_stops_at_lockout _ _ _ _ _ password _ _ _ _ _ Hfetch Hlock)
        in Hrun. discriminate. }
  destruct (login_check_expiration world lib user sb) as [r3 sc] eqn:Hexp.
  destruct (unit_result r3) as [-> | [e ->]].
  2:{ rewrite (user_login_stops_at_expiration _ _ _ _ _ password _ _ _ _ _ _
                 Hfetch Hlock Hexp) in Hrun. discriminate. }
  destruct (login_check_sessions world lib self recursion_limit user sc)
    as [r4 sd] eqn:Hsess.
  destruct (unit_result r4) as [-> | [e ->]].
  2:{ rewrite (user_login_stops_at_sessions _ _ _ _ _ password _ _ _ _ _ _ _
                 Hfetch Hlock Hexp Hsess) in Hrun. discriminate. }
  rewrite (user_login_reaches_grant _ _ _ _ _ password _ _ _ _ _ _
             Hfetch Hlock Hexp Hsess) in Hrun.
  injection Hrun as Hresult <-. split; [|eexists; reflexivity].
  destruct (respond world _ _) as [response|e]; [|discriminate].
  unfold login_result in Hresult.
  assert (Htokens : login_tokens response = Ok tokens ->
    exists access_token refresh_token id_token expires_in refresh_expires_in,
      tokens = JObj [("access_token", access_token);
                     ("refresh_token", refresh_token);
                     ("id_token", id_token);
                     ("expires_in", expires_in);
                     ("refresh_expires_in", refresh_expires_in)]).
  { unfold login_tokens. destruct (response_json response) as [data|]; [|discriminate].
    destruct data; try discriminate. intros [= <-]. repeat eexists. }
  destruct (status_code response =? 401); [discriminate|].
  destruct (status_code response =? 400); [|auto].
  destruct (requiredActions user); [auto|discriminate].
Qed.

End LoginMore.

(** ** Requests only ever get appended *)

Lemma sends_only_ret (P : Request -> Prop) {A : Type} (a : A) : sends_only P (ret a).
Proof. intros s. exists []. cbn. now rewrite app_nil_r. Qed.

Lemma sends_only_raise (P : Request -> Prop) {A : Type} (e : exn) :
  sends_only P (raise (A:=A) e).
Proof. intros s. exists []. cbn. now rewrite app_nil_r. Qed.

Lemma sends_only_lift (P : Request -> Prop) {A : Type} (r : result A) :
  sends_only P (lift r).
Proof. intros s. exists []. cbn. now rewrite app_nil_r. Qed.

Lemma sends_only_bind (P : Request -> Prop) {A B : Type} (c : M A) (k : A -> M B) :
  sends_only P c -> (forall a, sends_only P (k a)) -> sends_only P (bind c k).
Proof.
  intros Hc Hk s. unfold bind. destruct (Hc s) as (new & Hsent & Hall).
  destruct (c s) as [[a|e] s1]; cbn in *; [|eauto].
  destruct (Hk a s1) as (new' & Hsent' & Hall').
  exists (new ++ new'). split.
  - now rewrite Hsent', Hsent, app_assoc.
  - now apply Forall_app.
Qed.

Lemma sends_only_try_except (P : Request -> Prop) {A : Type} (c : M A)
    (handled : exn -> bool) (h : exn -> M A) :
  sends_only P c -> (forall e, sends_only P (h e)) ->
  sends_only P (try_except c handled h).
Proof.
  intros Hc Hh s. unfold try_except. destruct (Hc s) as (new & Hsent & Hall).
  destruct (c s) as [[a|e] s1]; cbn in *; [eauto|].
  destruct (handled e); cbn; [|eauto].
  destruct (Hh e s1) as (new' & Hsent' & Hall').
  exists (new ++ new'). split.
  - now rewrite Hsent', Hsent, app_assoc.
  - now apply Forall_app.
Qed.

Lemma sends_only_send (P : Request -> Prop) (world : World) (rq : Request) :
  P rq -> sends_only P (send world rq).
Proof. intros Hrq s. exists [rq]. cbn. split; [reflexivity|]. now constructor. Qed.

Lemma sends_only_utcnow (P : Request -> Prop) (world : World) :
  sends_only P (utcnow world).
Proof. intros s. exists []. cbn. now rewrite app_nil_r. Qed.

Lemma sends_only_get__admin_token (P : Request -> Prop) : sends_only P get__admin_token.
Proof. intros s. exists []. cbn. now rewrite app_nil_r. Qed.

Lemma sends_only_set__admin_token (P : Request -> Prop) (value : json) :
  sends_only P (set__admin_token value).
Proof. intros s. exists []. cbn. now rewrite app_nil_r. Qed.

Create HintDb sends.

#[local] Hint Resolve sends_only_ret sends_only_raise sends_only_lift
  sends_only_utcnow sends_only_get__admin_token sends_only_set__admin_token : sends.

Ltac sends_walk :=
  repeat first
    [ solve [auto with sends]
    | apply sends_only_bind; [|intros ?]
    | apply sends_only_try_except; [|intros ?]
    | apply sends_only_send; exact I
    | match goal with
      | |- sends_only _ (if ?b then _ else _) => destruct b
      | |- sends_only _ (match ?x with _ => _ end) => destruct x
      end ].

Section Appends.

Context (world : World) (lib : Library) (self : Config) (recursion_limit : nat).

Lemma appends__decode_token token options audience :
  sends_only any_request (_decode_token world lib self token options audience).
Proof. unfold _decode_token. sends_walk. Qed.

Lemma appends_token_is_valid token audience :
  sends_only any_request (token_is_valid world lib self token audience).
Proof. unfold token_is_valid. pose proof appends__decode_token. sends_walk. Qed.

Lemma appends_admin_token_setter value :
  sends_only any_request (admin_token_setter world lib self value).
Proof. unfold admin_token_setter. pose proof appends__decode_token. sends_walk. Qed.

Lemma appends__get_admin_token : sends_only any_request (_get_admin_token world lib self).
Proof. unfold _get_admin_token. pose proof appends_admin_token_setter. sends_walk. Qed.

Lemma appends_admin_token depth : sends_only any_request (admin_token world lib self depth).
Proof.
  induction depth as [|depth IH]; cbn [admin_token]; [auto with sends|].
  pose proof appends_token_is_valid. pose proof appends__get_admin_token.
  sends_walk.
Qed.

Lemma appends__admin_request url method data content_type :
  sends_only any_request
    (_admin_request world lib self recursion_limit url method data content_type).
Proof. unfold _admin_request. pose proof appends_admin_token. sends_walk. Qed.

Lemma appends_result_or_error {Model A : Type}
    (response_model : option (json -> option Model)) (is_list : bool)
    (f : M (returned A)) :
  sends_only any_request f -> sends_only any_request (result_or_error response_model is_list f).
Proof. intros Hf. unfold result_or_error. sends_walk. Qed.

Lemma appends_get_user user_id query :
  sends_only any_request (get_user world lib self recursion_limit user_id query).
Proof.
  unfold get_user. apply appends_result_or_error.
  unfold get_user_body. pose proof appends__admin_request. sends_walk.
Qed.

End Appends.

(** ** Roles and the account expiration *)

Section RolesAndExpiration.

Context (world : World) (lib : Library) (self : Config) (recursion_limit : nat).
Context (KeycloakRole_parse_obj : json -> option KeycloakRole)
        (KeycloakUser_dict : KeycloakUser -> json).

(** X22. [add_user_roles] looks the names up in the roles of the realm and
    posts the attribute dictionaries of exactly the realm roles whose name
    was given, in the order of the realm; a name the realm does not know
    is left out without an error. *)
Theorem add_user_roles_posts_known_roles (names : list string) (user_id : string)
    (s s1 s2 : State) (all : list KeycloakRole) (token : json) :
  get_all_roles world lib self recursion_limit KeycloakRole_parse_obj s
    = (Ok (UList all), s1) ->
  admin_token world lib self recursion_limit s1 = (Ok token, s2) ->
  let chosen := filter (fun role => role_name role ∈ names) all in
  sent (snd (add_user_roles world lib self recursion_limit KeycloakRole_parse_obj
               (Some names) user_id s))
    = sent s2 ++ [admin_request
                    (users_uri self +:+ "/" +:+ user_id +:+ "/role-mappings/realm")
                    POST (JArr (map role_dict chosen)) token] /\
  (forall role, role ∈ chosen <-> role ∈ all /\ role_name role ∈ names).
Proof.
  intros Hall Htoken chosen. split.
  - assert (Hroles :
      get_roles world lib self recursion_limit KeycloakRole_parse_obj (Some names) s
      = (Ok (UValue (Some chosen)), s1)).
    { unfold get_roles, result_or_error. unfold bind at 1. unfold get_roles_body.
      rewrite (bind_ok _ _ _ _ _ Hall). reflexivity. }
    unfold add_user_roles, result_or_error. unfold bind at 1.
    unfold user_roles_request. rewrite (bind_ok _ _ _ _ _ Hroles).
    cbn [roles_found]. rewrite (bind_lift_ok _ _ _ _ eq_refl).
    unfold bind at 1.
    rewrite (_admin_request_run _ _ _ _ _ _ _ _ _ _ Htoken).
    destruct (respond world _ _) as [response|e]; [|reflexivity].
    unfold ret. cbn iota beta.
    destruct (in_success_range (status_code response)).
    + unfold try_except, bind, lift, ret, response_json.
      destruct (json_body response); reflexivity.
    + unfold try_except, bind, lift, raise, response_json.
      destruct (json_body response); reflexivity.
  - intros role. subst chosen. rewrite list_elem_of_filter. tauto.
Qed.

(** X23. [set_account_expiration] writes a user whose attributes are the
    single entry [account_expiration], whatever attributes the fetched
    user had: once the user is fetched and the admin token is at hand, the
    next request is the [PUT] of that user, and the login reads the text
    back from it as the expiration value. *)
Theorem set_account_expiration_replaces_attributes
    (user_id expiration_datetime : string) (s s1 s2 : State)
    (user : KeycloakUser) (token : json) :
  get_user world lib self recursion_limit (Some user_id) EmptyString s
    = (Ok (UValue user), s1) ->
  admin_token world lib self recursion_limit s1 = (Ok token, s2) ->
  let written := mkKeycloakUser (id user) (requiredActions user)
                   (JObj [("account_expiration", JStr expiration_datetime)]) in
  (exists rest,
     sent (snd (set_account_expiration world lib self recursion_limit
                  KeycloakUser_dict user_id expiration_datetime s))
     = sent s2 ++ admin_request (users_uri self +:+ "/" +:+ id user) PUT
                    (KeycloakUser_dict written) token :: rest) /\
  account_expiration written = JStr expiration_datetime.
Proof.
  intros Hfetch Htoken written. split; [|reflexivity].
  unfold set_account_expiration. rewrite (bind_ok _ _ _ _ _ Hfetch).
  fold written.
  assert (Hupdate : exists rest,
    sent (snd (update_user world lib self recursion_limit KeycloakUser_dict written s1))
    = sent s2 ++ admin_request (users_uri self +:+ "/" +:+ id user) PUT
                   (KeycloakUser_dict written) token :: rest).
  { unfold update_user.
    unfold result_or_error. unfold bind at 1. unfold update_user_body.
    unfold bind at 1. change (id written) with (id user).
    rewrite (_admin_request_run _ _ _ _ _ _ _ _ _ _ Htoken).
    set (rq := admin_request (users_uri self +:+ "/" +:+ id user) PUT
                 (KeycloakUser_dict written) token).
    set (s3 := mkState (_admin_token s2) (clock_reads s2) (sent s2 ++ [rq])).
    destruct (respond world (length (sent s2)) rq) as [response|e].
    2:{ exists []. reflexivity. }
    destruct (status_code response =? 204).
    - unfold bind at 1.
      destruct (appends_get_user world lib self recursion_limit (Some (id user))
                  EmptyString s3) as (new & Hsent & _).
      destruct (get_user world lib self recursion_limit (Some (id user)) EmptyString s3)
        as [[updated|e] s4]; cbn in Hsent |- *.
      + exists new. rewrite Hsent. subst s3. cbn. now rewrite <- app_assoc.
      + exists new. rewrite Hsent. subst s3. cbn. now rewrite <- app_assoc.
    - unfold ret. cbn iota beta. exists [].
      destruct (in_success_range (status_code response)).
      + unfold bind, lift, ret, response_json.
        destruct (json_body response) as [j|]; [|reflexivity].
        destruct (create_object (KeycloakUser_parse_obj lib) j); reflexivity.
      + unfold try_except, bind, lift, raise, response_json.
        destruct (json_body response); reflexivity. }
  destruct Hupdate as [rest Hrest]. exists rest.
  unfold bind.
  destruct (update_user world lib self recursion_limit KeycloakUser_dict written s1)
    as [[v|e] s4]; exact Hrest.
Qed.

End RolesAndExpiration.

(** ** The further properties on concrete runs *)

Lemma get_subgroups_finds_path_witness :
  get_subgroups MockAdmin.staff "/staff/dev/core" = Ok (Some MockAdmin.core) /\
  (forall d, descendant d MockAdmin.staff -> group_path d <> Some "/guests") /\
  (exists found, get_subgroups MockAdmin.staff "/staff" = Ok found) /\
  get_subgroups MockAdmin.bench "/lab" = Raise TypeError.
Proof.
  split; [reflexivity|]. split; [|split].
  - apply (proj1 (proj2 (get_subgroups_finds_path MockAdmin.staff "/guests"))).
    reflexivity.
  - destruct (proj2 (proj2 (proj2 (proj2
                (get_subgroups_finds_path MockAdmin.staff "/staff"))))
                (all_listed_lists MockAdmin.staff eq_refl)) as (found & Hrun & _).
    exists found. exact Hrun.
  - apply (proj1 (proj2 (proj2 (proj2
             (get_subgroups_finds_path MockAdmin.bench "/lab"))))).
    reflexivity.
Defined.

(** Searching the base groups [/lab] and [/staff] for [/staff/dev]: the
    leaf [/lab/bench] holds no list of subgroups, and the search below it
    raises before [/staff] is looked at. *)
Example run_group_lookup_bare_leaf :
  fst (get_group_by_path MockAdmin.groups_with_bare_leaf Mock.lib Mock.config 10
         MockAdmin.group_of "/staff/dev" true Mock.start)
  = Raise TypeError /\
  fst (get_group_by_path MockAdmin.groups_with_bare_leaf Mock.lib Mock.config 10
         MockAdmin.group_of "/staff/dev" false Mock.start)
  = Ok (UValue None) /\
  fst (get_group_by_path MockAdmin.groups_with_bare_leaf Mock.lib Mock.config 10
         MockAdmin.group_of "/lab/bench" true Mock.start)
  = Ok (UValue (Some MockAdmin.bench)).
Proof. vm_compute. repeat split; reflexivity. Qed.

Lemma get_group_by_path_finds_witness :
  fst (get_group_by_path MockAdmin.groups_listed Mock.lib Mock.config 10
         MockAdmin.group_of "/staff/dev/core" true Mock.start)
  = Ok (UValue (Some MockAdmin.core)) /\
  snd (get_group_by_path MockAdmin.groups_listed Mock.lib Mock.config 10
         MockAdmin.group_of "/staff/dev/core" true Mock.start)
  = snd (get_all_groups MockAdmin.groups_listed Mock.lib Mock.config 10
           MockAdmin.group_of Mock.start) /\
  searched true MockAdmin.core [MockAdmin.guests; MockAdmin.staff] /\
  (exists found,
     fst (get_group_by_path MockAdmin.groups_listed Mock.lib Mock.config 10
            MockAdmin.group_of "/staff/dev/core" true Mock.start)
     = Ok (UValue found)).
Proof.
  destruct (get_group_by_path_finds MockAdmin.groups_listed Mock.lib Mock.config 10
              MockAdmin.group_of "/staff/dev/core" true Mock.start
              (snd (get_all_groups MockAdmin.groups_listed Mock.lib Mock.config 10
                      MockAdmin.group_of Mock.start))
              [MockAdmin.guests; MockAdmin.staff])
    as (Hstate & Hfound & _ & _ & Hreturns).
  - vm_compute. reflexivity.
  - split; [vm_compute; reflexivity|]. split; [exact Hstate|]. split.
    + apply (Hfound MockAdmin.core). vm_compute. reflexivity.
    + destruct Hreturns as (found & Hrun & _).
      * intros _ top d [<- | [<- | []]] Hdesc.
        -- exact (proj2 (all_listed_lists MockAdmin.guests eq_refl) d Hdesc).
        -- exact (proj2 (all_listed_lists MockAdmin.staff eq_refl) d Hdesc).
      * exists found. exact Hrun.
Defined.

Lemma admin_token_setter_guards_cache_witness :
  _admin_token (snd (admin_token_setter Mock.renewing Mock.lib Mock.config
                       (JStr "alice-token") Mock.start))
  = JStr "admin-token".
Proof.
  destruct (admin_token_setter Mock.renewing Mock.lib Mock.config
              (JStr "alice-token") Mock.start) as [r s1] eqn:Hrun.
  destruct (admin_token_setter_guards_cache _ _ _ _ _ _ _ Hrun) as (_ & _ & Hkept).
  cbn [snd]. vm_compute in Hrun. injection Hrun as <- <-.
  apply (Hkept AttributeError). reflexivity.
Defined.

Lemma _get_admin_token_caches_accepted_witness :
  sent (snd (_get_admin_token Mock.renewing Mock.lib Mock.config Mock.stale_start))
  = [client_credentials_grant Mock.config].
Proof.
  destruct (_get_admin_token Mock.renewing Mock.lib Mock.config Mock.stale_start)
    as [r s1] eqn:Hrun.
  destruct (_get_admin_token_caches_accepted _ _ _ _ _ _ Hrun) as (Hsent & _).
  exact Hsent.
Defined.

Lemma admin_token_returns_validated_witness :
  exists n, (n <= 5)%nat /\
    sent (snd (admin_token Mock.renewing Mock.lib Mock.config 5 Mock.stale_start))
    = repeat (client_credentials_grant Mock.config) n.
Proof.
  destruct (admin_token Mock.renewing Mock.lib Mock.config 5 Mock.stale_start)
    as [r s1] eqn:Hrun.
  destruct (admin_token_returns_validated _ _ _ _ _ _ _ Hrun) as [(n & Hn & Hsent) _].
  exists n. split; [exact Hn|exact Hsent].
Defined.

Lemma get_current_user_extra_fields_witness :
  exists view,
    get_current_user Mock.renewing Mock.lib Mock.config (Some ["reader"])
      (Some ["sub"; "email"]) "alice-token" Mock.start
    = (Ok view, mkState (JStr "admin-token") 1 []) /\
    extra_fields view !! "sub" = Some (JStr "alice") /\
    extra_fields view !! "email" = Some JNull.
Proof.
  edestruct (get_current_user_extra_fields Mock.renewing Mock.lib Mock.config
               (Some ["reader"]) ["sub"; "email"] "alice-token" Mock.start
               (mkState (JStr "admin-token") 1 [])
               [("sub", JStr "alice"); ("exp", JNum 4102444800);
                ("roles", JArr [JStr "reader"; JStr "writer"])]
               (mkOIDCUser "alice" (Ok ["reader"; "writer"]) ∅))
    as (view & Hrun & Hin & _).
  - vm_compute. reflexivity.
  - vm_compute. reflexivity.
  - intros role Hrole. exists ["reader"; "writer"]. split; [reflexivity|].
    apply list_elem_of_singleton in Hrole as ->. apply list_elem_of_here.
  - exists view. split; [exact Hrun|]. split.
    + apply (Hin "sub"). apply list_elem_of_here.
    + apply (Hin "email"). apply list_elem_of_further, list_elem_of_here.
Defined.

Lemma max_concurrent_sessions_round_trip_witness :
  get_max_concurrent_sessions MockAdmin.realm_cap_two Mock.lib Mock.config 10 Mock.start
  = (Ok 2, snd (get_max_concurrent_sessions MockAdmin.realm_cap_two Mock.lib
                  Mock.config 10 Mock.start)).
Proof.
  edestruct (max_concurrent_sessions_round_trip MockAdmin.realm_cap_two Mock.lib
               Mock.config 10 2 Mock.start (tick Mock.start) Mock.start)
    as [_ Hread].
  - vm_compute. reflexivity.
  - vm_compute. reflexivity.
  - vm_compute. reflexivity.
  - vm_compute. reflexivity.
  - rewrite Hread. reflexivity.
Defined.

Lemma get_max_concurrent_sessions_default_witness :
  fst (get_max_concurrent_sessions MockAdmin.realm_without_cap Mock.lib Mock.config 10
         Mock.start) = Ok 0.
Proof.
  edestruct (get_max_concurrent_sessions_default MockAdmin.realm_without_cap Mock.lib
               Mock.config 10 Mock.start) as (Hmissing & _).
  - vm_compute. reflexivity.
  - reflexivity.
  - rewrite Hmissing; reflexivity.
Defined.

Lemma is_user_temporarily_disabled_outcome_witness :
  fst (is_user_temporarily_disabled MockAdmin.events_with_lockout Mock.lib Mock.config
         10 "u-carol" Mock.start) = Ok (UValue true).
Proof.
  edestruct (is_user_temporarily_disabled_outcome MockAdmin.events_with_lockout
               Mock.lib Mock.config 10 "u-carol" Mock.start) as (_ & _ & Hevents).
  - vm_compute. reflexivity.
  - vm_compute. reflexivity.
  - edestruct Hevents as (disabled & Hrun & Hiff).
    + reflexivity.
    + reflexivity.
    + constructor; [eexists; reflexivity|constructor].
    + rewrite Hrun. f_equal. f_equal. apply Hiff.
      apply Exists_cons_hd. eexists. split; reflexivity.
Defined.

Lemma get_user_by_query_outcome_witness :
  fst (get_user MockAdmin.two_users_found Mock.lib Mock.config 10 None
         "username=ali" Mock.start)
  = Ok (UValue (mkKeycloakUser "u-alice" [] JNull)).
Proof.
  edestruct (get_user_by_query_outcome MockAdmin.two_users_found Mock.lib Mock.config
               10 "username=ali" Mock.start) as (_ & Hfirst & _).
  - vm_compute. reflexivity.
  - vm_compute. reflexivity.
  - erewrite Hfirst; [reflexivity|reflexivity|reflexivity].
Defined.

Lemma get_user_by_id_outcome_witness :
  fst (get_user MockAdmin.user_by_id Mock.lib Mock.config 10 (Some "u-bob")
         EmptyString Mock.start)
  = Ok (UValue (mkKeycloakUser "u-bob" [] (JObj [("department", JStr "sales")]))).
Proof.
  edestruct (get_user_by_id_outcome MockAdmin.user_by_id Mock.lib Mock.config 10
               "u-bob" Mock.start) as (_ & Hfound).
  - vm_compute. reflexivity.
  - erewrite Hfound; [reflexivity|discriminate|reflexivity|reflexivity].
Defined.

Lemma user_login_returns_five_fields_witness :
  exists before,
    sent (snd (user_login Mock.empty_expiration Mock.lib Mock.config 10 "dave" "pw"
                 Mock.start))
    = before ++ [password_grant Mock.config "dave" "pw"].
Proof.
  destruct (user_login Mock.empty_expiration Mock.lib Mock.config 10 "dave" "pw"
              Mock.start) as [r s1] eqn:Hrun.
  assert (Hok : exists tokens, r = Ok tokens).
  { vm_compute in Hrun. injection Hrun as <- _. eexists. reflexivity. }
  destruct Hok as [tokens ->].
  exact (proj2 (user_login_returns_five_fields _ _ _ _ _ _ _ _ _ Hrun)).
Defined.

Lemma add_user_roles_posts_known_roles_witness :
  exists token before,
    sent (snd (add_user_roles MockAdmin.roles_listed Mock.lib Mock.config 10
                 MockAdmin.role_of (Some ["writer"; "auditor"; "admin"]) "u-bob"
                 Mock.start))
    = before ++ [admin_request
                   (users_uri Mock.config +:+ "/" +:+ "u-bob" +:+ "/role-mappings/realm")
                   POST (JArr [JObj [("name", JStr "admin")];
                               JObj [("name", JStr "writer")]]) token].
Proof.
  edestruct (add_user_roles_posts_known_roles MockAdmin.roles_listed Mock.lib
               Mock.config 10 MockAdmin.role_of ["writer"; "auditor"; "admin"] "u-bob"
               Mock.start) as [Hsent _].
  - vm_compute. reflexivity.
  - vm_compute. reflexivity.
  - eexists. eexists. rewrite Hsent. reflexivity.
Defined.

Lemma set_account_expiration_replaces_attributes_witness :
  exists token before rest,
    sent (snd (set_account_expiration MockAdmin.user_by_id Mock.lib Mock.config 10
                 MockAdmin.user_dict "u-bob" "2999-01-01T00:00:00Z" Mock.start))
    = before ++ admin_request (users_uri Mock.config +:+ "/" +:+ "u-bob") PUT
                  (JObj [("id", JStr "u-bob"); ("requiredActions", JArr []);
                         ("attributes",
                          JObj [("account_expiration", JStr "2999-01-01T00:00:00Z")])])
                  token :: rest.
Proof.
  edestruct (set_account_expiration_replaces_attributes MockAdmin.user_by_id Mock.lib
               Mock.config 10 MockAdmin.user_dict "u-bob" "2999-01-01T00:00:00Z"
               Mock.start) as [(rest & Hsent) _].
  - vm_compute. reflexivity.
  - vm_compute. reflexivity.
  - eexists. eexists. exists rest. rewrite Hsent. reflexivity.
Defined.
